(** * web-scraper-analyzer: fetcher, content extractors and text analyzer

    A shallow embedding of the fetch / extract / analyse pipeline of the
    repository (src/scraper/utils.py, src/parser/parsers.py,
    src/analyzer/text_analysis.py, main.py) together with the properties
    its specification states about it.

    Conventions of the embedding:
    - a Python [str] is a [string]; a character is a code point below 256;
    - a Python call that may raise returns an [outcome];
    - a method of an object with mutable fields takes the object and
      returns the object it leaves behind;
    - a Python [float] is the rational number it stands for; the sleep
      durations are computed as Python computes them, each operation
      rounded to the nearest binary64 number ([Py.binary64]); the average
      sentence length is the exact quotient;
    - a call nested in another takes a frame of the interpreter's stack:
      the recursion of [fetch_url] is bounded by the frames left;
    - third-party libraries (BeautifulSoup, requests, NLTK, TextBlob, spaCy,
      textstat) are modelled by what the calls of the repository use of
      them: the modules [Py], [Re] and [Bs4] for what is computed, the
      records [Utils.world] and [TextAnalysis.libraries] for what is only
      called. *)

From Stdlib Require Import String Ascii List Bool Arith ZArith QArith Lia Lqa.
From Stdlib Require Import Qround Qabs Qpower SpecFloat.
From Stdlib Require Import Permutation Sorted.
Import ListNotations.
Close Scope Q_scope.
Open Scope string_scope.
Set Warnings "-register-all".

(* ===================================================================== *)
(** * Python values, exceptions and strings *)
(* ===================================================================== *)

Module Py.

(** The exception classes the repository names or can meet. *)
Inductive exn :=
| TypeError
| AttributeError
| ZeroDivisionError
| ImportError
| ModuleNotFoundError
| OSError
| RequestException
| HTTPError
| ConnectionError
| Timeout
| KeyboardInterrupt
| RuntimeError
| RecursionError.

Definition exn_eqb (a b : exn) : bool :=
  match a, b with
  | TypeError, TypeError | AttributeError, AttributeError
  | ZeroDivisionError, ZeroDivisionError | ImportError, ImportError
  | ModuleNotFoundError, ModuleNotFoundError | OSError, OSError
  | RequestException, RequestException | HTTPError, HTTPError
  | ConnectionError, ConnectionError | Timeout, Timeout
  | KeyboardInterrupt, KeyboardInterrupt | RuntimeError, RuntimeError
  | RecursionError, RecursionError => true
  | _, _ => false
  end.

(** [isinstance e cls]: the class of [e] is [cls] or derives from it.
    [requests]' exceptions derive from [RequestException], which derives
    from [IOError], an alias of [OSError]; [RecursionError] derives from
    [RuntimeError]. *)
Definition isinstance (e cls : exn) : bool :=
  exn_eqb e cls ||
  match cls, e with
  | ImportError, ModuleNotFoundError => true
  | RuntimeError, RecursionError => true
  | RequestException, (HTTPError | ConnectionError | Timeout) => true
  | OSError, (RequestException | HTTPError | ConnectionError | Timeout) => true
  | _, _ => false
  end.

(** The result of a call: a value, or an exception on its way up. *)
Inductive outcome (A : Type) :=
| Ret (a : A)
| Raise (e : exn).
Arguments Ret {A} a.
Arguments Raise {A} e.

Definition bind {A B} (m : outcome A) (k : A -> outcome B) : outcome B :=
  match m with
  | Ret a => k a
  | Raise e => Raise e
  end.

(** [try: m except cls: handler] *)
Definition try_except {A} (m : outcome A) (cls : exn)
           (handler : exn -> outcome A) : outcome A :=
  match m with
  | Ret a => Ret a
  | Raise e => if isinstance e cls then handler e else Raise e
  end.

Definition raises {A} (m : outcome A) : bool :=
  match m with Ret _ => false | Raise _ => true end.

(** The values the accessors of the parsers return: [None], a [str], or
    a list. *)
Inductive value :=
| VNone
| VStr (s : string)
| VList (l : list value).

(** ** str *)

Definition ord (c : ascii) : nat := nat_of_ascii c.

(** [c.isspace()], which is also the class [\s] of [re] on [str]:
    TAB LF VT FF CR, FS GS RS US, SPACE, NEL and NBSP. *)
Definition isspace (c : ascii) : bool :=
  let n := ord c in
  ((9 <=? n) && (n <=? 13) || (28 <=? n) && (n <=? 32)
   || (n =? 133) || (n =? 160))%nat.

(** [c.lower()] on code points below 256: A-Z and the Latin-1 capitals
    (all of 192..222 but the multiplication sign 215). *)
Definition lower_char (c : ascii) : ascii :=
  let n := ord c in
  if ((65 <=? n) && (n <=? 90)
      || (192 <=? n) && (n <=? 222) && negb (n =? 215))%nat
  then ascii_of_nat (n + 32) else c.

Fixpoint lower (s : string) : string :=
  match s with
  | EmptyString => EmptyString
  | String c s' => String (lower_char c) (lower s')
  end.

Fixpoint lstrip (s : string) : string :=
  match s with
  | EmptyString => EmptyString
  | String c s' => if isspace c then lstrip s' else s
  end.

Fixpoint rstrip (s : string) : string :=
  match s with
  | EmptyString => EmptyString
  | String c s' =>
      match rstrip s' with
      | EmptyString => if isspace c then EmptyString else String c EmptyString
      | r => String c r
      end
  end.

(** [s.strip()] *)
Definition strip (s : string) : string := rstrip (lstrip s).

(** [sep.join(l)] *)
Fixpoint join (sep : string) (l : list string) : string :=
  match l with
  | [] => EmptyString
  | [x] => x
  | x :: rest => x ++ sep ++ join sep rest
  end.

(** [s.split()]: the maximal runs of characters that are not whitespace.
    [cur] is the run being read, if any. *)
Fixpoint split_from (cur : option string) (s : string) : list string :=
  match s with
  | EmptyString => match cur with Some w => [w] | None => [] end
  | String c s' =>
      if isspace c
      then match cur with
           | Some w => w :: split_from None s'
           | None => split_from None s'
           end
      else split_from
             (Some (match cur with Some w => w | None => EmptyString end
                    ++ String c EmptyString)) s'
  end.

Definition split (s : string) : list string := split_from None s.

(** [sub in s] *)
Fixpoint contains (sub s : string) : bool :=
  String.prefix sub s ||
  match s with
  | EmptyString => false
  | String _ s' => contains sub s'
  end.

(** [string.punctuation]; the second character is the double quote. *)
Definition punctuation : string :=
  "!" ++ String (ascii_of_nat 34) "#$%&'()*+,-./:;<=>?@[\]^_`{|}~".

Fixpoint char_in (c : ascii) (s : string) : bool :=
  match s with
  | EmptyString => false
  | String d s' => Ascii.eqb c d || char_in c s'
  end.

(** [s.translate(str.maketrans('', '', deleted))] *)
Fixpoint delete_chars (deleted s : string) : string :=
  match s with
  | EmptyString => EmptyString
  | String c s' =>
      if char_in c deleted then delete_chars deleted s'
      else String c (delete_chars deleted s')
  end.

(** ** float

    A [float] is a binary64 number: a mantissa of 53 bits and a power of
    two, the exponent of the smallest normal number being -1022. It is
    modelled by the rational it stands for, and an operation on floats by
    the exact operation followed by the rounding to the nearest binary64
    number, the one with the even mantissa when two are as near. The
    exponent is not bounded from above: results beyond the largest
    binary64 number (about 1.8e308), where Python gives [inf] or raises
    [OverflowError], are outside the model; no duration computed by the
    repository comes near them. *)

Definition pow2 (e : Z) : Q := (2 ^ e)%Q.

(** The integer nearest to [q], the even one of two that are as near. *)
Definition round_half_even (q : Q) : Z :=
  let f := Qfloor q in
  match (q - inject_Z f ?= 1 # 2)%Q with
  | Lt => f
  | Eq => if Z.even f then f else (f + 1)%Z
  | Gt => (f + 1)%Z
  end.

(** For a positive [q], the exponent [e] with [2^e <= q < 2^(e+1)]: it is
    the difference of the bit lengths of numerator and denominator, or one
    less. *)
Definition ilog2 (q : Q) : Z :=
  let e := (Z.log2 (Qnum q) - Z.log2 (Zpos (Qden q)))%Z in
  if Qle_bool (pow2 e) q then e else (e - 1)%Z.

(** The exponent of the unit in the last place of the binary64 numbers
    around [q]: 52 below the exponent of [q], and -1074 for the subnormal
    numbers. *)
Definition ulp_exponent (q : Q) : Z :=
  (Z.max (ilog2 (Qabs q)) (-1022) - 52)%Z.

(** The binary64 number nearest to [q]. *)
Definition binary64 (q : Q) : Q :=
  (inject_Z (round_half_even (q / pow2 (ulp_exponent q)))
   * pow2 (ulp_exponent q))%Q.

(** [a + b] and [a * b] on floats (an [int] operand is converted first,
    exactly for the small integers of the repository). *)
Definition float_add (a b : Q) : Q := binary64 (a + b)%Q.
Definition float_mul (a b : Q) : Q := binary64 (a * b)%Q.

(** [a / b] on two integers, [b] not zero: the quotient, correctly
    rounded. *)
Definition int_truediv (a b : Z) : Q := binary64 (inject_Z a / inject_Z b)%Q.

End Py.

(* ===================================================================== *)
(** * The regular expressions of the repository *)
(* ===================================================================== *)

Module Re.
Import Py.

(** The patterns compiled by the parsers are alternations of literal
    words, [re.compile('(author|byline)', re.I)] and the like. *)
Record pattern := compile {
  alternatives : list string;
  ignorecase : bool
}.

(** [p.search(s)] is a match object (true) when one of the words occurs
    somewhere in [s]; under [re.I] letters are compared up to case. *)
Definition search (p : pattern) (s : string) : bool :=
  if ignorecase p
  then existsb (fun w => contains (lower w) (lower s)) (alternatives p)
  else existsb (fun w => contains w s) (alternatives p).

(** [re.sub(r'\s+', ' ', s)]: every maximal run of whitespace becomes one
    space. [in_run] tells that the previous character was whitespace. *)
Fixpoint sub_spaces_from (in_run : bool) (s : string) : string :=
  match s with
  | EmptyString => EmptyString
  | String c s' =>
      if isspace c
      then if in_run then sub_spaces_from true s'
           else String " " (sub_spaces_from true s')
      else String c (sub_spaces_from false s')
  end.

Definition sub_spaces (s : string) : string := sub_spaces_from false s.

End Re.

(* ===================================================================== *)
(** * BeautifulSoup: the document tree and its searches *)
(* ===================================================================== *)

Module Bs4.
Import Py.

(** The classes of the strings of a tree. *)
Inductive string_class :=
| NavigableString
| CData
| Comment
| Declaration
| Doctype
| ProcessingInstruction
| Script
| Stylesheet
| TemplateString.

(** The value of an attribute: a string, or the list of the words of a
    multi-valued attribute such as [class] or [rel]. *)
Inductive attr_value :=
| AttrStr (s : string)
| AttrList (l : list string).

Inductive element :=
| Tag (name : string) (attrs : list (string * attr_value))
      (contents : list element)
| Str (cls : string_class) (s : string).

(** A parsed document is the contents of the [BeautifulSoup] object. *)
Definition document := list element.

Fixpoint lookup {V} (key : string) (d : list (string * V)) : option V :=
  match d with
  | [] => None
  | (k, v) :: rest => if String.eqb k key then Some v else lookup key rest
  end.

(** [tag.get(key)] *)
Definition get (e : element) (key : string) : option attr_value :=
  match e with
  | Tag _ attrs _ => lookup key attrs
  | Str _ _ => None
  end.

(** [tag.has_attr(key)] *)
Definition has_attr (e : element) (key : string) : bool :=
  match get e key with Some _ => true | None => false end.

(** [e.descendants]: everything below [e], in document order. *)
Fixpoint descendants_of (e : element) : list element :=
  match e with
  | Tag _ _ cs => flat_map (fun c => c :: descendants_of c) cs
  | Str _ _ => []
  end.

Definition descendants (d : document) : list element :=
  flat_map (fun c => c :: descendants_of c) d.

(** The strings that [get_text] reads: [NavigableString] and [CData]. The
    tags the repository reads text from (the document, title, body,
    article, main, div, a, span, p) have these default string classes. *)
Definition interesting (c : string_class) : bool :=
  match c with
  | NavigableString | CData => true
  | _ => false
  end.

Definition string_of (e : element) : list string :=
  match e with
  | Str c s => if interesting c then [s] else []
  | Tag _ _ _ => []
  end.

(** [_all_strings(strip)]: with [strip] each string is stripped and the
    empty ones are skipped. *)
Definition all_strings (strip_them : bool) (below : list element)
  : list string :=
  let raw := flat_map string_of below in
  if strip_them
  then filter (fun s => negb (String.eqb s "")) (map strip raw)
  else raw.

(** [d.get_text(separator, strip)] on the document. *)
Definition doc_get_text (separator : string) (strip_them : bool)
           (d : document) : string :=
  join separator (all_strings strip_them (descendants d)).

(** [e.get_text(separator, strip)] on a tag. *)
Definition get_text (separator : string) (strip_them : bool)
           (e : element) : string :=
  join separator (all_strings strip_them (descendants_of e)).

(** [e.text] *)
Definition text (e : element) : string := get_text "" false e.

(** What a search compares a name or an attribute with. *)
Inductive match_against :=
| MatchTrue
| MatchStr (s : string)
| MatchAny (l : list string)
| MatchRe (p : Re.pattern).

(** [_matches] on a string. *)
Definition matches_str (markup : string) (m : match_against) : bool :=
  match m with
  | MatchTrue => true
  | MatchStr s => String.eqb markup s
  | MatchAny l => existsb (String.eqb markup) l
  | MatchRe p => Re.search p markup
  end.

(** [_matches] on the value of an attribute. A list matches when one of
    its words does or when the words joined by spaces do; a missing
    attribute matches only what is false in Python. *)
Definition matches (markup : option attr_value) (m : match_against) : bool :=
  match markup with
  | Some (AttrStr s) => matches_str s m
  | Some (AttrList l) =>
      existsb (fun item => matches_str item m) l
      || matches_str (join " " l) m
  | None =>
      match m with
      | MatchTrue => false
      | MatchStr s => String.eqb s ""
      | MatchAny l => match l with [] => true | _ => false end
      | MatchRe _ => false
      end
  end.

(** A [SoupStrainer]: what [find] and [find_all] look for. *)
Record strainer := {
  st_name : option match_against;
  st_attrs : list (string * match_against)
}.

(** [search_tag]: strings never match; a tag matches when its name does
    and every attribute asked for does. *)
Definition search_tag (st : strainer) (e : element) : bool :=
  match e with
  | Str _ _ => false
  | Tag n _ _ =>
      match st_name st with
      | None => true
      | Some m => matches_str n m
      end
      && forallb (fun '(attr, m) => matches (get e attr) m) (st_attrs st)
  end.

Definition strained (st : strainer) (below : list element) : list element :=
  filter (search_tag st) below.

(** A keyword argument of the calls to [find] and [find_all] of the
    repository: a dictionary (for [attrs]) or something to match. *)
Inductive kwarg :=
| KwDict (d : list (string * match_against))
| KwMatch (m : match_against).

Definition has_key {V} (key : string) (d : list (string * V)) : bool :=
  match lookup key d with Some _ => true | None => false end.

(** Binding the arguments of [find(name, **kwargs)] and
    [find_all(name, **kwargs)], whose signature is
    [(self, name=None, attrs={}, recursive=True, string=None, **kwargs)]:
    - the first positional argument is [name]; a keyword [name] next to
      it is a [TypeError] (multiple values for argument 'name');
    - the keyword [attrs] is the dictionary of attributes (a plain value
      stands for the [class]);
    - every other keyword is one more attribute to match.
    The repository passes neither [recursive] nor [string] nor [limit]. *)
Definition bind_args (name : match_against) (kwargs : list (string * kwarg))
  : outcome strainer :=
  if has_key "name" kwargs then Raise TypeError
  else
    let attrs :=
      match lookup "attrs" kwargs with
      | Some (KwDict d) => d
      | Some (KwMatch m) => [("class", m)]
      | None => []
      end in
    let extra :=
      flat_map (fun '(k, v) =>
                  if String.eqb k "attrs" then []
                  else match v with
                       | KwMatch m => [(k, m)]
                       | KwDict _ => []
                       end) kwargs in
    Ret {| st_name := Some name; st_attrs := attrs ++ extra |}.

(** [d.find_all(name, **kwargs)] on the document. *)
Definition find_all (d : document) (name : match_against)
           (kwargs : list (string * kwarg)) : outcome (list element) :=
  bind (bind_args name kwargs) (fun st => Ret (strained st (descendants d))).

(** [d.find(name, **kwargs)]: the first of [find_all], or [None]. *)
Definition find (d : document) (name : match_against)
           (kwargs : list (string * kwarg)) : outcome (option element) :=
  bind (find_all d name kwargs) (fun l => Ret (hd_error l)).

(** The loop [for element in d(names): element.decompose()] leaves the
    document without the matching tags and what is below them. All
    the matches are collected before the first is destroyed; destroying a
    tag detaches its whole subtree, and a match inside a destroyed subtree
    is destroyed again without touching the document. *)
Fixpoint decompose_below (st : strainer) (e : element) : element :=
  match e with
  | Tag n a cs =>
      Tag n a (flat_map (fun c => if search_tag st c then []
                                  else [decompose_below st c]) cs)
  | Str c s => Str c s
  end.

Definition decompose_all (st : strainer) (d : document) : document :=
  flat_map (fun c => if search_tag st c then []
                     else [decompose_below st c]) d.

End Bs4.

(* ===================================================================== *)
(** * src/parser/parsers.py *)
(* ===================================================================== *)

Module Parsers.
Import Py Bs4.

(** [BaseParser]; [ArticleParser] adds methods and no field. [soup] is the
    one field a method assigns through: the tree it refers to is shared by
    all the methods of the object. *)
Record BaseParser := {
  html : option string;
  url : string;
  soup : option document
}.

(** [BaseParser.__init__]; [html_parser] is
    [BeautifulSoup(_, 'html.parser')]. *)
Definition init (html_parser : string -> document)
           (html_content : option string) (url : string) : BaseParser :=
  {| html := html_content;
     url := url;
     soup := match html_content with
             | Some h => if String.eqb h "" then None else Some (html_parser h)
             | None => None
             end |}.

Definition with_soup (self : BaseParser) (d : document) : BaseParser :=
  {| html := html self; url := url self; soup := Some d |}.

(** The value of an attribute as the caller sees it. *)
Definition value_of_attr (a : attr_value) : value :=
  match a with
  | AttrStr s => VStr s
  | AttrList l => VList (map VStr l)
  end.

Definition value_of_get (a : option attr_value) : value :=
  match a with
  | Some v => value_of_attr v
  | None => VNone
  end.

Definition get_title (self : BaseParser) : outcome value * BaseParser :=
  match soup self with
  | None => (Ret VNone, self)
  | Some d =>
      (bind (find d (MatchStr "title") []) (fun title_tag =>
         match title_tag with
         | Some t => Ret (VStr (strip (text t)))
         | None => Ret VNone
         end),
       self)
  end.

(** [meta_desc.get('content', '').strip()]: a list has no [strip]. *)
Definition get_meta_description (self : BaseParser)
  : outcome value * BaseParser :=
  match soup self with
  | None => (Ret VNone, self)
  | Some d =>
      (bind (find d (MatchStr "meta")
               [("attrs", KwDict [("name", MatchStr "description")])])
         (fun meta_desc =>
            match meta_desc with
            | Some m =>
                match get m "content" with
                | None => Ret (VStr (strip ""))
                | Some (AttrStr c) => Ret (VStr (strip c))
                | Some (AttrList _) => Raise AttributeError
                end
            | None => Ret VNone
            end),
       self)
  end.

(** [max(l, key=key)] on a list that is not empty: the first element
    whose key no later element exceeds. *)
Fixpoint max_by {A} (key : A -> nat) (best : A) (l : list A) : A :=
  match l with
  | [] => best
  | x :: rest => max_by key (if (key best <? key x)%nat then x else best) rest
  end.

Definition content_class : Re.pattern :=
  Re.compile ["content"; "article"; "post"; "main"] true.

Definition get_main_content (self : BaseParser)
  : outcome value * BaseParser :=
  match soup self with
  | None => (Ret VNone, self)
  | Some d =>
      (bind (find_all d (MatchAny ["article"; "main"; "div"])
               [("attrs", KwDict [("class", MatchRe content_class)])])
         (fun main_containers =>
            match main_containers with
            | c :: rest =>
                let main_content :=
                  max_by (fun x => String.length (get_text "" true x))
                         c rest in
                Ret (VStr (get_text " " true main_content))
            | [] =>
                bind (find d (MatchStr "body") []) (fun body =>
                  match body with
                  | Some b => Ret (VStr (get_text " " true b))
                  | None => Ret VNone
                  end)
            end),
       self)
  end.

Definition get_all_links (self : BaseParser) : outcome value * BaseParser :=
  match soup self with
  | None => (Ret (VList []), self)
  | Some d =>
      (bind (find_all d (MatchStr "a") [("href", KwMatch MatchTrue)])
         (fun anchors =>
            Ret (VList (map (fun a => value_of_get (get a "href")) anchors))),
       self)
  end.

Definition get_images (self : BaseParser) : outcome value * BaseParser :=
  match soup self with
  | None => (Ret (VList []), self)
  | Some d =>
      (bind (find_all d (MatchStr "img") [("src", KwMatch MatchTrue)])
         (fun imgs =>
            Ret (VList (map (fun i => value_of_get (get i "src")) imgs))),
       self)
  end.

Definition unwanted : list string :=
  ["script"; "style"; "head"; "header"; "footer"; "nav"].

(** The loop of [get_clean_text] destroys the unwanted tags in the tree
    [self.soup] refers to, not in a copy of it: the object the method
    leaves behind holds the pruned tree. *)
Definition get_clean_text (self : BaseParser) : outcome value * BaseParser :=
  match soup self with
  | None => (Ret (VStr ""), self)
  | Some d =>
      match bind_args (MatchAny unwanted) [] with
      | Raise e => (Raise e, self)
      | Ret st =>
          let d' := decompose_all st d in
          let text := doc_get_text " " true d' in
          let text := Re.sub_spaces text in
          (Ret (VStr (strip text)), with_soup self d')
      end
  end.

(** ** ArticleParser *)

Definition author_patterns : list (list (string * kwarg)) :=
  [ [("attrs",
      KwDict [("class", MatchRe (Re.compile ["author"; "byline"] true))])];
    [("attrs", KwDict [("rel", MatchStr "author")])];
    [("itemprop", KwMatch (MatchStr "author"))];
    [("name", KwMatch (MatchRe (Re.compile ["author"] true)))] ].

(** [for pattern in author_patterns: ...] followed by [return None]. *)
Fixpoint try_author_patterns (d : document)
         (patterns : list (list (string * kwarg))) : outcome value :=
  match patterns with
  | [] => Ret VNone
  | pattern :: rest =>
      bind (find d (MatchAny ["a"; "span"; "div"; "p"]) pattern)
        (fun author_tag =>
           match author_tag with
           | Some t => Ret (VStr (get_text "" true t))
           | None => try_author_patterns d rest
           end)
  end.

Definition get_author (self : BaseParser) : outcome value * BaseParser :=
  match soup self with
  | None => (Ret VNone, self)
  | Some d => (try_author_patterns d author_patterns, self)
  end.

Definition date_class : Re.pattern :=
  Re.compile ["date"; "time"; "publish"] true.

(** The last part of [get_publish_date], reached when neither the meta
    tag nor a [time] tag with a [datetime] gave the date. *)
Definition date_by_class (d : document) : outcome value :=
  bind (find d (MatchAny ["span"; "div"; "p"])
          [("attrs", KwDict [("class", MatchRe date_class)])])
    (fun date_tag =>
       match date_tag with
       | Some t => Ret (VStr (get_text "" true t))
       | None => Ret VNone
       end).

Definition get_publish_date (self : BaseParser)
  : outcome value * BaseParser :=
  match soup self with
  | None => (Ret VNone, self)
  | Some d =>
      (bind (find d (MatchStr "meta")
               [("attrs",
                 KwDict [("property",
                          MatchAny ["article:published_time";
                                    "og:published_time"])])])
         (fun meta_date =>
            match meta_date with
            | Some m => Ret (value_of_get (get m "content"))
            | None =>
                bind (find d (MatchStr "time") []) (fun time_tag =>
                  match time_tag with
                  | Some t =>
                      if has_attr t "datetime"
                      then Ret (value_of_get (get t "datetime"))
                      else date_by_class d
                  | None => date_by_class d
                  end)
            end),
       self)
  end.

End Parsers.

(* ===================================================================== *)
(** * src/config.py *)
(* ===================================================================== *)

Module Config.

Definition REQUEST_TIMEOUT : Z := 30.
Definition RETRY_COUNT : Z := 3.
Definition REQUESTS_PER_MINUTE : Z := 20.

(** [60 / REQUESTS_PER_MINUTE], a [float]. *)
Definition DELAY_BETWEEN_REQUESTS : Q :=
  Py.int_truediv 60 REQUESTS_PER_MINUTE.

End Config.

(* ===================================================================== *)
(** * src/scraper/utils.py *)
(* ===================================================================== *)

Module Utils.
Import Py Config.

Record Session := {
  headers : list (string * string);
  proxies : list (string * string)
}.

(** A [requests.Response], as far as [fetch_url] reads it. *)
Record Response := {
  status_code : Z;
  text : string
}.

(** What lies outside the program: the values the random generator
    returns, call after call, what the network answers to the GET
    requests, request after request, and the proxy settings read from the
    environment when [config] is imported. *)
Record world := {
  random_random : nat -> Q;
  random_choice : nat -> nat;
  session_get : nat -> string -> Session -> Z -> outcome Response;
  USE_PROXY : bool;
  PROXY_URL : string
}.

Inductive level := INFO | WARNING | ERROR.

(** What a call does that can be observed from outside. The text of the
    log messages is left out. *)
Inductive event :=
| Sleep (seconds : Q)
| Get (url : string) (timeout : Z)
| Log (l : level).

(** The state threaded through the calls: how many random numbers,
    random choices and requests were consumed, and the events so far,
    oldest first. *)
Record state := {
  drawn : nat;
  chosen : nat;
  sent : nat;
  trace : list event
}.

Definition initial : state :=
  {| drawn := 0; chosen := 0; sent := 0; trace := [] |}.

Definition emit (e : event) (s : state) : state :=
  {| drawn := drawn s; chosen := chosen s; sent := sent s;
     trace := trace s ++ [e] |}.

(** [time.sleep(seconds)] *)
Definition sleep (seconds : Q) (s : state) : state := emit (Sleep seconds) s.

(** [logger.info(...)], [logger.error(...)] *)
Definition log (l : level) (s : state) : state := emit (Log l) s.

(** [random.random()] *)
Definition random (w : world) (s : state) : Q * state :=
  (random_random w (drawn s),
   {| drawn := S (drawn s); chosen := chosen s; sent := sent s;
      trace := trace s |}).

(** [random.choice(l)] on a list that is not empty. *)
Definition choice {A} (w : world) (l : list A) (default : A) (s : state)
  : A * state :=
  (nth (random_choice w (chosen s) mod length l) l default,
   {| drawn := drawn s; chosen := S (chosen s); sent := sent s;
      trace := trace s |}).

Definition user_agents : list string :=
  [ "Mozilla/5.0 (Windows NT 10.0; Win64; x64) AppleWebKit/537.36 (KHTML, like Gecko) Chrome/91.0.4472.124 Safari/537.36";
    "Mozilla/5.0 (Macintosh; Intel Mac OS X 10_15_7) AppleWebKit/605.1.15 (KHTML, like Gecko) Version/14.1.1 Safari/605.1.15";
    "Mozilla/5.0 (Windows NT 10.0; Win64; x64; rv:89.0) Gecko/20100101 Firefox/89.0";
    "Mozilla/5.0 (X11; Linux x86_64) AppleWebKit/537.36 (KHTML, like Gecko) Chrome/92.0.4515.107 Safari/537.36" ].

Definition get_random_user_agent (w : world) (s : state) : string * state :=
  choice w user_agents "" s.

Definition get_session (w : world) (s : state) : Session * state :=
  let (agent, s) := get_random_user_agent w s in
  ({| headers :=
        [ ("User-Agent", agent);
          ("Accept",
           "text/html,application/xhtml+xml,application/xml;q=0.9,*/*;q=0.8");
          ("Accept-Language", "en-US,en;q=0.5");
          ("DNT", "1") ];
      proxies :=
        if USE_PROXY w && negb (String.eqb (PROXY_URL w) "")
        then [("http", PROXY_URL w); ("https", PROXY_URL w)]
        else [] |},
   s).

(** [session.get(url, timeout=REQUEST_TIMEOUT)] *)
Definition get (w : world) (session : Session) (url : string) (s : state)
  : outcome Response * state :=
  (session_get w (sent s) url session REQUEST_TIMEOUT,
   {| drawn := drawn s; chosen := chosen s; sent := S (sent s);
      trace := trace s ++ [Get url REQUEST_TIMEOUT] |}).

(** [response.raise_for_status()]: an [HTTPError] for the client and
    server error codes. *)
Definition raise_for_status (r : Response) : outcome unit :=
  if ((400 <=? status_code r) && (status_code r <? 600))%Z
  then Raise HTTPError else Ret tt.

(** One attempt: [fetch_url] from its first line to the end of its [try]
    block. Next to the outcome of the [try] block come the session, the
    delay and the state the [except] clause goes on with. *)
Definition attempt (w : world) (url : string) (session : option Session)
           (s : state) : outcome string * (Session * Q * state) :=
  let (session, s) :=
    match session with
    | None => get_session w s
    | Some session => (session, s)
    end in
  let (r, s) := random w s in
  let delay := float_mul DELAY_BETWEEN_REQUESTS (float_add (1 # 2) r) in
  let s := sleep delay s in
  let s := log INFO s in
  let (response, s) := get w session url s in
  (bind response (fun response =>
     bind (raise_for_status response) (fun _ => Ret (text response))),
   (session, delay, s)).

(** [fetch_url(url, session, retry)] returns the text of the page or
    [None]. Each retry is a call of [fetch_url] nested in the previous
    one, and takes a frame of the interpreter's stack: [frames] is the
    number of calls of [fetch_url] that can still be nested in this one
    (of the order of [sys.getrecursionlimit()], 1000 by default, less the
    frames of the callers and those that the deepest callee needs). A
    retry with no frame left is a [RecursionError], which no handler of
    [fetch_url] catches. In the interpreter the error may also come from
    a callee of the call that no longer fits, a little later than here:
    what is proved below of the events of a call is proved of the calls
    that stay within the stack. *)
Fixpoint fetch_url (w : world) (url : string) (session : option Session)
         (retry : Z) (frames : nat) (s : state) : outcome value * state :=
  match attempt w url session s with
  | (Ret body, (_, _, s1)) => (Ret (VStr body), s1)
  | (Raise e, (session1, delay, s1)) =>
      if isinstance e RequestException
      then
        let s2 := log ERROR s1 in
        if (0 <? retry)%Z
        then
          let s3 := sleep (float_mul delay 2) (log INFO s2) in
          match frames with
          | S frames' =>
              fetch_url w url (Some session1) (retry - 1) frames' s3
          | O => (Raise RecursionError, s3)
          end
        else (Ret VNone, s2)
      else (Raise e, s1)
  end.

(** [extract_domain] and [is_valid_url] rest on [urlparse] and are not
    part of what is verified here. *)

End Utils.

(* ===================================================================== *)
(** * src/analyzer/text_analysis.py *)
(* ===================================================================== *)

Module TextAnalysis.
Import Py.

(** [blob.sentiment] *)
Record sentiment := {
  polarity : Q;
  subjectivity : Q
}.

(** The module [spacy], once imported: [load] (which may answer otherwise
    after the model was downloaded), the import of [spacy.cli.download],
    and, for a loaded model, the entities of a text as pairs of a label and
    a surface text. *)
Record spacy_module := {
  spacy_load : bool -> string ->
               outcome (string -> outcome (list (string * string)));
  import_download : outcome (string -> outcome unit)
}.

(** The functions of the module [textstat] that are called. *)
Record textstat_module := {
  flesch_reading_ease : string -> outcome Q;
  flesch_kincaid_grade : string -> outcome Q;
  smog_index : string -> outcome Q;
  coleman_liau_index : string -> outcome Q;
  automated_readability_index : string -> outcome Q
}.

(** The libraries around the analyzer: the tokenizers and the stopword
    corpus of NLTK, and what the import of each optional module gives, the
    module or the exception of the [import] statement. *)
Record libraries := {
  word_tokenize : string -> list string;
  sent_tokenize : string -> list string;
  stopwords_fileids : list string;
  stopwords_words : string -> list string;
  import_textblob : outcome (string -> outcome sentiment);
  import_spacy : outcome spacy_module;
  import_textstat : outcome textstat_module
}.

(** [TextAnalyzer]; the stemmer and the lemmatizer it also holds are never
    used. [stop_words] is a set: only membership is asked. *)
Record TextAnalyzer := {
  text : string;
  language : string;
  stop_words : list string
}.

Definition str_in (x : string) (l : list string) : bool :=
  existsb (String.eqb x) l.

Definition init (lib : libraries) (text : string) (language : string)
  : TextAnalyzer :=
  {| text := text;
     language := language;
     stop_words := if str_in language (stopwords_fileids lib)
                   then stopwords_words lib language else [] |}.

Definition preprocess (lib : libraries) (self : TextAnalyzer)
           (lowercase remove_punctuation remove_stopwords : bool)
  : list string :=
  let text := text self in
  let text := if lowercase then lower text else text in
  let text := if remove_punctuation then delete_chars punctuation text
              else text in
  let tokens := word_tokenize lib text in
  if remove_stopwords
  then filter (fun token => negb (str_in token (stop_words self))) tokens
  else tokens.

(** A [Counter] is a dictionary: its items are in the order in which the
    keys were first counted. *)
Fixpoint count_one (token : string) (c : list (string * nat))
  : list (string * nat) :=
  match c with
  | [] => [(token, 1)]
  | (k, n) :: rest =>
      if String.eqb k token then (k, S n) :: rest
      else (k, n) :: count_one token rest
  end.

Definition Counter (tokens : list string) : list (string * nat) :=
  fold_left (fun c token => count_one token c) tokens [].

(** [sorted(items, key=itemgetter(1), reverse=True)]: the sort is stable,
    items of equal count keep their order. *)
Fixpoint insert_by_count (x : string * nat) (sorted : list (string * nat))
  : list (string * nat) :=
  match sorted with
  | [] => [x]
  | y :: rest =>
      if (snd x <? snd y)%nat then y :: insert_by_count x rest
      else x :: y :: rest
  end.

Fixpoint sorted_by_count (items : list (string * nat))
  : list (string * nat) :=
  match items with
  | [] => []
  | x :: rest => insert_by_count x (sorted_by_count rest)
  end.

(** [c.most_common(n)] for an integer [n] is [heapq.nlargest(n, items,
    key=itemgetter(1))], that is the [n] first items of the sorted list,
    and no item when [n] is not positive. *)
Definition most_common (n : Z) (c : list (string * nat))
  : list (string * nat) :=
  firstn (Z.to_nat n) (sorted_by_count c).

(** What [get_word_frequency] returns: the [Counter], or a list of pairs. *)
Inductive frequencies :=
| FreqCounter (c : list (string * nat))
| FreqList (l : list (string * nat)).

(** [if top_n:] holds for an integer other than zero. *)
Definition truthy (top_n : option Z) : bool :=
  match top_n with
  | Some n => negb (n =? 0)%Z
  | None => false
  end.

Definition get_word_frequency (lib : libraries) (self : TextAnalyzer)
           (top_n : option Z) (min_word_length : Z) : frequencies :=
  let tokens := preprocess lib self true true true in
  let tokens :=
    filter (fun token => (min_word_length <=? Z.of_nat (String.length token))%Z)
           tokens in
  let freq_dist := Counter tokens in
  if truthy top_n
  then FreqList (most_common (match top_n with Some n => n | None => 0%Z end)
                             freq_dist)
  else FreqCounter freq_dist.

Definition get_sentences (lib : libraries) (self : TextAnalyzer)
  : list string :=
  sent_tokenize lib (text self).

(** The warnings logged by the three methods below are left out. *)
Definition get_sentiment (lib : libraries) (self : TextAnalyzer)
  : outcome sentiment :=
  try_except
    (bind (import_textblob lib) (fun TextBlob =>
       bind (TextBlob (text self)) (fun blob_sentiment =>
         Ret {| polarity := polarity blob_sentiment;
                subjectivity := subjectivity blob_sentiment |})))
    ImportError
    (fun _ => Ret {| polarity := 0; subjectivity := 0 |}).

(** [entities[entity_type].append(ent.text)], with the list created when
    the type is new. *)
Fixpoint append_entity (entity_type ent_text : string)
         (entities : list (string * list string))
  : list (string * list string) :=
  match entities with
  | [] => [(entity_type, [ent_text])]
  | (k, l) :: rest =>
      if String.eqb k entity_type then (k, (l ++ [ent_text])%list) :: rest
      else (k, l) :: append_entity entity_type ent_text rest
  end.

Definition extract_entities (lib : libraries) (self : TextAnalyzer)
  : outcome (list (string * list string)) :=
  try_except
    (bind (import_spacy lib) (fun spacy =>
       bind (try_except
               (spacy_load spacy false "en_core_web_sm")
               OSError
               (fun _ =>
                  bind (import_download spacy) (fun download =>
                    bind (download "en_core_web_sm") (fun _ =>
                      spacy_load spacy true "en_core_web_sm"))))
         (fun nlp =>
            bind (nlp (text self)) (fun ents =>
              Ret (fold_left
                     (fun entities ent =>
                        append_entity (fst ent) (snd ent) entities)
                     ents [])))))
    ImportError
    (fun _ => Ret []).

Definition get_readability_scores (lib : libraries) (self : TextAnalyzer)
  : outcome (list (string * Q)) :=
  try_except
    (bind (import_textstat lib) (fun textstat =>
       bind (flesch_reading_ease textstat (text self)) (fun a =>
       bind (flesch_kincaid_grade textstat (text self)) (fun b =>
       bind (smog_index textstat (text self)) (fun c =>
       bind (coleman_liau_index textstat (text self)) (fun d =>
       bind (automated_readability_index textstat (text self)) (fun e =>
         Ret [ ("flesch_reading_ease", a);
               ("flesch_kincaid_grade", b);
               ("smog_index", c);
               ("coleman_liau_index", d);
               ("automated_readability_index", e) ])))))))
    ImportError
    (fun _ => Ret []).

End TextAnalysis.

(* ===================================================================== *)
(** * main.py *)
(* ===================================================================== *)

Module Main.
Import Py.

(** [a / b] on integers. *)
Definition truediv (a b : Z) : outcome Q :=
  if (b =? 0)%Z then Raise ZeroDivisionError
  else Ret (inject_Z a / inject_Z b)%Q.

Definition sum (l : list Z) : Z := fold_left Z.add l 0%Z.

(** The value of the key ['average_sentence_length'] in [analyze_content]:
    [sum(len(s.split()) for s in sentences) / len(sentences)
     if sentences else 0]. *)
Definition average_sentence_length (sentences : list string) : outcome Q :=
  match sentences with
  | _ :: _ =>
      truediv (sum (map (fun s => Z.of_nat (length (split s))) sentences))
              (Z.of_nat (length sentences))
  | [] => Ret 0%Q
  end.

Record analysis_results := {
  word_frequency : list (string * nat);
  sentence_count : nat;
  average_length : Q;
  sentiment : TextAnalysis.sentiment;
  entities : list (string * list string);
  readability : list (string * Q)
}.

(** [dict(word_freq)] *)
Definition dict (f : TextAnalysis.frequencies) : list (string * nat) :=
  match f with
  | TextAnalysis.FreqCounter c => c
  | TextAnalysis.FreqList l => l
  end.

(** [analyze_content(content_text)]: [None] for an empty text. *)
Definition analyze_content (lib : TextAnalysis.libraries)
           (content_text : string) : outcome (option analysis_results) :=
  if String.eqb content_text "" then Ret None
  else
    let analyzer := TextAnalysis.init lib content_text "english" in
    let word_freq :=
      TextAnalysis.get_word_frequency lib analyzer (Some 50%Z) 3%Z in
    let sentences := TextAnalysis.get_sentences lib analyzer in
    bind (TextAnalysis.get_sentiment lib analyzer) (fun sentiment =>
    bind (TextAnalysis.extract_entities lib analyzer) (fun entities =>
    bind (TextAnalysis.get_readability_scores lib analyzer) (fun readability =>
    bind (average_sentence_length sentences) (fun average =>
      Ret (Some {| word_frequency := dict word_freq;
                   sentence_count := length sentences;
                   average_length := average;
                   sentiment := sentiment;
                   entities := entities;
                   readability := readability |}))))).

(** The fields that [scrape_url] reads from the parser, in the order of its
    dictionary: title, meta description, clean text, author, publish
    date. Each call goes on with the parser the previous one left. *)
Definition scrape_fields (parser : Parsers.BaseParser)
  : outcome (value * value * value * value * value) :=
  let (title, parser) := Parsers.get_title parser in
  bind title (fun title =>
  let (meta_description, parser) := Parsers.get_meta_description parser in
  bind meta_description (fun meta_description =>
  let (content_text, parser) := Parsers.get_clean_text parser in
  bind content_text (fun content_text =>
  let (author, parser) := Parsers.get_author parser in
  bind author (fun author =>
  let (published_date, parser) := Parsers.get_publish_date parser in
  bind published_date (fun published_date =>
    Ret (title, meta_description, content_text, author, published_date)))))).

(** [d[word] = d.get(word, 0) + count] on a dictionary, whose items stay
    in the order in which the keys came in. *)
Fixpoint add_count (word : string) (count : nat) (d : list (string * nat))
  : list (string * nat) :=
  match d with
  | [] => [(word, 0 + count)]
  | (k, n) :: rest =>
      if String.eqb k word then (k, n + count) :: rest
      else (k, n) :: add_count word count rest
  end.

(** [combined_analysis] in [main]. *)
Record combined_analysis := {
  combined_word_frequency : list (string * nat);
  combined_sentiment : list TextAnalysis.sentiment;
  combined_entities : list (list (string * list string))
}.

(** The loop of [main] that combines the analyses of all the pages before
    they are visualized: the counts of each word are added up, the
    sentiments and the entities are collected. *)
Definition combine_one (combined : combined_analysis) (analysis : analysis_results)
  : combined_analysis :=
  {| combined_word_frequency :=
       fold_left (fun d item => add_count (fst item) (snd item) d)
                 (word_frequency analysis) (combined_word_frequency combined);
     combined_sentiment := combined_sentiment combined ++ [sentiment analysis];
     combined_entities := combined_entities combined ++ [entities analysis] |}.

Definition combine (all_analyses : list analysis_results)
  : combined_analysis :=
  fold_left combine_one all_analyses
    {| combined_word_frequency := [];
       combined_sentiment := [];
       combined_entities := [] |}.

End Main.

(* ===================================================================== *)
(** * src/analyzer/visualizations.py *)
(* ===================================================================== *)

Module Visualizations.

(** The first loop of [Visualizer.plot_entity_counts], which totals the
    entities of each type over the documents:
    [all_entities[ent_type] += len(ent_list)], from 0 for a new type. The
    data frame and the plot made of the totals are not modelled. *)
Definition all_entities (entities_list : list (list (string * list string)))
  : list (string * nat) :=
  fold_left
    (fun all entities =>
       fold_left (fun all item =>
                    Main.add_count (fst item) (length (snd item)) all)
                 entities all)
    entities_list [].

End Visualizations.

(* ===================================================================== *)
(** * Sequences of accessor calls on one parser *)
(* ===================================================================== *)

Module Calls.
Import Py Parsers.

Inductive accessor :=
| GetTitle
| GetMetaDescription
| GetMainContent
| GetAllLinks
| GetImages
| GetCleanText
| GetAuthor
| GetPublishDate.

Definition call (a : accessor) : BaseParser -> outcome value * BaseParser :=
  match a with
  | GetTitle => get_title
  | GetMetaDescription => get_meta_description
  | GetMainContent => get_main_content
  | GetAllLinks => get_all_links
  | GetImages => get_images
  | GetCleanText => get_clean_text
  | GetAuthor => get_author
  | GetPublishDate => get_publish_date
  end.

(** The results of the calls of [l], made one after the other on the same
    parser object, and the object left at the end. *)
Fixpoint call_all (l : list accessor) (parser : BaseParser)
  : list (outcome value) * BaseParser :=
  match l with
  | [] => ([], parser)
  | a :: rest =>
      let (r, parser) := call a parser in
      let (rs, parser) := call_all rest parser in
      (r :: rs, parser)
  end.

End Calls.

(* ===================================================================== *)
(** * Properties *)
(* ===================================================================== *)

Open Scope list_scope.
Open Scope nat_scope.

(** ** Documents: induction, searches *)

Section ElementInduction.
Import Bs4.
Variable P : element -> Prop.
Hypothesis on_str : forall c s, P (Str c s).
Hypothesis on_tag : forall n a cs, Forall P cs -> P (Tag n a cs).

Fixpoint element_induction (e : element) : P e :=
  match e with
  | Str c s => on_str c s
  | Tag n a cs =>
      on_tag n a cs
        ((fix all (l : list element) : Forall P l :=
            match l with
            | [] => Forall_nil P
            | x :: r => Forall_cons x (element_induction x) (all r)
            end) cs)
  end.
End ElementInduction.

Module SearchFacts.
Import Py Bs4.

(** [e] is a tag with one of the names [names]. *)
Definition is_named (names : list string) (e : element) : bool :=
  match e with
  | Tag n _ _ => existsb (String.eqb n) names
  | Str _ _ => false
  end.

(** [m] is the first element of [l] that satisfies [p]. *)
Definition first_such (p : element -> bool) (l : list element) (m : element)
  : Prop :=
  exists before after,
    l = before ++ m :: after /\
    (forall e, In e before -> p e = false) /\
    p m = true.

Lemma hd_filter_first (p : element -> bool) l m :
  hd_error (filter p l) = Some m <-> first_such p l m.
Proof.
  induction l as [|x l IH]; simpl.
  - split; [discriminate|].
    intros (b & a & H & _). destruct b; discriminate.
  - destruct (p x) eqn:Hx; simpl.
    + split.
      * intros [= ->]. exists [], l. repeat split; auto. intros e [].
      * intros (b & a & H & Hb & Hm). destruct b as [|y b]; simpl in H.
        -- now injection H as -> _.
        -- injection H as -> _. rewrite (Hb y) in Hx by now left.
           discriminate.
    + rewrite IH. split.
      * intros (b & a & -> & Hb & Hm). exists (x :: b), a.
        repeat split; auto. intros e [<-|He]; auto.
      * intros (b & a & H & Hb & Hm). destruct b as [|y b]; simpl in H.
        -- injection H as -> _. congruence.
        -- injection H as -> ->. exists b, a. repeat split; auto.
           intros e He. apply Hb. now right.
Qed.

Lemma hd_filter_none (p : element -> bool) l :
  hd_error (filter p l) = None <-> (forall e, In e l -> p e = false).
Proof.
  induction l as [|x l IH]; simpl.
  - split; auto. intros _ e [].
  - destruct (p x) eqn:Hx; simpl.
    + split; [discriminate|]. intros H. rewrite (H x) in Hx by now left.
      discriminate.
    + rewrite IH. split.
      * intros H e [<-|He]; auto.
      * intros H e He. apply H. now right.
Qed.

Lemma filter_nil_iff (p : element -> bool) l :
  filter p l = [] <-> (forall e, In e l -> p e = false).
Proof.
  rewrite <- hd_filter_none. destruct (filter p l); simpl; split;
    congruence.
Qed.

Lemma find_all_bound d name kwargs st :
  bind_args name kwargs = Ret st ->
  find_all d name kwargs = Ret (strained st (descendants d)).
Proof. unfold find_all. now intros ->. Qed.

Lemma find_bound d name kwargs st :
  bind_args name kwargs = Ret st ->
  find d name kwargs = Ret (hd_error (strained st (descendants d))).
Proof. unfold find. intros H. now rewrite (find_all_bound _ _ _ _ H). Qed.

Lemma find_unbound d name kwargs e :
  bind_args name kwargs = Raise e ->
  find d name kwargs = Raise e.
Proof. unfold find, find_all. now intros ->. Qed.

(** [sub in s] holds when [s] is [sub] between two strings; a pattern
    compiled with [re.I] is found in [s] when one of its words, in lower
    case, is in the lower case of [s]. *)
Lemma prefix_spec sub s :
  String.prefix sub s = true <-> exists post, s = (sub ++ post)%string.
Proof.
  revert s. induction sub as [|a sub IH]; intros s.
  - split; [intros _; now exists s|now destruct s].
  - destruct s as [|b s]; simpl.
    + split; [discriminate|]. intros (post & H). discriminate.
    + destruct (ascii_dec a b) as [->|Hne].
      * rewrite IH. split; intros (post & H); exists post; congruence.
      * split; [discriminate|]. intros (post & H). congruence.
Qed.

Lemma contains_spec sub s :
  contains sub s = true <->
  exists pre post, s = (pre ++ sub ++ post)%string.
Proof.
  induction s as [|c s IH]; cbn [contains]; rewrite orb_true_iff, prefix_spec.
  - split.
    + intros [(post & H)|H]; [|discriminate]. now exists EmptyString, post.
    + intros (pre & post & H). left. destruct pre; [|discriminate].
      now exists post.
  - rewrite IH. split.
    + intros [(post & H)|(pre & post & H)].
      * now exists EmptyString, post.
      * exists (String c pre), post. simpl. now rewrite H.
    + intros (pre & post & H). destruct pre as [|d pre]; simpl in H.
      * left. now exists post.
      * right. injection H as _ H. now exists pre, post.
Qed.

Lemma search_ignorecase words s :
  Re.search (Re.compile words true) s = true <->
  exists w pre post,
    In w words /\ lower s = (pre ++ lower w ++ post)%string.
Proof.
  unfold Re.search. cbn [Re.ignorecase Re.alternatives].
  rewrite existsb_exists. split.
  - intros (w & Hw & H). apply contains_spec in H.
    destruct H as (pre & post & H). now exists w, pre, post.
  - intros (w & pre & post & Hw & H). exists w. split; [assumption|].
    apply contains_spec. now exists pre, post.
Qed.

End SearchFacts.

(** ** C10: the meta description *)

Module MetaDescription.
Import Py Bs4 Parsers SearchFacts.











End MetaDescription.

(** ** C2: author and publish date of a document without markers *)

Module AuthorAndDate.
Import Py Bs4 Parsers SearchFacts.

Definition author_class : Re.pattern :=
  Re.compile ["author"; "byline"] true.

(** The markers of an author or of a date: a class matching
    [author|byline] or [date|time|publish] whatever the case, [rel] or
    [itemprop] equal to [author], a [name] attribute matching [author], a
    property [article:published_time] or [og:published_time], or being a
    [time] element. *)
Definition marker (e : element) : bool :=
  matches (get e "class") (MatchRe author_class)
  || matches (get e "class") (MatchRe date_class)
  || matches (get e "rel") (MatchStr "author")
  || matches (get e "itemprop") (MatchStr "author")
  || matches (get e "name") (MatchRe (Re.compile ["author"] true))
  || matches (get e "property")
       (MatchAny ["article:published_time"; "og:published_time"])
  || is_named ["time"] e.

Definition marker_free (d : document) : Prop :=
  forall e, In e (descendants d) -> marker e = false.

Ltac split_marker H :=
  unfold marker in H;
  repeat match type of H with
         | (_ || _) = false =>
             let H' := fresh "Hm" in
             apply orb_false_elim in H; destruct H as [H H']
         end.

Ltac by_marker H :=
  split_marker H;
  cbn [search_tag st_name st_attrs forallb matches_str];
  cbn [is_named existsb] in *;
  rewrite ?orb_false_r in *;
  repeat match goal with
         | Hx : _ = false |- _ => rewrite Hx; clear Hx
         end;
  now rewrite ?andb_false_r.

Lemma no_match_when_free d st :
  marker_free d ->
  (forall e, marker e = false -> search_tag st e = false) ->
  hd_error (strained st (descendants d)) = None.
Proof.
  intros Hfree Hst. apply hd_filter_none. intros e He. auto.
Qed.

Lemma get_author_unfold self d :
  soup self = Some d ->
  get_author self = (try_author_patterns d author_patterns, self).
Proof. unfold get_author. now intros ->. Qed.

(** Without markers the three first patterns find nothing, and the call of
    [find] for the fourth pattern, which gives the keyword [name] next to
    the positional argument [name], is a [TypeError]. *)
Lemma try_author_patterns_free d :
  marker_free d ->
  try_author_patterns d author_patterns = Raise TypeError.
Proof.
  intros Hfree. unfold author_patterns, try_author_patterns.
  rewrite (find_bound d _ _
             {| st_name := Some (MatchAny ["a"; "span"; "div"; "p"]);
                st_attrs := [("class", MatchRe author_class)] |})
    by reflexivity.
  rewrite no_match_when_free;
    [|assumption|intros [n a cs|c s] H; [by_marker H|reflexivity]].
  cbn [bind].
  rewrite (find_bound d _ _
             {| st_name := Some (MatchAny ["a"; "span"; "div"; "p"]);
                st_attrs := [("rel", MatchStr "author")] |})
    by reflexivity.
  rewrite no_match_when_free;
    [|assumption|intros [n a cs|c s] H; [by_marker H|reflexivity]].
  cbn [bind].
  rewrite (find_bound d _ _
             {| st_name := Some (MatchAny ["a"; "span"; "div"; "p"]);
                st_attrs := [("itemprop", MatchStr "author")] |})
    by reflexivity.
  rewrite no_match_when_free;
    [|assumption|intros [n a cs|c s] H; [by_marker H|reflexivity]].
  cbn [bind].
  now rewrite (find_unbound d _ _ TypeError) by reflexivity.
Qed.

Lemma get_publish_date_free self d :
  soup self = Some d ->
  marker_free d ->
  get_publish_date self = (Ret VNone, self).
Proof.
  intros Hd Hfree. unfold get_publish_date. rewrite Hd.
  rewrite (find_bound d _ _
             {| st_name := Some (MatchStr "meta");
                st_attrs :=
                  [("property",
                    MatchAny ["article:published_time";
                              "og:published_time"])] |})
    by reflexivity.
  rewrite no_match_when_free;
    [|assumption|intros [n a cs|c s] H; [by_marker H|reflexivity]].
  cbn [bind].
  rewrite (find_bound d _ _
             {| st_name := Some (MatchStr "time"); st_attrs := [] |})
    by reflexivity.
  rewrite no_match_when_free;
    [|assumption|intros [n a cs|c s] H; [by_marker H|reflexivity]].
  cbn [bind]. unfold date_by_class.
  rewrite (find_bound d _ _
             {| st_name := Some (MatchAny ["span"; "div"; "p"]);
                st_attrs := [("class", MatchRe date_class)] |})
    by reflexivity.
  rewrite no_match_when_free;
    [|assumption|intros [n a cs|c s] H; [by_marker H|reflexivity]].
  reflexivity.
Qed.

(** C2. For every parser whose document holds no marker of an author or
    of a date, [get_publish_date] returns [None], and [get_author] does not
    return [None]: it raises a [TypeError]. Both leave the parser as it
    was. A document made of an empty [<body>] is such a document. *)
Theorem get_author_raises_without_markers (self : BaseParser) d :
  soup self = Some d ->
  marker_free d ->
  get_author self = (Raise TypeError, self) /\
  get_publish_date self = (Ret VNone, self).
Proof.
  intros Hd Hfree. split.
  - rewrite (get_author_unfold _ _ Hd). f_equal.
    now apply try_author_patterns_free.
  - now apply (get_publish_date_free self d).
Qed.

Definition body_only : BaseParser :=
  {| html := Some "<body></body>"; url := "";
     soup := Some [Tag "body" [] []] |}.

Lemma get_author_raises_without_markers_witness :
  get_author body_only = (Raise TypeError, body_only) /\
  get_publish_date body_only = (Ret VNone, body_only).
Proof.
  apply (get_author_raises_without_markers body_only [Tag "body" [] []]).
  - reflexivity.
  - intros e [<-|[]]. reflexivity.
Defined.

End AuthorAndDate.

(** ** C3: what a call leaves behind *)

Module Purity.
Import Py Bs4 Parsers Calls.

(** Every accessor but [get_clean_text] leaves the parser as it was. *)
Lemma read_only (a : accessor) (parser : BaseParser) :
  a <> GetCleanText -> snd (call a parser) = parser.
Proof.
  destruct a; intros H; try congruence; simpl;
    match goal with
    | |- snd (?f parser) = _ => unfold f; now destruct (soup parser)
    end.
Qed.

(** A tag is searched by its name and attributes, which the pruning of
    its contents keeps. *)
Lemma search_tag_decompose_below st st' e :
  search_tag st (decompose_below st' e) = search_tag st e.
Proof. now destruct e. Qed.

(** Pruning a pruned document changes nothing. *)
Lemma decompose_below_twice st e :
  decompose_below st (decompose_below st e) = decompose_below st e.
Proof.
  induction e as [c s|n a cs IH] using element_induction; [reflexivity|].
  cbn [decompose_below]. f_equal.
  induction IH as [|c cs Hc _ IHcs]; [reflexivity|].
  cbn [flat_map]. rewrite flat_map_app, IHcs. f_equal.
  destruct (search_tag st c) eqn:Hs; [reflexivity|].
  cbn [flat_map]. rewrite search_tag_decompose_below, Hs, Hc. reflexivity.
Qed.

Lemma decompose_all_twice st d :
  decompose_all st (decompose_all st d) = decompose_all st d.
Proof.
  unfold decompose_all. induction d as [|c d IH]; [reflexivity|].
  cbn [flat_map]. rewrite flat_map_app, IH. f_equal.
  destruct (search_tag st c) eqn:Hs; [reflexivity|].
  cbn [flat_map].
  now rewrite search_tag_decompose_below, Hs, decompose_below_twice.
Qed.

(** Once [get_clean_text] has been called, calling it again changes
    neither the parser nor the result. *)
Lemma get_clean_text_settles (parser : BaseParser) :
  let after := snd (get_clean_text parser) in
  snd (get_clean_text after) = after /\
  fst (get_clean_text after) = fst (get_clean_text parser).
Proof.
  unfold get_clean_text. destruct parser as [h u [d|]]; cbn; [|auto].
  rewrite decompose_all_twice. auto.
Qed.

Definition titled : BaseParser :=
  {| html := Some "<html><head><title>T</title></head><body>x</body></html>";
     url := "";
     soup := Some [Tag "html" []
                     [Tag "head" [] [Tag "title" [] [Str NavigableString "T"]];
                      Tag "body" [] [Str NavigableString "x"]]] |}.

(** C3. [get_title] does not return the same value on every call: on the
    document [<html><head><title>T</title></head><body>x</body></html>] it
    returns ["T"], and [None] once [get_clean_text] has been called, because
    [get_clean_text] removes the [head] from the tree of the parser itself,
    which holds only the [body] afterwards. *)
Theorem get_title_changes_after_get_clean_text :
  call_all [GetTitle; GetCleanText; GetTitle] titled =
  ([Ret (VStr "T"); Ret (VStr "x"); Ret VNone],
   with_soup titled
     [Tag "html" [] [Tag "body" [] [Str NavigableString "x"]]]).
Proof. reflexivity. Qed.

(** In the order of [scrape_url] (title, description, clean text, author,
    date) the date of a [meta] tag in the [head] is lost: it is found
    before [get_clean_text] and not after. *)
Definition dated : BaseParser :=
  {| html := None; url := "";
     soup := Some [Tag "html" []
                     [Tag "head" []
                        [Tag "meta" [("property",
                                      AttrStr "article:published_time");
                                     ("content", AttrStr "2024-01-01")] []];
                      Tag "body" []
                        [Tag "span" [("class", AttrList ["byline"])]
                           [Str NavigableString "Ann"]]]] |}.

Lemma publish_date_lost_in_scrape_order :
  fst (get_publish_date dated) = Ret (VStr "2024-01-01") /\
  Main.scrape_fields dated =
  Ret (VNone, VNone, VStr "Ann", VStr "Ann", VNone).
Proof. split; reflexivity. Qed.

End Purity.

(** ** C8: the optional modules of the analyzer *)

Module OptionalBackends.
Import Py TextAnalysis.

(** The import of an optional module fails: the [import] statement raises
    an [ImportError], or an exception of a class that derives from it. *)
Definition unavailable {A} (import : outcome A) : Prop :=
  exists e, import = Raise e /\ isinstance e ImportError = true.

(** X23. For every text, when TextBlob cannot be imported
    [get_sentiment] returns polarity 0 and subjectivity 0, when spaCy
    cannot be imported [extract_entities] returns the empty dictionary, and
    when textstat cannot be imported [get_readability_scores] returns the
    empty dictionary; and when none of the three can be imported,
    [analyze_content] on a text that is not empty still returns its
    results, with these values in them. *)
Theorem optional_backends_degrade (lib : libraries) (self : TextAnalyzer) :
  (unavailable (import_textblob lib) ->
   get_sentiment lib self = Ret {| polarity := 0; subjectivity := 0 |}) /\
  (unavailable (import_spacy lib) ->
   extract_entities lib self = Ret []) /\
  (unavailable (import_textstat lib) ->
   get_readability_scores lib self = Ret []) /\
  (unavailable (import_textblob lib) ->
   unavailable (import_spacy lib) ->
   unavailable (import_textstat lib) ->
   forall content_text, content_text <> "" ->
   exists r, Main.analyze_content lib content_text = Ret (Some r) /\
             Main.sentiment r = {| polarity := 0; subjectivity := 0 |} /\
             Main.entities r = [] /\
             Main.readability r = []).
Proof.
  assert (Hs : forall a, unavailable (import_textblob lib) ->
     get_sentiment lib a = Ret {| polarity := 0; subjectivity := 0 |}).
  { intros a (e & He & Hi). unfold get_sentiment. rewrite He. simpl.
    now rewrite Hi. }
  assert (He : forall a, unavailable (import_spacy lib) ->
     extract_entities lib a = Ret []).
  { intros a (e & He & Hi). unfold extract_entities. rewrite He. simpl.
    now rewrite Hi. }
  assert (Hr : forall a, unavailable (import_textstat lib) ->
     get_readability_scores lib a = Ret []).
  { intros a (e & Hr & Hi). unfold get_readability_scores. rewrite Hr.
    simpl. now rewrite Hi. }
  repeat split; auto.
  intros H1 H2 H3 content_text Hne. unfold Main.analyze_content.
  apply String.eqb_neq in Hne. rewrite Hne.
  rewrite Hs, He, Hr by assumption. cbn [bind].
  unfold Main.average_sentence_length.
  destruct (get_sentences lib (init lib content_text "english"))
    as [|s rest] eqn:Hsent.
  - cbn [bind]. eexists. repeat split.
  - unfold Main.truediv.
    destruct (Z.of_nat (length (s :: rest)) =? 0)%Z eqn:Hz.
    + apply Z.eqb_eq in Hz. simpl length in Hz. lia.
    + cbn [bind]. eexists. repeat split.
Qed.

(** A machine with NLTK alone: every optional import fails. *)
Definition nltk_only : libraries :=
  {| word_tokenize := split;
     sent_tokenize := fun s => [s];
     stopwords_fileids := ["english"];
     stopwords_words := fun _ => ["the"; "on"];
     import_textblob := Raise ModuleNotFoundError;
     import_spacy := Raise ModuleNotFoundError;
     import_textstat := Raise ModuleNotFoundError |}.

Lemma optional_backends_degrade_witness :
  get_sentiment nltk_only (init nltk_only "a fine day" "english")
  = Ret {| polarity := 0; subjectivity := 0 |} /\
  extract_entities nltk_only (init nltk_only "a fine day" "english")
  = Ret [] /\
  get_readability_scores nltk_only (init nltk_only "a fine day" "english")
  = Ret [] /\
  exists r, Main.analyze_content nltk_only "a fine day" = Ret (Some r) /\
            Main.sentiment r = {| polarity := 0; subjectivity := 0 |} /\
            Main.entities r = [] /\
            Main.readability r = [].
Proof.
  assert (U : forall A, unavailable (@Raise A ModuleNotFoundError)).
  { intros A. exists ModuleNotFoundError. split; reflexivity. }
  destruct (optional_backends_degrade nltk_only
              (init nltk_only "a fine day" "english"))
    as (H1 & H2 & H3 & H4).
  split; [apply H1, U|]. split; [apply H2, U|]. split; [apply H3, U|].
  apply H4; try apply U. discriminate.
Defined.

(** No exception of the family of [OSError] is an [ImportError]. *)
Lemma os_error_is_no_import_error e :
  isinstance e OSError = true -> isinstance e ImportError = false.
Proof. destruct e; simpl; intros H; try reflexivity; discriminate H. Qed.

(** The named-entity model is not available: spaCy is imported, but
    [spacy.load('en_core_web_sm')] raises an [OSError], before the download
    and after it. *)
Definition model_unavailable (lib : libraries) : Prop :=
  exists spacy download e,
    import_spacy lib = Ret spacy /\
    spacy_load spacy false "en_core_web_sm" = Raise OSError /\
    import_download spacy = Ret download /\
    download "en_core_web_sm" = Ret tt /\
    spacy_load spacy true "en_core_web_sm" = Raise e /\
    isinstance e OSError = true.

(** C8. When spaCy is installed and its model is not available,
    [extract_entities] does not return the empty dictionary: the [OSError]
    of the second [spacy.load] is not caught by [except ImportError] and
    reaches the caller, and [analyze_content], once the sentiment is
    computed, is aborted by it. *)
Theorem extract_entities_raises_without_model (lib : libraries) :
  model_unavailable lib ->
  exists e,
    isinstance e OSError = true /\
    (forall self, extract_entities lib self = Raise e) /\
    (forall content_text,
        content_text <> "" ->
        (exists v, get_sentiment lib (init lib content_text "english")
                   = Ret v) ->
        Main.analyze_content lib content_text = Raise e).
Proof.
  intros (spacy & download & e & H1 & H2 & H3 & H4 & H5 & H6).
  assert (He : forall self, extract_entities lib self = Raise e).
  { intros self. unfold extract_entities.
    rewrite H1. cbn [bind]. rewrite H2. cbn [try_except isinstance exn_eqb orb].
    rewrite H3. cbn [bind]. rewrite H4. cbn [bind]. rewrite H5.
    cbn [bind try_except]. now rewrite (os_error_is_no_import_error e H6). }
  exists e. split; [assumption|]. split; [assumption|].
  intros content_text Hne (v & Hv). unfold Main.analyze_content.
  apply String.eqb_neq in Hne. rewrite Hne, Hv, He. reflexivity.
Qed.

(** spaCy and TextBlob installed, the model of spaCy missing, and not
    loadable after its download either. *)
Definition model_missing : libraries :=
  {| word_tokenize := split;
     sent_tokenize := fun s => [s];
     stopwords_fileids := ["english"];
     stopwords_words := fun _ => ["the"; "on"];
     import_textblob :=
       Ret (fun _ => Ret {| polarity := 0; subjectivity := 0 |});
     import_spacy :=
       Ret {| spacy_load := fun _ _ => Raise OSError;
              import_download := Ret (fun _ => Ret tt) |};
     import_textstat := Raise ModuleNotFoundError |}.

Lemma extract_entities_raises_without_model_witness :
  extract_entities model_missing (init model_missing "a fine day" "english")
  = Raise OSError /\
  Main.analyze_content model_missing "a fine day" = Raise OSError.
Proof.
  destruct (extract_entities_raises_without_model model_missing)
    as (e & _ & H1 & H2).
  - exists {| spacy_load := fun _ _ => Raise OSError;
              import_download := Ret (fun _ => Ret tt) |},
      (fun _ => Ret tt), OSError.
    repeat split.
  - specialize (H1 (init model_missing "a fine day" "english")).
    assert (He : e = OSError).
    { assert (Hc : extract_entities model_missing
                     (init model_missing "a fine day" "english")
                   = Raise OSError) by reflexivity.
      rewrite Hc in H1. now injection H1 as <-. }
    subst e. split; [exact H1|]. apply H2; [discriminate|].
    eexists. reflexivity.
Defined.

End OptionalBackends.

(** ** C9: the average sentence length *)

Module AverageSentenceLength.
Import Py Main.










End AverageSentenceLength.

(** ** Floats: what the rounding keeps *)

Module FloatFacts.
Import Py.
Local Open Scope Q_scope.

Lemma pow2_pos e : 0 < pow2 e.
Proof. apply Qpower_0_lt. reflexivity. Qed.

Lemma pow2_plus a b : pow2 (a + b) == pow2 a * pow2 b.
Proof. apply Qpower_plus. discriminate. Qed.

Lemma pow2_minus a b : pow2 (a - b) == pow2 a / pow2 b.
Proof. apply Qpower_minus. discriminate. Qed.

Lemma pow2_Z n : (0 <= n)%Z -> inject_Z (2 ^ n) == pow2 n.
Proof. intros H. apply (Zpower_Qpower 2 n H). Qed.

Lemma pow2_le a b : (a <= b)%Z -> pow2 a <= pow2 b.
Proof. intros H. apply Qpower_le_compat_l; [assumption|discriminate]. Qed.

Lemma pow2_lt a b : (a < b)%Z -> pow2 a < pow2 b.
Proof. intros H. apply Qpower_lt_compat_l; [assumption|reflexivity]. Qed.

Lemma pow2_lt_inv a b : pow2 a < pow2 b -> (a < b)%Z.
Proof.
  intros H. apply (Qpower_lt_compat_l_inv 2); [assumption|reflexivity].
Qed.

(** *** Rounding to an integer *)

Lemma round_half_even_ge q n : inject_Z n <= q -> (n <= round_half_even q)%Z.
Proof.
  intros H. unfold round_half_even.
  assert (Hf : (n <= Qfloor q)%Z).
  { rewrite <- (Qfloor_Z n). now apply Qfloor_resp_le. }
  destruct (q - inject_Z (Qfloor q) ?= 1 # 2); [destruct (Z.even _)| |]; lia.
Qed.

Lemma round_half_even_le q n : q <= inject_Z n -> (round_half_even q <= n)%Z.
Proof.
  intros H. unfold round_half_even.
  pose proof (Qfloor_le q) as Hfl.
  assert (Hf : (Qfloor q <= n)%Z) by (rewrite Zle_Qle; lra).
  destruct (Z.eq_dec (Qfloor q) n) as [He|Hne].
  - assert (Hq : q == inject_Z (Qfloor q)) by (rewrite He in *; lra).
    assert (Hc : (q - inject_Z (Qfloor q) ?= 1 # 2) = Lt).
    { rewrite <- Qlt_alt. lra. }
    rewrite Hc. lia.
  - assert (Qfloor q + 1 <= n)%Z by lia.
    destruct (q - inject_Z (Qfloor q) ?= 1 # 2); [destruct (Z.even _)| |];
      lia.
Qed.

Lemma round_half_even_Z q n : q == inject_Z n -> round_half_even q = n.
Proof.
  intros H. apply Z.le_antisymm.
  - apply round_half_even_le. lra.
  - apply round_half_even_ge. lra.
Qed.

(** *** The binade of a positive number *)

Lemma ilog2_spec q : 0 < q -> pow2 (ilog2 q) <= q /\ q < pow2 (ilog2 q + 1).
Proof.
  intros Hq. destruct q as [n d].
  assert (Hn : (0 < n)%Z) by (unfold Qlt in Hq; simpl in Hq; lia).
  unfold ilog2. cbn [Qnum Qden].
  set (a := Z.log2 n). set (b := Z.log2 (Z.pos d)).
  pose proof (Z.log2_nonneg n) as Ha0.
  pose proof (Z.log2_nonneg (Z.pos d)) as Hb0.
  fold a in Ha0. fold b in Hb0.
  destruct (Z.log2_spec n Hn) as [Ha1 Ha2]. fold a in Ha1, Ha2.
  destruct (Z.log2_spec (Z.pos d) eq_refl) as [Hb1 Hb2]. fold b in Hb1, Hb2.
  rewrite Zle_Qle, pow2_Z in Ha1, Hb1 by lia.
  rewrite Zlt_Qlt, pow2_Z in Ha2, Hb2 by lia.
  replace (Z.succ a) with (a + 1)%Z in * by lia.
  replace (Z.succ b) with (b + 1)%Z in * by lia.
  assert (Hnd : (n # d) * inject_Z (Z.pos d) == inject_Z n).
  { rewrite (Qmake_Qdiv n d). field. discriminate. }
  pose proof (pow2_pos a). pose proof (pow2_pos b).
  pose proof (pow2_pos (a + 1)). pose proof (pow2_pos (b + 1)).
  destruct (Qle_bool (pow2 (a - b)) (n # d)) eqn:Ht.
  - apply Qle_bool_iff in Ht. split; [assumption|].
    replace (a - b + 1)%Z with ((a + 1) - b)%Z by lia.
    rewrite pow2_minus. apply Qlt_shift_div_l; [assumption|]. nra.
  - assert (Hlt : n # d < pow2 (a - b)).
    { apply Qnot_le_lt. intros Hle. apply Qle_bool_iff in Hle. congruence. }
    replace (a - b - 1 + 1)%Z with (a - b)%Z by lia.
    split; [|assumption].
    replace (a - b - 1)%Z with (a - (b + 1))%Z by lia.
    rewrite pow2_minus. apply Qle_shift_div_r; [assumption|]. nra.
Qed.

Lemma ilog2_unique q e : pow2 e <= q -> q < pow2 (e + 1) -> ilog2 q = e.
Proof.
  intros H1 H2.
  assert (Hq : 0 < q) by (pose proof (pow2_pos e); lra).
  destruct (ilog2_spec q Hq) as [H3 H4].
  assert (ilog2 q < e + 1)%Z by (apply pow2_lt_inv; lra).
  assert (e < ilog2 q + 1)%Z by (apply pow2_lt_inv; lra).
  lia.
Qed.

Lemma Qabs_nonneg_eq q : 0 <= q -> Qabs q = q.
Proof.
  destruct q as [n d]. unfold Qle. simpl. intros H.
  unfold Qabs. f_equal. apply Z.abs_eq. lia.
Qed.

Lemma ulp_exponent_le q E :
  0 < q -> q < pow2 (E + 1) -> (-1022 <= E)%Z ->
  (ulp_exponent q <= E - 52)%Z.
Proof.
  intros Hq Hlt HE. unfold ulp_exponent. rewrite Qabs_nonneg_eq by lra.
  destruct (ilog2_spec q Hq) as [H1 _].
  assert (ilog2 q < E + 1)%Z by (apply pow2_lt_inv; lra).
  lia.
Qed.

Lemma ulp_exponent_normal q :
  pow2 (-1022) <= q -> ulp_exponent q = (ilog2 q - 52)%Z.
Proof.
  intros H. pose proof (pow2_pos (-1022)) as Hp.
  unfold ulp_exponent. rewrite Qabs_nonneg_eq by lra.
  destruct (ilog2_spec q ltac:(lra)) as [_ H2].
  assert (-1022 < ilog2 q + 1)%Z by (apply pow2_lt_inv; lra).
  lia.
Qed.

(** *** Rounding to binary64 *)

(** The rounding does not cross a number that the mantissa can hold: when
    [lo] and [hi] are multiples of [2^G] and the unit in the last place
    around [q] is at most [2^G], the rounding of a [q] between them stays
    between them. *)
Lemma binary64_between q lo hi a b G :
  lo <= q -> q <= hi ->
  lo == inject_Z a * pow2 G -> hi == inject_Z b * pow2 G ->
  (ulp_exponent q <= G)%Z ->
  lo <= binary64 q /\ binary64 q <= hi.
Proof.
  intros Hlo Hhi Ha Hb HG. unfold binary64.
  set (g := ulp_exponent q) in *.
  pose proof (pow2_pos g) as Hg.
  assert (HGg : pow2 G == inject_Z (2 ^ (G - g)) * pow2 g).
  { rewrite pow2_Z by lia. rewrite <- pow2_plus.
    replace (G - g + g)%Z with G by lia. reflexivity. }
  assert (H1 : (a * 2 ^ (G - g) <= round_half_even (q / pow2 g))%Z).
  { apply round_half_even_ge. rewrite inject_Z_mult.
    apply Qle_shift_div_l; [assumption|].
    rewrite <- Qmult_assoc, <- HGg, <- Ha. assumption. }
  assert (H2 : (round_half_even (q / pow2 g) <= b * 2 ^ (G - g))%Z).
  { apply round_half_even_le. rewrite inject_Z_mult.
    apply Qle_shift_div_r; [assumption|].
    rewrite <- Qmult_assoc, <- HGg, <- Hb. assumption. }
  rewrite Zle_Qle in H1, H2. rewrite inject_Z_mult in H1, H2.
  rewrite Ha, Hb, HGg.
  split; rewrite Qmult_assoc; (apply Qmult_le_compat_r; [assumption|lra]).
Qed.

(** A normal number rounds to a mantissa of 53 bits at the exponent of
    its binade. *)
Lemma binary64_normal q :
  pow2 (-1022) <= q ->
  exists N, (2 ^ 52 <= N <= 2 ^ 53)%Z /\
            binary64 q == inject_Z N * pow2 (ilog2 q - 52).
Proof.
  intros H. pose proof (pow2_pos (-1022)) as Hp.
  unfold binary64. rewrite (ulp_exponent_normal q H).
  set (g := (ilog2 q - 52)%Z).
  destruct (ilog2_spec q ltac:(lra)) as [H1 H2].
  pose proof (pow2_pos g) as Hg.
  exists (round_half_even (q / pow2 g)). split; [|reflexivity].
  assert (E1 : pow2 (ilog2 q) == inject_Z (2 ^ 52) * pow2 g).
  { rewrite pow2_Z by lia. rewrite <- pow2_plus. unfold g.
    replace (52 + (ilog2 q - 52))%Z with (ilog2 q) by lia. reflexivity. }
  assert (E2 : pow2 (ilog2 q + 1) == inject_Z (2 ^ 53) * pow2 g).
  { rewrite pow2_Z by lia. rewrite <- pow2_plus. unfold g.
    replace (53 + (ilog2 q - 52))%Z with (ilog2 q + 1)%Z by lia.
    reflexivity. }
  split.
  - apply round_half_even_ge. apply Qle_shift_div_l; [assumption|].
    rewrite <- E1. assumption.
  - apply round_half_even_le. apply Qle_shift_div_r; [assumption|].
    rewrite <- E2. lra.
Qed.

(** A mantissa of 53 bits at an exponent in range is a binary64 number:
    the rounding leaves it as it is. *)
Lemma binary64_exact x N g :
  x == inject_Z N * pow2 g ->
  (2 ^ 52 <= N <= 2 ^ 53)%Z -> (-1074 <= g)%Z ->
  binary64 x == x.
Proof.
  intros Hx HN Hg. pose proof (pow2_pos g) as Hpg.
  assert (HN1 : inject_Z (2 ^ 52) <= inject_Z N) by (rewrite <- Zle_Qle; lia).
  assert (HN2 : inject_Z N <= inject_Z (2 ^ 53)) by (rewrite <- Zle_Qle; lia).
  assert (E1 : pow2 (52 + g) == inject_Z (2 ^ 52) * pow2 g).
  { rewrite pow2_Z by lia. now rewrite <- pow2_plus. }
  assert (E2 : pow2 (53 + g) == inject_Z (2 ^ 53) * pow2 g).
  { rewrite pow2_Z by lia. now rewrite <- pow2_plus. }
  assert (Hlow : pow2 (52 + g) <= x).
  { rewrite E1, Hx. apply Qmult_le_compat_r; [assumption|lra]. }
  assert (Hnorm : pow2 (-1022) <= x).
  { eapply Qle_trans; [|exact Hlow]. apply pow2_le. lia. }
  unfold binary64. rewrite (ulp_exponent_normal x Hnorm).
  destruct (Z.eq_dec N (2 ^ 53)) as [HeN|HneN].
  - assert (Hx2 : x == pow2 (53 + g)) by (rewrite E2, Hx, HeN; reflexivity).
    assert (Hi : ilog2 x = (53 + g)%Z).
    { apply ilog2_unique; [lra|]. rewrite Hx2. apply pow2_lt. lia. }
    rewrite Hi. replace (53 + g - 52)%Z with (1 + g)%Z by lia.
    assert (E3 : pow2 (53 + g) == inject_Z (2 ^ 52) * pow2 (1 + g)).
    { rewrite pow2_Z by lia. rewrite <- pow2_plus.
      replace (52 + (1 + g))%Z with (53 + g)%Z by lia. reflexivity. }
    pose proof (pow2_pos (1 + g)) as Hp1.
    rewrite (round_half_even_Z _ (2 ^ 52)).
    + now rewrite <- E3, Hx2.
    + rewrite Hx2, E3. field. lra.
  - assert (Hi : ilog2 x = (52 + g)%Z).
    { apply ilog2_unique; [assumption|].
      replace (52 + g + 1)%Z with (53 + g)%Z by lia.
      rewrite E2, Hx. apply Qmult_lt_compat_r; [assumption|].
      rewrite <- Zlt_Qlt. lia. }
    rewrite Hi. replace (52 + g - 52)%Z with g by lia.
    rewrite (round_half_even_Z _ N).
    + now rewrite Hx.
    + rewrite Hx. field. lra.
Qed.

(** Twice a float is computed exactly. *)
Lemma float_mul_two_exact q :
  pow2 (-1022) <= q -> float_mul (binary64 q) 2 == binary64 q * 2.
Proof.
  intros H. destruct (binary64_normal q H) as (N & HN & HE).
  pose proof (pow2_pos (-1022)) as Hp.
  destruct (ilog2_spec q ltac:(lra)) as [_ H2].
  assert (-1022 < ilog2 q + 1)%Z by (apply pow2_lt_inv; lra).
  unfold float_mul.
  apply (binary64_exact _ N (ilog2 q - 52 + 1)); [|assumption|lia].
  rewrite HE, pow2_plus. change (pow2 1) with 2. ring.
Qed.

End FloatFacts.

(** ** C1 and C7: the attempts and the sleeps of [fetch_url] *)

Module Fetching.
Import Py Config Utils.

(** The body of [fetch_url], whatever the frames left. *)
Lemma fetch_url_step w url session retry frames s :
  fetch_url w url session retry frames s =
  match attempt w url session s with
  | (Ret body, (_, _, s1)) => (Ret (VStr body), s1)
  | (Raise e, (session1, delay, s1)) =>
      if isinstance e RequestException
      then if (0 <? retry)%Z
           then match frames with
                | S frames' =>
                    fetch_url w url (Some session1) (retry - 1) frames'
                      (sleep (float_mul delay 2) (log INFO (log ERROR s1)))
                | O =>
                    (Raise RecursionError,
                     sleep (float_mul delay 2) (log INFO (log ERROR s1)))
                end
           else (Ret VNone, log ERROR s1)
      else (Raise e, s1)
  end.
Proof. destruct frames; reflexivity. Qed.

(** A request fails, for [fetch_url], when [session.get] raises a
    [RequestException] or answers with a status that [raise_for_status]
    turns into one: a client or server error, 400 to 599. *)
Definition request_fails (o : outcome Response) : bool :=
  match o with
  | Raise e => isinstance e RequestException
  | Ret r => ((400 <=? status_code r) && (status_code r <? 600))%Z
  end.

(** A failure as the specification words it: a transport error, or any
    status that is not 2xx. *)
Definition non_2xx_or_error (o : outcome Response) : bool :=
  match o with
  | Raise _ => true
  | Ret r => negb ((200 <=? status_code r) && (status_code r <? 300))%Z
  end.

(** What [fetch_url] returns when its last request was [o]. *)
Definition final (o : outcome Response) : outcome value :=
  if request_fails o then Ret VNone
  else match o with
       | Ret r => Ret (VStr (text r))
       | Raise e => Raise e
       end.

Definition session_in_use (w : world) (session : option Session) (s : state)
  : Session :=
  match session with
  | Some x => x
  | None => fst (get_session w s)
  end.

(** The request number [i], made with [session]. *)
Definition request (w : world) (url : string) (session : Session) (i : nat)
  : outcome Response :=
  session_get w i url session REQUEST_TIMEOUT.

(** The delay computed from the random number [i]:
    [DELAY_BETWEEN_REQUESTS * (0.5 + random.random())], in floats. *)
Definition jittered (w : world) (i : nat) : Q :=
  float_mul DELAY_BETWEEN_REQUESTS (float_add (1 # 2) (random_random w i)).

Definition is_get (e : event) : bool :=
  match e with Get _ _ => true | _ => false end.

Definition gets (t : list event) : nat := length (filter is_get t).

(** The events other than the log messages. *)
Definition observable (t : list event) : list event :=
  filter (fun e => match e with Log _ => false | _ => true end) t.

(** The sleeps and requests of [attempts] attempts, the first of which
    draws the random number [first]: the jittered delay, the request and,
    when another attempt follows, [delay * 2] for the same delay. *)
Fixpoint schedule (w : world) (url : string) (first attempts : nat)
  : list event :=
  match attempts with
  | 0 => []
  | S k =>
      Sleep (jittered w first) :: Get url REQUEST_TIMEOUT ::
      match k with
      | 0 => []
      | S _ =>
          Sleep (float_mul (jittered w first) 2) :: schedule w url (S first) k
      end
  end.

Lemma schedule_step w url first k :
  schedule w url first (S (S k)) =
  Sleep (jittered w first) :: Get url REQUEST_TIMEOUT ::
  Sleep (float_mul (jittered w first) 2) :: schedule w url (S first) (S k).
Proof. reflexivity. Qed.

Lemma observable_schedule w url first n :
  observable (schedule w url first n) = schedule w url first n.
Proof.
  revert first. induction n as [|k IH]; intros first; [reflexivity|].
  destruct k as [|k]; [reflexivity|].
  rewrite schedule_step. unfold observable in *.
  cbn [filter]. now rewrite IH.
Qed.

Lemma gets_schedule w url first n : gets (schedule w url first n) = n.
Proof.
  revert first. induction n as [|k IH]; intros first; [reflexivity|].
  destruct k as [|k]; [reflexivity|].
  rewrite schedule_step. unfold gets in *.
  cbn [filter is_get length]. now rewrite IH.
Qed.

Lemma gets_observable t : gets (observable t) = gets t.
Proof.
  unfold gets, observable. induction t as [|[d|u t0|l] t IH]; simpl; auto.
Qed.

(** One attempt: the session it uses, the delay it sleeps, the request it
    makes, and the state it leaves. *)
Lemma attempt_spec w url session s :
  exists s1,
    attempt w url session s =
    (bind (request w url (session_in_use w session s) (sent s))
       (fun response =>
          bind (raise_for_status response) (fun _ => Ret (text response))),
     (session_in_use w session s, jittered w (drawn s), s1)) /\
    trace s1 = trace s ++ [Sleep (jittered w (drawn s)); Log INFO;
                           Get url REQUEST_TIMEOUT] /\
    drawn s1 = S (drawn s) /\
    sent s1 = S (sent s).
Proof.
  unfold attempt, session_in_use.
  destruct session as [x|]; [|destruct (get_session w s) as [x s0] eqn:Hs].
  - eexists. split; [reflexivity|]. simpl. rewrite <- !app_assoc.
    repeat split.
  - unfold get_session, get_random_user_agent, choice in Hs.
    injection Hs as <- <-.
    eexists. split; [reflexivity|]. simpl. rewrite <- !app_assoc.
    repeat split.
Qed.

Lemma try_body_outcome (o : outcome Response) :
  match bind o (fun response =>
          bind (raise_for_status response) (fun _ => Ret (text response)))
  with
  | Ret body => request_fails o = false /\ final o = Ret (VStr body)
  | Raise e =>
      if isinstance e RequestException then request_fails o = true
      else request_fails o = false /\ final o = Raise e
  end.
Proof.
  destruct o as [r|e]; simpl.
  - unfold raise_for_status, final. simpl.
    destruct ((400 <=? status_code r) && (status_code r <? 600))%Z;
      simpl; auto.
  - unfold final. simpl. destruct (isinstance e RequestException); auto.
Qed.

(** The whole run of [fetch_url]: it makes [n] attempts, between one and
    one more than the retries, and no more than the stack admits; all but
    the last failed; it stops before the retries are spent and the stack
    is full only on a request that does not fail; unless it stopped for
    want of a frame, its sleeps and requests are those of [schedule] and
    its result is [final] of the last request. *)
Lemma fetch_url_run w url frames :
  forall retry session s,
    let sess := session_in_use w session s in
    exists n emitted,
      1 <= n <= S (Z.to_nat retry) /\
      n <= S frames /\
      trace (snd (fetch_url w url session retry frames s))
      = trace s ++ emitted /\
      sent (snd (fetch_url w url session retry frames s)) = sent s + n /\
      (forall j, j < n - 1 ->
                 request_fails (request w url sess (sent s + j)) = true) /\
      (n < S (Z.to_nat retry) -> n < S frames ->
       request_fails (request w url sess (sent s + (n - 1))) = false) /\
      (n = S (Z.to_nat retry) \/ n < S frames \/
       request_fails (request w url sess (sent s + (n - 1))) = false ->
       observable emitted = schedule w url (drawn s) n /\
       fst (fetch_url w url session retry frames s)
       = final (request w url sess (sent s + (n - 1)))).
Proof.
  induction frames as [|f IH]; intros retry session s sess;
    rewrite fetch_url_step;
    destruct (attempt_spec w url session s) as (s1 & -> & Ht & Hd & Hn);
    fold sess;
    pose proof (try_body_outcome (request w url sess (sent s))) as Hb;
    destruct (bind (request w url sess (sent s)) _) as [body|e].
  - destruct Hb as [Hf Hfin].
    exists 1, [Sleep (jittered w (drawn s)); Log INFO; Get url REQUEST_TIMEOUT].
    simpl. rewrite Nat.add_0_r, Nat.add_1_r.
    repeat split; auto; lia.
  - destruct (isinstance e RequestException).
    + destruct (0 <? retry)%Z eqn:Hz.
      * apply Z.ltb_lt in Hz.
        exists 1, [Sleep (jittered w (drawn s)); Log INFO;
                   Get url REQUEST_TIMEOUT; Log ERROR; Log INFO;
                   Sleep (float_mul (jittered w (drawn s)) 2)].
        simpl. rewrite Nat.add_0_r, Nat.add_1_r, Ht, <- !app_assoc.
        split; [lia|]. split; [lia|]. split; [reflexivity|].
        split; [assumption|]. split; [intros j Hj; lia|].
        split; [intros _ Hlt; lia|].
        intros [H|[H|H]]; [lia|lia|congruence].
      * apply Z.ltb_nlt in Hz.
        exists 1, [Sleep (jittered w (drawn s)); Log INFO;
                   Get url REQUEST_TIMEOUT; Log ERROR].
        simpl. rewrite Nat.add_0_r, Nat.add_1_r, Ht, <- app_assoc.
        unfold final. rewrite Hb.
        repeat split; auto; lia.
    + destruct Hb as [Hf Hfin].
      exists 1, [Sleep (jittered w (drawn s)); Log INFO;
                 Get url REQUEST_TIMEOUT].
      simpl. rewrite Nat.add_0_r, Nat.add_1_r.
      repeat split; auto; lia.
  - destruct Hb as [Hf Hfin].
    exists 1, [Sleep (jittered w (drawn s)); Log INFO; Get url REQUEST_TIMEOUT].
    simpl. rewrite Nat.add_0_r, Nat.add_1_r.
    repeat split; auto; lia.
  - destruct (isinstance e RequestException).
    + destruct (0 <? retry)%Z eqn:Hz.
      * apply Z.ltb_lt in Hz.
        set (s2 := sleep (float_mul (jittered w (drawn s)) 2)
                     (log INFO (log ERROR s1))).
        destruct (IH (retry - 1)%Z (Some sess) s2)
          as (n & emitted & Hn1 & Hnf & Htr & Hsent & Hall & Hstop & Hres).
        cbn [session_in_use] in Hall, Hstop, Hres.
        assert (Hs2 : trace s2 = trace s ++
                  [Sleep (jittered w (drawn s)); Log INFO;
                   Get url REQUEST_TIMEOUT; Log ERROR; Log INFO;
                   Sleep (float_mul (jittered w (drawn s)) 2)]).
        { unfold s2. simpl. rewrite Ht, <- !app_assoc. reflexivity. }
        assert (Hd2 : drawn s2 = S (drawn s)) by (unfold s2; simpl; lia).
        assert (Hn2 : sent s2 = S (sent s)) by (unfold s2; simpl; lia).
        exists (S n),
          ([Sleep (jittered w (drawn s)); Log INFO;
            Get url REQUEST_TIMEOUT; Log ERROR; Log INFO;
            Sleep (float_mul (jittered w (drawn s)) 2)] ++ emitted).
        rewrite Hn2 in Hsent, Hall, Hstop, Hres.
        rewrite Htr, Hs2, Hsent, <- app_assoc.
        split; [lia|]. split; [lia|]. split; [reflexivity|].
        split; [lia|]. split.
        { intros [|j] Hj.
          - now rewrite Nat.add_0_r.
          - replace (sent s + S j) with (S (sent s) + j) by lia.
            apply Hall. lia. }
        replace (sent s + (S n - 1)) with (S (sent s) + (n - 1)) by lia.
        split.
        { intros Hlt Hlf. apply Hstop; lia. }
        intros Hcase.
        destruct Hres as [Hobs Hfst].
        { destruct Hcase as [H|[H|H]]; [left; lia|right; left; lia|right; right; exact H]. }
        split; [|exact Hfst].
        unfold observable in *. rewrite filter_app, Hobs, Hd2.
        destruct n as [|n]; [lia|]. reflexivity.
      * apply Z.ltb_nlt in Hz.
        exists 1, [Sleep (jittered w (drawn s)); Log INFO;
                   Get url REQUEST_TIMEOUT; Log ERROR].
        simpl. rewrite Nat.add_0_r, Nat.add_1_r, Ht, <- app_assoc.
        unfold final. rewrite Hb.
        repeat split; auto; lia.
    + destruct Hb as [Hf Hfin].
      exists 1, [Sleep (jittered w (drawn s)); Log INFO;
                 Get url REQUEST_TIMEOUT].
      simpl. rewrite Nat.add_0_r, Nat.add_1_r.
      repeat split; auto; lia.
Qed.

(** A call that stays within the stack: the frames left admit all the
    retries. *)
Lemma fetch_url_run_within w url frames retry session s :
  Z.to_nat retry <= frames ->
  let sess := session_in_use w session s in
  exists n emitted,
    1 <= n <= S (Z.to_nat retry) /\
    trace (snd (fetch_url w url session retry frames s))
    = trace s ++ emitted /\
    observable emitted = schedule w url (drawn s) n /\
    sent (snd (fetch_url w url session retry frames s)) = sent s + n /\
    (forall j, j < n - 1 ->
               request_fails (request w url sess (sent s + j)) = true) /\
    (n < S (Z.to_nat retry) ->
     request_fails (request w url sess (sent s + (n - 1))) = false) /\
    fst (fetch_url w url session retry frames s)
    = final (request w url sess (sent s + (n - 1))).
Proof.
  intros Hfr sess.
  destruct (fetch_url_run w url frames retry session s)
    as (n & emitted & Hn & Hnf & Htr & Hsent & Hall & Hstop & Hres).
  fold sess in Hall, Hstop, Hres.
  destruct Hres as [Hobs Hfst].
  { destruct (Nat.eq_dec n (S (Z.to_nat retry))); [now left|right; left; lia]. }
  exists n, emitted. repeat split; try assumption; try lia.
  intros Hlt. apply Hstop; lia.
Qed.

(** C1. For every URL, whatever the session and the state of the world:
    when the four requests that a call with [retry = 3] can make all fail
    for [fetch_url] (each raises a [RequestException] or answers with an
    error status, 400 to 599) and the stack admits the three nested calls,
    [fetch_url] returns [None], raises nothing, and makes exactly 4 GET
    requests. *)
Theorem fetch_url_exhausts_retries (w : world) (url : string)
        (session : option Session) (frames : nat) (s : state) :
  3 <= frames ->
  (forall j, j < 4 ->
     request_fails
       (request w url (session_in_use w session s) (sent s + j)) = true) ->
  exists s' emitted,
    fetch_url w url session 3 frames s = (Ret VNone, s') /\
    trace s' = trace s ++ emitted /\
    gets emitted = 4 /\
    sent s' = sent s + 4.
Proof.
  intros Hfr Hfail.
  destruct (fetch_url_run_within w url frames 3%Z session s Hfr)
    as (n & emitted & Hn & Htr & Hobs & Hsent & _ & Hstop & Hres).
  change (Z.to_nat 3) with 3 in *.
  assert (n = 4) as ->.
  { destruct (Nat.eq_dec n 4) as [|Hne]; [assumption|].
    rewrite Hfail in Hstop by lia. discriminate Hstop. lia. }
  unfold final in Hres. rewrite Hfail in Hres by lia.
  exists (snd (fetch_url w url session 3 frames s)), emitted.
  split; [|split; [assumption|split; [|assumption]]].
  - rewrite <- Hres. now destruct (fetch_url w url session 3 frames s).
  - now rewrite <- gets_observable, Hobs, gets_schedule.
Qed.

(** A network on which every connection is refused. *)
Definition unreachable : world :=
  {| random_random := fun _ => (1 # 4)%Q;
     random_choice := fun i => i;
     session_get := fun _ _ _ _ => Raise ConnectionError;
     USE_PROXY := false;
     PROXY_URL := "" |}.

Lemma fetch_url_exhausts_retries_witness :
  exists s' emitted,
    fetch_url unreachable "http://example.org/" None 3 3 initial
    = (Ret VNone, s') /\
    trace s' = trace initial ++ emitted /\
    gets emitted = 4 /\
    sent s' = sent initial + 4.
Proof.
  apply (fetch_url_exhausts_retries unreachable "http://example.org/"
           None 3 initial).
  - lia.
  - intros j Hj. reflexivity.
Defined.

(** A server that answers every request with 304 Not Modified and the
    body of its cache. *)
Definition not_modified : world :=
  {| random_random := fun _ => (1 # 4)%Q;
     random_choice := fun i => i;
     session_get := fun _ _ _ _ =>
       Ret {| status_code := 304; text := "cached" |};
     USE_PROXY := false;
     PROXY_URL := "" |}.

(** A status that is not 2xx is a failure for the specification, but not
    for [fetch_url] unless it is 400 to 599: against a server that answers
    304 every time, the first request ends the call, which returns the
    body instead of [None]. *)
Lemma status_304_is_returned :
  (forall i u x t,
      non_2xx_or_error (session_get not_modified i u x t) = true) /\
  fst (fetch_url not_modified "http://example.org/" None 3 3 initial)
  = Ret (VStr "cached") /\
  gets (trace (snd (fetch_url not_modified "http://example.org/" None 3 3
                      initial))) = 1.
Proof. split; [intros; reflexivity|]. split; reflexivity. Qed.

Local Open Scope Q_scope.

Lemma delay_is_three : DELAY_BETWEEN_REQUESTS == 3.
Proof. reflexivity. Qed.

(** Every jittered delay is between one half and three halves of
    [DELAY_BETWEEN_REQUESTS], both ends included, and twice the delay is
    computed exactly. *)
Lemma jittered_bounds w i :
  0 <= random_random w i -> random_random w i < 1 ->
  DELAY_BETWEEN_REQUESTS * (1 # 2) <= jittered w i /\
  jittered w i <= DELAY_BETWEEN_REQUESTS * (3 # 2) /\
  float_mul (jittered w i) 2 == jittered w i * 2.
Proof.
  intros H0 H1. unfold jittered. set (r := random_random w i) in *.
  pose proof delay_is_three as HD.
  destruct (FloatFacts.binary64_between ((1 # 2) + r) (1 # 2) (3 # 2) 1 3 (-1))
    as [Hy1 Hy2]; try lra; try reflexivity.
  { assert (H : (ulp_exponent ((1 # 2) + r) <= 0 - 52)%Z).
    { apply FloatFacts.ulp_exponent_le; [lra| |lia].
      change (pow2 (0 + 1)) with 2. lra. }
    lia. }
  fold (float_add (1 # 2) r) in Hy1, Hy2.
  set (y := float_add (1 # 2) r) in *.
  assert (Hq1 : 3 # 2 <= DELAY_BETWEEN_REQUESTS * y) by (rewrite HD; lra).
  assert (Hq2 : DELAY_BETWEEN_REQUESTS * y <= 9 # 2) by (rewrite HD; lra).
  destruct (FloatFacts.binary64_between (DELAY_BETWEEN_REQUESTS * y)
              (3 # 2) (9 # 2) 3 9 (-1)) as [Hj1 Hj2];
    try assumption; try reflexivity.
  { assert (H : (ulp_exponent (DELAY_BETWEEN_REQUESTS * y) <= 2 - 52)%Z).
    { apply FloatFacts.ulp_exponent_le; [lra| |lia].
      change (pow2 (2 + 1)) with 8. lra. }
    lia. }
  assert (Hexact : float_mul (binary64 (DELAY_BETWEEN_REQUESTS * y)) 2
                   == binary64 (DELAY_BETWEEN_REQUESTS * y) * 2).
  { apply FloatFacts.float_mul_two_exact.
    apply Qle_trans with 1; [|lra].
    change 1 with (pow2 0). apply FloatFacts.pow2_le. lia. }
  fold (float_mul DELAY_BETWEEN_REQUESTS y) in Hj1, Hj2, Hexact.
  set (j := float_mul DELAY_BETWEEN_REQUESTS y) in *.
  split; [rewrite HD; lra|]. split; [rewrite HD; lra|]. exact Hexact.
Qed.

Local Close Scope Q_scope.

(** C7. For every call of [fetch_url] that stays within the stack, with
    random numbers in [0, 1): the call makes [n] attempts, at least one and
    at most one more than the retries; its sleeps and requests are, in this
    order, for each attempt the sleep of
    [DELAY_BETWEEN_REQUESTS * (0.5 + r)] for the number [r] drawn by this
    attempt, then the request, then, when another attempt follows, a sleep
    of [delay * 2] for the same delay; another attempt follows exactly the
    failed requests that leave a retry; every jittered delay, computed in
    floats, is at least [0.5 * DELAY_BETWEEN_REQUESTS] and at most
    [1.5 * DELAY_BETWEEN_REQUESTS], the sleep before a retry is exactly
    twice the delay, and [DELAY_BETWEEN_REQUESTS] is
    60 / [REQUESTS_PER_MINUTE]. *)
Theorem fetch_url_sleeps (w : world) (url : string)
        (session : option Session) (retry : Z) (frames : nat) (s : state) :
  (forall i, 0 <= random_random w i /\ random_random w i < 1)%Q ->
  Z.to_nat retry <= frames ->
  exists n emitted,
    1 <= n <= S (Z.to_nat retry) /\
    trace (snd (fetch_url w url session retry frames s))
    = trace s ++ emitted /\
    observable emitted = schedule w url (drawn s) n /\
    (forall j, j < n - 1 ->
       request_fails
         (request w url (session_in_use w session s) (sent s + j)) = true) /\
    (n < S (Z.to_nat retry) ->
       request_fails
         (request w url (session_in_use w session s) (sent s + (n - 1)))
       = false) /\
    (forall i,
       (DELAY_BETWEEN_REQUESTS * (1 # 2) <= jittered w i)%Q /\
       (jittered w i <= DELAY_BETWEEN_REQUESTS * (3 # 2))%Q /\
       (float_mul (jittered w i) 2 == jittered w i * 2)%Q) /\
    (DELAY_BETWEEN_REQUESTS == 60 / inject_Z REQUESTS_PER_MINUTE)%Q.
Proof.
  intros Hr Hfr.
  destruct (fetch_url_run_within w url frames retry session s Hfr)
    as (n & emitted & Hn & Htr & Hobs & _ & Hall & Hstop & _).
  exists n, emitted.
  split; [assumption|]. split; [assumption|]. split; [assumption|].
  split; [assumption|]. split; [assumption|]. split; [|reflexivity].
  intros i. apply jittered_bounds; apply Hr.
Qed.

(** A server that answers 503 twice and then serves the page. *)
Definition recovering : world :=
  {| random_random := fun i => if Nat.even i then (1 # 4)%Q else (3 # 4)%Q;
     random_choice := fun i => i;
     session_get := fun i _ _ _ =>
       if (i <? 2)%nat then Ret {| status_code := 503; text := "" |}
       else Ret {| status_code := 200; text := "<html></html>" |};
     USE_PROXY := false;
     PROXY_URL := "" |}.

Lemma fetch_url_sleeps_witness :
  exists n emitted,
    1 <= n <= 4 /\
    trace (snd (fetch_url recovering "http://example.org/" None 3 3 initial))
    = emitted /\
    observable emitted = schedule recovering "http://example.org/" 0 n /\
    (forall i,
       (DELAY_BETWEEN_REQUESTS * (1 # 2) <= jittered recovering i)%Q /\
       (jittered recovering i <= DELAY_BETWEEN_REQUESTS * (3 # 2))%Q).
Proof.
  destruct (fetch_url_sleeps recovering "http://example.org/" None 3 3
              initial)
    as (n & emitted & Hn & Htr & Hobs & _ & _ & Hb & _).
  - intros i. cbn [random_random recovering]. destruct (Nat.even i);
      unfold Qle, Qlt; simpl; lia.
  - simpl. lia.
  - exists n, emitted.
    split; [exact Hn|]. split; [exact Htr|]. split; [exact Hobs|].
    intros i. destruct (Hb i) as (H1 & H2 & _). now split.
Defined.

(** The largest float below 1, which is the largest number that
    [random.random()] returns (it returns the multiples of [2^-53] in
    [0, 1)). *)
Definition largest_random : Q := (1 - pow2 (-53))%Q.

(** A run in which the random generator returns it. *)
Definition unlucky : world :=
  {| random_random := fun _ => largest_random;
     random_choice := fun i => i;
     session_get := fun _ _ _ _ => Raise ConnectionError;
     USE_PROXY := false;
     PROXY_URL := "" |}.

(** The upper end of the interval is reached: for the largest random
    number, a float in [0, 1), the sum [0.5 + r] is rounded to 1.5 and the
    delay is [1.5 * DELAY_BETWEEN_REQUESTS], 4.5 seconds, and not less. *)
Lemma jittered_reaches_upper_end :
  (0 <= largest_random /\ largest_random < 1)%Q /\
  (binary64 largest_random == largest_random)%Q /\
  (float_add (1 # 2) largest_random == 3 # 2)%Q /\
  (jittered unlucky 0 == DELAY_BETWEEN_REQUESTS * (3 # 2))%Q /\
  ~ (jittered unlucky 0 < DELAY_BETWEEN_REQUESTS * (3 # 2))%Q.
Proof.
  split; [split; [discriminate|reflexivity]|].
  split; [reflexivity|]. split; [reflexivity|].
  assert (H : (jittered unlucky 0 == DELAY_BETWEEN_REQUESTS * (3 # 2))%Q)
    by reflexivity.
  split; [exact H|]. rewrite H. apply Qlt_irrefl.
Qed.

End Fetching.

(** ** C4: the main content *)

Module MainContent.
Import Py Bs4 Parsers SearchFacts.

(** A candidate container: an [article], [main] or [div] whose class
    matches [content|article|post|main] whatever the case. *)
Definition candidate (e : element) : bool :=
  is_named ["article"; "main"; "div"] e
  && matches (get e "class")
       (MatchRe (Re.compile ["content"; "article"; "post"; "main"] true)).

Definition is_body (e : element) : bool := is_named ["body"] e.

(** The visible text of an element: its strings, each stripped, the empty
    ones left out, joined by spaces. *)
Definition visible_text (e : element) : string := get_text " " true e.

(** The length by which [get_main_content] compares the candidates,
    [len(x.get_text(strip=True))]: the number of characters of the stripped
    strings, with nothing between them. *)
Definition text_length (e : element) : nat :=
  String.length (get_text "" true e).

Lemma candidate_strainer l :
  strained {| st_name := Some (MatchAny ["article"; "main"; "div"]);
              st_attrs := [("class", MatchRe content_class)] |} l
  = filter candidate l.
Proof.
  apply filter_ext. intros [n a cs|c s]; [|reflexivity].
  unfold candidate. simpl. now rewrite andb_true_r.
Qed.

Lemma body_strainer l :
  strained {| st_name := Some (MatchStr "body"); st_attrs := [] |} l
  = filter is_body l.
Proof.
  apply filter_ext. intros [n a cs|c s]; [|reflexivity].
  unfold is_body. simpl. now rewrite andb_true_r, orb_false_r.
Qed.

(** [max_by] returns the first of the elements of greatest key. *)
Lemma max_by_first {A} (key : A -> nat) l :
  forall best,
  exists before after,
    best :: l = before ++ max_by key best l :: after /\
    (forall x, In x before -> key x < key (max_by key best l)) /\
    (forall x, In x after -> key x <= key (max_by key best l)).
Proof.
  induction l as [|x r IH]; intros best.
  - exists [], []. repeat split; intros x [].
  - cbn [max_by]. destruct (key best <? key x) eqn:Hlt.
    + apply Nat.ltb_lt in Hlt.
      destruct (IH x) as (before & after & Heq & Hb & Ha).
      exists (best :: before), after. split; [simpl; now rewrite Heq|].
      split; [|assumption].
      intros y [<-|Hy]; [|now apply Hb].
      destruct before as [|z before]; simpl in Heq.
      * injection Heq as Hx _. rewrite <- Hx. assumption.
      * injection Heq as <- _. specialize (Hb x (or_introl eq_refl)). lia.
    + apply Nat.ltb_ge in Hlt.
      destruct (IH best) as (before & after & Heq & Hb & Ha).
      destruct before as [|z before]; simpl in Heq.
      * injection Heq as Hm Hr. exists [], (x :: after).
        split; [simpl; now rewrite <- Hm, Hr|].
        split; [intros y []|].
        intros y [<-|Hy]; [rewrite <- Hm; assumption|now apply Ha].
      * injection Heq as <- Hr. exists (best :: x :: before), after.
        split; [simpl; f_equal; f_equal; exact Hr|]. split; [|assumption].
        pose proof (Hb best (or_introl eq_refl)) as Hbest.
        intros y [<-|[<-|Hy]]; [assumption|lia|].
        apply Hb. now right.
Qed.

Lemma get_main_content_unfold self d :
  soup self = Some d ->
  fst (get_main_content self) =
  match filter candidate (descendants d) with
  | c :: rest => Ret (VStr (visible_text (max_by text_length c rest)))
  | [] =>
      match hd_error (filter is_body (descendants d)) with
      | Some b => Ret (VStr (visible_text b))
      | None => Ret VNone
      end
  end.
Proof.
  intros H. unfold get_main_content. rewrite H.
  rewrite (find_all_bound d _ _
             {| st_name := Some (MatchAny ["article"; "main"; "div"]);
                st_attrs := [("class", MatchRe content_class)] |})
    by reflexivity.
  rewrite candidate_strainer. cbn [bind fst].
  destruct (filter candidate (descendants d)) as [|c rest]; [|reflexivity].
  rewrite (find_bound d _ _
             {| st_name := Some (MatchStr "body"); st_attrs := [] |})
    by reflexivity.
  rewrite body_strainer. cbn [bind].
  now destruct (hd_error (filter is_body (descendants d))).
Qed.

(** C4. [get_main_content] leaves the parser as it was and returns [None]
    when there is no document. Otherwise, with the candidates (the
    [article], [main] and [div] elements whose class matches
    [content|article|post|main]) taken in document order: when there are
    candidates, it returns the visible text (joined by spaces) of a
    candidate [c] whose text, the stripped strings with nothing between
    them, is strictly longer than that of every candidate before it and at
    least as long as that of every candidate after it; when there is none,
    it returns the visible text of the first [body] element, and [None]
    when there is no [body] either. *)
Theorem get_main_content_largest (self : BaseParser) :
  snd (get_main_content self) = self /\
  (soup self = None -> fst (get_main_content self) = Ret VNone) /\
  forall d, soup self = Some d ->
    (filter candidate (descendants d) <> [] ->
     exists before c after,
       filter candidate (descendants d) = before ++ c :: after /\
       (forall x, In x before -> text_length x < text_length c) /\
       (forall x, In x after -> text_length x <= text_length c) /\
       fst (get_main_content self) = Ret (VStr (visible_text c))) /\
    (filter candidate (descendants d) = [] ->
     forall b, first_such is_body (descendants d) b ->
       fst (get_main_content self) = Ret (VStr (visible_text b))) /\
    (filter candidate (descendants d) = [] ->
     (forall e, In e (descendants d) -> is_body e = false) ->
     fst (get_main_content self) = Ret VNone).
Proof.
  split; [|split].
  - unfold get_main_content. now destruct (soup self).
  - intros H. unfold get_main_content. now rewrite H.
  - intros d Hd. rewrite (get_main_content_unfold _ _ Hd).
    split; [|split].
    + destruct (filter candidate (descendants d)) as [|c rest];
        [congruence|]. intros _.
      destruct (max_by_first text_length rest c)
        as (before & after & Heq & Hb & Ha).
      exists before, (max_by text_length c rest), after. auto.
    + intros -> b Hb. apply hd_filter_first in Hb. now rewrite Hb.
    + intros -> Hb. apply hd_filter_none in Hb. now rewrite Hb.
Qed.

(** Four candidates, one for each word of the pattern and each of the
    three tags, two of them of the greatest length, and a longer block
    that is no candidate. *)
Definition blocks : document :=
  [Tag "body" []
     [Tag "div" [("class", AttrList ["sidebar"])]
        [Str NavigableString "a much longer text"];
      Tag "main" [("class", AttrList ["Article"])]
        [Str NavigableString "abc"];
      Tag "div" [("class", AttrList ["page-CONTENT"])]
        [Str NavigableString " one two "];
      Tag "article" [("class", AttrList ["blog"; "post"])]
        [Str NavigableString "two one"];
      Tag "div" [("class", AttrStr "main")]
        [Str NavigableString "x"];
      Tag "p" [("class", AttrList ["content"])]
        [Str NavigableString "a paragraph is no container"]]].

Definition four_blocks : BaseParser :=
  {| html := None; url := ""; soup := Some blocks |}.

Lemma get_main_content_largest_witness :
  (exists before c after,
      filter candidate (descendants blocks) = before ++ c :: after /\
      (forall x, In x before -> text_length x < text_length c) /\
      (forall x, In x after -> text_length x <= text_length c) /\
      fst (get_main_content four_blocks) = Ret (VStr (visible_text c))) /\
  length (filter candidate (descendants blocks)) = 4 /\
  fst (get_main_content four_blocks) = Ret (VStr "one two").
Proof.
  split; [|split; reflexivity].
  destruct (get_main_content_largest four_blocks) as (_ & _ & H).
  destruct (H blocks eq_refl) as (H1 & _ & _).
  apply H1. discriminate.
Defined.

(** Three short paragraphs in the first candidate, one word in the
    second. *)
Definition paragraphs : BaseParser :=
  {| html := None; url := "";
     soup :=
       Some [Tag "body" []
               [Tag "div" [("class", AttrList ["content"])]
                  [Tag "p" [] [Str NavigableString "a"];
                   Tag "p" [] [Str NavigableString "b"];
                   Tag "p" [] [Str NavigableString "c"]];
                Tag "div" [("class", AttrList ["post"])]
                  [Str NavigableString "dddd"]]] |}.

(** The candidate whose visible text is the longest is not always the one
    returned: the spaces that join the strings of the visible text do not
    count in the comparison. The visible text of the first candidate,
    ["a b c"], has 5 characters and that of the second, ["dddd"], has 4;
    the second is returned. *)
Lemma longest_visible_text_is_not_returned :
  exists d c1 c2,
    soup paragraphs = Some d /\
    filter candidate (descendants d) = [c1; c2] /\
    visible_text c1 = "a b c" /\
    visible_text c2 = "dddd" /\
    String.length (visible_text c2) < String.length (visible_text c1) /\
    fst (get_main_content paragraphs) = Ret (VStr (visible_text c2)).
Proof.
  eexists. eexists. eexists.
  split; [reflexivity|]. split; [reflexivity|].
  split; [reflexivity|]. split; [reflexivity|].
  split; [vm_compute; lia|reflexivity].
Qed.

End MainContent.

(** ** C5: the clean text *)

Module CleanText.
Import Py Bs4 Parsers SearchFacts.

(** The six kinds of tags whose subtrees the clean text leaves out. *)
Definition left_out : list string :=
  ["script"; "style"; "head"; "header"; "footer"; "nav"].

(** The strings outside the [script], [style], [head], [header], [footer]
    and [nav] subtrees, in document order, read without pruning the
    tree. *)
Fixpoint kept_strings_of (e : element) : list string :=
  match e with
  | Str c s => if interesting c then [s] else []
  | Tag n _ cs =>
      if existsb (String.eqb n) left_out then []
      else flat_map kept_strings_of cs
  end.

Definition kept_strings (d : document) : list string :=
  flat_map kept_strings_of d.


Definition starts_nonspace (s : string) : bool :=
  match s with
  | EmptyString => true
  | String c _ => negb (isspace c)
  end.

(** Every whitespace is a space and no whitespace follows it. *)
Fixpoint loose (s : string) : bool :=
  match s with
  | EmptyString => true
  | String c s' =>
      (if isspace c then Ascii.eqb c " " && starts_nonspace s' else true)
      && loose s'
  end.

(** Every whitespace is a space, and a character that is not whitespace
    follows it. *)
Fixpoint single_spaced (s : string) : bool :=
  match s with
  | EmptyString => true
  | String c s' =>
      (if isspace c
       then Ascii.eqb c " " &&
            match s' with
            | EmptyString => false
            | String c' _ => negb (isspace c')
            end
       else true)
      && single_spaced s'
  end.

(** No whitespace at either end, and between two words one space. *)
Definition tidy (s : string) : bool := starts_nonspace s && single_spaced s.

Definition unwanted_strainer : strainer :=
  {| st_name := Some (MatchAny unwanted); st_attrs := [] |}.

(** The tags that the loop of [get_clean_text] destroys are the six. *)
Lemma search_unwanted n a cs :
  search_tag unwanted_strainer (Tag n a cs)
  = existsb (String.eqb n) left_out.
Proof. unfold search_tag. cbn -[existsb]. now rewrite andb_true_r. Qed.

Lemma search_tag_decompose_below' n a cs :
  search_tag unwanted_strainer
    (Tag n a (flat_map (fun c => if search_tag unwanted_strainer c then []
                                 else [decompose_below unwanted_strainer c])
                       cs))
  = search_tag unwanted_strainer (Tag n a cs).
Proof. reflexivity. Qed.

Definition strings_below (e : element) : list string :=
  flat_map string_of (e :: descendants_of e).

Lemma flat_map_flat_map {A B C} (f : A -> list B) (g : B -> list C) l :
  flat_map g (flat_map f l) = flat_map (fun x => flat_map g (f x)) l.
Proof.
  induction l as [|x l IH]; simpl; [reflexivity|].
  now rewrite flat_map_app, IH.
Qed.

Lemma strings_of_pruned_children cs :
  Forall (fun c => search_tag unwanted_strainer c = false ->
                   strings_below (decompose_below unwanted_strainer c)
                   = kept_strings_of c) cs ->
  flat_map string_of
    (flat_map (fun c => c :: descendants_of c)
       (flat_map (fun c => if search_tag unwanted_strainer c then []
                           else [decompose_below unwanted_strainer c]) cs))
  = flat_map kept_strings_of cs.
Proof.
  induction 1 as [|c cs Hc _ IH]; [reflexivity|].
  cbn [flat_map]. rewrite !flat_map_app, IH. f_equal.
  destruct (search_tag unwanted_strainer c) eqn:Hs.
  - destruct c as [n a cs'|k s]; [|discriminate].
    rewrite search_unwanted in Hs. cbn [kept_strings_of flat_map].
    now rewrite Hs.
  - cbn [flat_map]. rewrite app_nil_r. now apply Hc.
Qed.

Lemma strings_of_pruned e :
  search_tag unwanted_strainer e = false ->
  strings_below (decompose_below unwanted_strainer e) = kept_strings_of e.
Proof.
  induction e as [c s|n a cs IH] using element_induction; intros Hs.
  - unfold strings_below. simpl. now rewrite app_nil_r.
  - rewrite search_unwanted in Hs. unfold strings_below.
    cbn [decompose_below descendants_of flat_map string_of kept_strings_of
         app].
    rewrite Hs. now apply strings_of_pruned_children.
Qed.

Lemma strings_of_decomposed d :
  flat_map string_of (descendants (decompose_all unwanted_strainer d))
  = kept_strings d.
Proof.
  apply strings_of_pruned_children, Forall_forall.
  intros e _. apply strings_of_pruned.
Qed.



(** After the loop no unwanted tag is left in the document. *)
Lemma no_unwanted_in_pruned_children cs :
  Forall (fun c => search_tag unwanted_strainer c = false ->
                   strained unwanted_strainer
                     (decompose_below unwanted_strainer c ::
                      descendants_of (decompose_below unwanted_strainer c))
                   = []) cs ->
  strained unwanted_strainer
    (flat_map (fun c => c :: descendants_of c)
       (flat_map (fun c => if search_tag unwanted_strainer c then []
                           else [decompose_below unwanted_strainer c]) cs))
  = [].
Proof.
  unfold strained. induction 1 as [|c cs Hc _ IH]; [reflexivity|].
  cbn [flat_map]. rewrite !flat_map_app, filter_app, IH, app_nil_r.
  destruct (search_tag unwanted_strainer c) eqn:Hs; [reflexivity|].
  cbn [flat_map]. rewrite app_nil_r. now apply Hc.
Qed.

Lemma no_unwanted_in_pruned e :
  search_tag unwanted_strainer e = false ->
  strained unwanted_strainer
    (decompose_below unwanted_strainer e ::
     descendants_of (decompose_below unwanted_strainer e)) = [].
Proof.
  induction e as [c s|n a cs IH] using element_induction;
    [reflexivity|]. intros Hs. unfold strained.
  cbn [decompose_below filter descendants_of].
  rewrite search_tag_decompose_below', Hs.
  now apply no_unwanted_in_pruned_children.
Qed.

Lemma no_unwanted_left d :
  strained unwanted_strainer
    (descendants (decompose_all unwanted_strainer d)) = [].
Proof.
  apply no_unwanted_in_pruned_children, Forall_forall.
  intros e _. apply no_unwanted_in_pruned.
Qed.

(** *** Whitespace *)

Lemma sub_spaces_loose s :
  forall in_run,
    loose (Re.sub_spaces_from in_run s) = true /\
    (in_run = true ->
     starts_nonspace (Re.sub_spaces_from in_run s) = true).
Proof.
  induction s as [|c s IH]; intros in_run; [split; reflexivity|].
  cbn [Re.sub_spaces_from]. destruct (isspace c) eqn:Hc.
  - destruct in_run.
    + apply IH.
    + destruct (IH true) as [H1 H2]. split; [|discriminate].
      cbn [loose]. change (isspace " ") with true.
      cbn. now rewrite H1, H2.
  - destruct (IH false) as [H1 _]. split.
    + cbn [loose]. now rewrite Hc, H1.
    + intros _. cbn [starts_nonspace]. now rewrite Hc.
Qed.

Lemma loose_tail c s : loose (String c s) = true -> loose s = true.
Proof. cbn [loose]. intros H. now apply andb_true_iff in H. Qed.

Lemma lstrip_loose s : loose s = true -> loose (lstrip s) = true.
Proof.
  induction s as [|c s IH]; [reflexivity|]. intros H. cbn [lstrip].
  destruct (isspace c); [|assumption]. apply IH. eapply loose_tail, H.
Qed.

Lemma lstrip_starts s : starts_nonspace (lstrip s) = true.
Proof.
  induction s as [|c s IH]; [reflexivity|]. cbn [lstrip].
  destruct (isspace c) eqn:Hc; [assumption|]. cbn. now rewrite Hc.
Qed.

Lemma rstrip_head s c r :
  rstrip s = String c r -> exists t, s = String c t.
Proof.
  destruct s as [|c' s]; [discriminate|]. cbn [rstrip].
  destruct (rstrip s); [destruct (isspace c')|]; intros [= <- _];
    now eexists.
Qed.

Lemma rstrip_starts s :
  starts_nonspace s = true -> starts_nonspace (rstrip s) = true.
Proof.
  destruct s as [|c s]; [reflexivity|]. cbn [rstrip starts_nonspace].
  intros H. destruct (rstrip s); [|exact H].
  destruct (isspace c) eqn:Hc; [reflexivity|].
  cbn [starts_nonspace]. now rewrite Hc.
Qed.

Lemma rstrip_single_spaced s :
  loose s = true -> single_spaced (rstrip s) = true.
Proof.
  induction s as [|c s IH]; [reflexivity|]. intros H.
  pose proof (loose_tail _ _ H) as Ht. specialize (IH Ht).
  cbn [rstrip]. destruct (rstrip s) as [|c2 r2] eqn:Hr.
  - destruct (isspace c) eqn:Hc; [reflexivity|]. cbn. now rewrite Hc.
  - destruct (rstrip_head _ _ _ Hr) as (t & ->).
    change (single_spaced (String c (String c2 r2)))
      with ((if isspace c then Ascii.eqb c " " && negb (isspace c2)
             else true) && single_spaced (String c2 r2)).
    rewrite IH, andb_true_r.
    cbn [loose] in H. apply andb_true_iff in H. destruct H as [H _].
    exact H.
Qed.

(** What [get_clean_text] does to the text of the document makes it
    tidy, whatever the text. *)
Lemma strip_sub_spaces_tidy s : tidy (strip (Re.sub_spaces s)) = true.
Proof.
  unfold tidy, strip, Re.sub_spaces.
  destruct (sub_spaces_loose s false) as [H _].
  rewrite rstrip_starts by apply lstrip_starts.
  now rewrite rstrip_single_spaced by now apply lstrip_loose.
Qed.

(** The text of the strings [l]: each stripped, the empty ones dropped,
    joined by spaces, the whitespace collapsed and the ends trimmed. *)
Definition text_of (l : list string) : string :=
  strip (Re.sub_spaces
           (join " " (filter (fun s => negb (String.eqb s ""))
                             (map strip l)))).

Lemma get_clean_text_unfold self d :
  soup self = Some d ->
  get_clean_text self =
  (Ret (VStr (text_of (kept_strings d))),
   with_soup self (decompose_all unwanted_strainer d)).
Proof.
  intros H. unfold get_clean_text. rewrite H.
  change (bind_args (MatchAny unwanted) []) with (Ret unwanted_strainer).
  cbv iota beta. unfold doc_get_text, all_strings.
  now rewrite strings_of_decomposed.
Qed.


Definition page (script_text : string) : BaseParser :=
  {| html := None; url := "";
     soup :=
       Some [Tag "html" []
               [Tag "head" [] [Tag "title" [] [Str NavigableString "T"]];
                Tag "body" []
                  [Tag "nav" [] [Str NavigableString "menu"];
                   Tag "p" [] [Str NavigableString "  Hello,   "];
                   Tag "script" [] [Str NavigableString script_text];
                   Tag "p" [] [Str NavigableString "big  world. "]]]] |}.

(** A page with a text in each of the six kinds of subtrees. *)
Definition framed (hidden : string) : BaseParser :=
  {| html := None; url := "";
     soup :=
       Some [Tag "html" []
               [Tag "head" []
                  [Tag "title" [] [Str NavigableString hidden];
                   Tag "style" [] [Str NavigableString hidden]];
                Tag "body" []
                  [Tag "header" [] [Tag "h1" [] [Str NavigableString hidden]];
                   Tag "nav" [] [Str NavigableString hidden];
                   Tag "p" [] [Str NavigableString "  Hello,   "];
                   Tag "script" [] [Str NavigableString hidden];
                   Tag "div" []
                     [Tag "style" [] [Str NavigableString hidden];
                      Tag "p" [] [Str NavigableString "big  world. "]];
                   Tag "footer" [] [Tag "p" [] [Str NavigableString hidden]]]]]
  |}.


End CleanText.

(** ** C6: the word frequencies *)

Module WordFrequency.
Import Py TextAnalysis.

(** The number of occurrences of a word in a list of tokens. *)
Definition occurrences (w : string) (tokens : list string) : nat :=
  count_occ string_dec tokens w.

(** The tokens without repetition, each at its first occurrence. *)
Fixpoint distinct (tokens : list string) : list string :=
  match tokens with
  | [] => []
  | t :: rest => t :: filter (fun w => negb (String.eqb w t)) (distinct rest)
  end.

(** The histogram of the tokens: each word with its number of occurrences,
    in the order of the first occurrences. *)
Definition histogram (tokens : list string) : list (string * nat) :=
  map (fun w => (w, occurrences w tokens)) (distinct tokens).

Definition count_is (c : nat) (x : string * nat) : bool := snd x =? c.

(** [ranked] is a ranking of the items [items]: the same items, by
    descending count, the items of equal count in the order they have in
    [items]. *)
Definition ranking (items ranked : list (string * nat)) : Prop :=
  Permutation ranked items /\
  StronglySorted (fun x y => snd y <= snd x) ranked /\
  forall c, filter (count_is c) ranked = filter (count_is c) items.

Lemma str_in_In x l : str_in x l = true <-> In x l.
Proof.
  unfold str_in. rewrite existsb_exists. split.
  - intros (y & Hy & He). apply String.eqb_eq in He. now subst.
  - intros H. exists x. split; [assumption|apply String.eqb_refl].
Qed.

Lemma str_in_not_In x l : str_in x l = false <-> ~ In x l.
Proof.
  rewrite <- str_in_In. destruct (str_in x l); split; congruence.
Qed.

Lemma In_distinct w tokens : In w (distinct tokens) <-> In w tokens.
Proof.
  induction tokens as [|t rest IH]; [reflexivity|]. cbn [distinct In].
  rewrite filter_In, IH, negb_true_iff, String.eqb_neq.
  destruct (string_dec t w); intuition congruence.
Qed.

Lemma NoDup_filter {A} (p : A -> bool) l : NoDup l -> NoDup (filter p l).
Proof.
  induction 1 as [|x l Hx _ IH]; simpl; [constructor|].
  destruct (p x); [|assumption]. constructor; [|assumption].
  rewrite filter_In. tauto.
Qed.

Lemma NoDup_distinct tokens : NoDup (distinct tokens).
Proof.
  induction tokens as [|t rest IH]; [constructor|]. cbn [distinct].
  constructor; [|now apply NoDup_filter].
  rewrite filter_In, String.eqb_refl. intros [_ H]. discriminate.
Qed.

Lemma distinct_snoc pre t :
  distinct (pre ++ [t]) =
  if str_in t pre then distinct pre else distinct pre ++ [t].
Proof.
  induction pre as [|x p IH]; [reflexivity|].
  cbn [app distinct]. rewrite IH.
  unfold str_in. cbn [existsb]. fold (str_in t p).
  destruct (String.eqb t x) eqn:Htx; cbn [orb].
  - apply String.eqb_eq in Htx. subst x.
    destruct (str_in t p); [reflexivity|].
    rewrite filter_app. cbn [filter]. rewrite String.eqb_refl. cbn [negb].
    now rewrite app_nil_r.
  - destruct (str_in t p); [reflexivity|].
    rewrite filter_app. cbn [filter]. rewrite Htx. reflexivity.
Qed.

Lemma occurrences_snoc w pre t :
  occurrences w (pre ++ [t]) =
  if String.eqb w t then S (occurrences w pre) else occurrences w pre.
Proof.
  unfold occurrences. rewrite count_occ_app. cbn [count_occ].
  destruct (string_dec t w) as [->|Hne].
  - rewrite String.eqb_refl. lia.
  - destruct (String.eqb w t) eqn:He.
    + apply String.eqb_eq in He. congruence.
    + lia.
Qed.

(** Counting one more token in a dictionary whose keys are distinct. *)
Lemma count_one_map t (f : string -> nat) ks :
  NoDup ks ->
  count_one t (map (fun w => (w, f w)) ks) =
  if str_in t ks
  then map (fun w => (w, if String.eqb w t then S (f w) else f w)) ks
  else map (fun w => (w, f w)) ks ++ [(t, 1)].
Proof.
  induction 1 as [|k ks Hk Hnd IH]; [reflexivity|].
  cbn [map count_one]. unfold str_in. cbn [existsb]. fold (str_in t ks).
  destruct (String.eqb k t) eqn:Hkt.
  - apply String.eqb_eq in Hkt. subst k. rewrite String.eqb_refl.
    cbn [orb]. f_equal. apply map_ext_in. intros w Hw.
    destruct (String.eqb w t) eqn:He; [|reflexivity].
    apply String.eqb_eq in He. congruence.
  - rewrite String.eqb_sym, Hkt. cbn [orb]. rewrite IH.
    destruct (str_in t ks); reflexivity.
Qed.

Lemma Counter_snoc pre t : Counter (pre ++ [t]) = count_one t (Counter pre).
Proof. unfold Counter. now rewrite fold_left_app. Qed.

(** The [Counter] of the tokens is their histogram. *)
Lemma Counter_histogram tokens : Counter tokens = histogram tokens.
Proof.
  induction tokens as [|t pre IH] using rev_ind; [reflexivity|].
  rewrite Counter_snoc, IH. unfold histogram.
  rewrite count_one_map by apply NoDup_distinct.
  rewrite distinct_snoc.
  assert (Hin : str_in t (distinct pre) = str_in t pre).
  { destruct (str_in t pre) eqn:H.
    - apply str_in_In, In_distinct, str_in_In, H.
    - apply str_in_not_In. rewrite In_distinct. now apply str_in_not_In. }
  rewrite Hin. destruct (str_in t pre) eqn:Ht.
  - apply map_ext. intros w. now rewrite occurrences_snoc.
  - rewrite map_app. cbn [map]. f_equal.
    + apply map_ext_in. intros w Hw. rewrite occurrences_snoc.
      destruct (String.eqb w t) eqn:He; [|reflexivity].
      apply String.eqb_eq in He. subst w.
      apply (proj1 (In_distinct _ _)) in Hw.
      apply (proj2 (str_in_In _ _)) in Hw. congruence.
    + rewrite occurrences_snoc, String.eqb_refl.
      apply str_in_not_In in Ht. unfold occurrences.
      now rewrite (proj1 (count_occ_not_In string_dec pre t) Ht).
Qed.

(** *** The sort of [most_common] *)

Lemma insert_by_count_perm x l : Permutation (insert_by_count x l) (x :: l).
Proof.
  induction l as [|y r IH]; [reflexivity|]. cbn [insert_by_count].
  destruct (snd x <? snd y); [|reflexivity].
  rewrite IH. apply perm_swap.
Qed.

Lemma sorted_by_count_perm l : Permutation (sorted_by_count l) l.
Proof.
  induction l as [|x r IH]; [reflexivity|]. cbn [sorted_by_count].
  rewrite insert_by_count_perm. now constructor.
Qed.

Lemma insert_by_count_sorted x l :
  StronglySorted (fun a b => snd b <= snd a) l ->
  StronglySorted (fun a b => snd b <= snd a) (insert_by_count x l).
Proof.
  induction 1 as [|y r Hs IH Hy]; [repeat constructor|].
  cbn [insert_by_count]. destruct (snd x <? snd y) eqn:Hlt.
  - apply Nat.ltb_lt in Hlt. constructor; [assumption|].
    rewrite Forall_forall in *. intros z Hz.
    apply (Permutation_in _ (insert_by_count_perm x r)) in Hz.
    destruct Hz as [<-|Hz]; [lia|now apply Hy].
  - apply Nat.ltb_ge in Hlt. constructor; [now constructor|].
    constructor; [assumption|].
    rewrite Forall_forall in *. intros z Hz. specialize (Hy z Hz). lia.
Qed.

Lemma sorted_by_count_sorted l :
  StronglySorted (fun a b => snd b <= snd a) (sorted_by_count l).
Proof.
  induction l as [|x r IH]; [constructor|].
  now apply insert_by_count_sorted.
Qed.

Lemma insert_by_count_filter c x l :
  filter (count_is c) (insert_by_count x l) =
  filter (count_is c) (x :: l).
Proof.
  induction l as [|y r IH]; [reflexivity|]. cbn [insert_by_count].
  destruct (snd x <? snd y) eqn:Hlt; [|reflexivity].
  apply Nat.ltb_lt in Hlt. cbn [filter] in *. rewrite IH.
  unfold count_is.
  destruct (snd x =? c) eqn:Hx; [|reflexivity].
  apply Nat.eqb_eq in Hx.
  destruct (snd y =? c) eqn:Hy; [|reflexivity].
  apply Nat.eqb_eq in Hy. lia.
Qed.

Lemma sorted_by_count_filter c l :
  filter (count_is c) (sorted_by_count l) = filter (count_is c) l.
Proof.
  induction l as [|x r IH]; [reflexivity|]. cbn [sorted_by_count].
  rewrite insert_by_count_filter. cbn [filter]. now rewrite IH.
Qed.

Lemma sorted_by_count_ranking items : ranking items (sorted_by_count items).
Proof.
  split; [apply sorted_by_count_perm|].
  split; [apply sorted_by_count_sorted|].
  intros c. apply sorted_by_count_filter.
Qed.

(** *** The text given to the tokenizer *)

Lemma lower_char_idempotent c : lower_char (lower_char c) = lower_char c.
Proof.
  destruct c as [[] [] [] [] [] [] [] []]; reflexivity.
Qed.

Lemma char_in_lower c s :
  char_in c (lower s) = true -> lower_char c = c.
Proof.
  induction s as [|d s IH]; [discriminate|]. cbn [lower char_in].
  intros H. apply orb_true_iff in H. destruct H as [H|H]; [|now apply IH].
  apply Ascii.eqb_eq in H. subst c. apply lower_char_idempotent.
Qed.

Lemma char_in_delete_chars c deleted s :
  char_in c (delete_chars deleted s) = true ->
  char_in c deleted = false /\ char_in c s = true.
Proof.
  induction s as [|d s IH]; [discriminate|]. cbn [delete_chars char_in].
  destruct (char_in d deleted) eqn:Hd.
  - intros H. destruct (IH H) as [H1 H2]. rewrite H2.
    now rewrite orb_true_r.
  - cbn [char_in]. intros H. apply orb_true_iff in H.
    destruct H as [H|H].
    + apply Ascii.eqb_eq in H. subst d. rewrite Ascii.eqb_refl. auto.
    + destruct (IH H) as [H1 H2]. rewrite H2. now rewrite orb_true_r.
Qed.

(** The text that [get_word_frequency] gives to the tokenizer, and the
    tokens it counts. *)
Definition prepared (self : TextAnalyzer) : string :=
  delete_chars punctuation (lower (text self)).

Definition counted (lib : libraries) (self : TextAnalyzer)
           (min_word_length : Z) : list string :=
  filter (fun token => (min_word_length <=? Z.of_nat (String.length token))%Z)
    (filter (fun token => negb (str_in token (stop_words self)))
       (word_tokenize lib (prepared self))).

Definition the_cat : string := "the cat sat on the mat the cat ran".

(** X22. For every analyzer: with a [top_n] other than zero,
    [get_word_frequency] returns the [top_n] first items (none for a
    negative [top_n]) of a ranking of the histogram of the counted tokens:
    by descending count, words of equal count in the order of their first
    occurrence; the counted tokens are the tokens of the text, lowercased
    and without punctuation, that are no stopwords and have at least
    [min_word_length] characters; with no [top_n], or with [top_n = 0],
    the whole histogram is returned as a [Counter]. On the text
    ["the cat sat on the mat the cat ran"], read as its nine words, with
    exactly ["the"] and ["on"] of its words as stopwords, the result for
    [top_n = 3] and [min_word_length = 3] is
    [[("cat", 2); ("sat", 1); ("mat", 1)]]: ["cat"] comes first, with
    count 2. *)
Theorem get_word_frequency_ranks (lib : libraries) (self : TextAnalyzer) :
  (forall n min_word_length,
      n <> 0%Z ->
      exists ranked,
        get_word_frequency lib self (Some n) min_word_length
        = FreqList (firstn (Z.to_nat n) ranked) /\
        ranking (histogram (counted lib self min_word_length)) ranked) /\
  (forall top_n min_word_length,
      top_n = None \/ top_n = Some 0%Z ->
      get_word_frequency lib self top_n min_word_length
      = FreqCounter (histogram (counted lib self min_word_length))) /\
  (forall min_word_length w,
      In w (counted lib self min_word_length) <->
      In w (word_tokenize lib (prepared self)) /\
      str_in w (stop_words self) = false /\
      (min_word_length <= Z.of_nat (String.length w))%Z) /\
  (forall c,
      char_in c (prepared self) = true ->
      char_in c punctuation = false /\ lower_char c = c) /\
  (text self = the_cat ->
   word_tokenize lib the_cat
   = ["the"; "cat"; "sat"; "on"; "the"; "mat"; "the"; "cat"; "ran"] ->
   (forall w, In w ["the"; "cat"; "sat"; "on"; "mat"; "ran"] ->
              (str_in w (stop_words self) = true <->
               w = "the" \/ w = "on")) ->
   get_word_frequency lib self (Some 3%Z) 3%Z
   = FreqList [("cat", 2); ("sat", 1); ("mat", 1)]).
Proof.
  assert (Hfreq : forall min_word_length,
    Counter (counted lib self min_word_length)
    = histogram (counted lib self min_word_length))
    by (intros; apply Counter_histogram).
  split; [|split; [|split; [|split]]].
  - intros n m Hn. exists (sorted_by_count (histogram (counted lib self m))).
    split; [|apply sorted_by_count_ranking].
    unfold get_word_frequency, truthy.
    apply Z.eqb_neq in Hn. rewrite Hn. cbn [negb].
    unfold most_common. now rewrite <- Hfreq.
  - intros top_n m [->| ->]; unfold get_word_frequency; cbn [truthy];
      cbv iota; now rewrite <- Hfreq.
  - intros m w. unfold counted. rewrite !filter_In, negb_true_iff.
    rewrite Z.leb_le. tauto.
  - intros c H. unfold prepared in H.
    apply char_in_delete_chars in H. destruct H as [H1 H2].
    split; [assumption|]. eapply char_in_lower, H2.
  - intros Htext Htok Hsw.
    assert (Hyes : forall w, In w ["the"; "on"] ->
                             str_in w (stop_words self) = true).
    { intros w Hw. apply Hsw; cbn in *; intuition. }
    assert (Hno : forall w, In w ["cat"; "sat"; "mat"; "ran"] ->
                            str_in w (stop_words self) = false).
    { intros w Hw. destruct (str_in w (stop_words self)) eqn:E;
        [|reflexivity].
      apply Hsw in E; [|cbn in *; intuition].
      cbn in Hw. destruct E as [-> | ->]; intuition discriminate. }
    unfold get_word_frequency, preprocess. rewrite Htext.
    change (delete_chars punctuation (lower the_cat)) with the_cat.
    rewrite Htok. cbn [filter].
    rewrite !(Hyes "the"), !(Hyes "on") by (cbn; intuition).
    rewrite !(Hno "cat"), !(Hno "sat"), !(Hno "mat"), !(Hno "ran")
      by (cbn; intuition).
    reflexivity.
Qed.

(** NLTK with a stopword corpus of two words, on a text that its
    tokenizer splits at the spaces. *)
Definition english : libraries :=
  {| word_tokenize := split;
     sent_tokenize := fun s => [s];
     stopwords_fileids := ["english"];
     stopwords_words := fun _ => ["the"; "on"];
     import_textblob := Raise ModuleNotFoundError;
     import_spacy := Raise ModuleNotFoundError;
     import_textstat := Raise ModuleNotFoundError |}.

Lemma get_word_frequency_ranks_witness :
  get_word_frequency english (init english the_cat "english") (Some 3%Z) 3%Z
  = FreqList [("cat", 2); ("sat", 1); ("mat", 1)].
Proof.
  apply (proj2 (proj2 (proj2 (proj2
           (get_word_frequency_ranks english
              (init english the_cat "english")))))).
  - reflexivity.
  - reflexivity.
  - intros w Hw. cbn in Hw.
    repeat (destruct Hw as [<-|Hw];
            [vm_compute; intuition discriminate|]).
    contradiction.
Defined.

(** C6. With [top_n = 0], a [top_n] that is given, the result is not the
    list of the 0 first items, nor any list: [if top_n:] takes 0 for a
    [top_n] that was not given, and the whole [Counter] is returned. *)
Theorem top_zero_is_not_a_list (lib : libraries) (self : TextAnalyzer)
        (min_word_length : Z) :
  get_word_frequency lib self (Some 0%Z) min_word_length
  = FreqCounter (histogram (counted lib self min_word_length)) /\
  get_word_frequency lib self (Some 0%Z) min_word_length
  = get_word_frequency lib self None min_word_length /\
  ~ (exists ranked,
        get_word_frequency lib self (Some 0%Z) min_word_length
        = FreqList (firstn (Z.to_nat 0) ranked)) /\
  get_word_frequency english (init english the_cat "english") (Some 0%Z) 3%Z
  = FreqCounter [("cat", 2); ("sat", 1); ("mat", 1); ("ran", 1)].
Proof.
  assert (H : get_word_frequency lib self (Some 0%Z) min_word_length
              = FreqCounter (histogram (counted lib self min_word_length))).
  { unfold get_word_frequency. cbn [truthy]. cbv iota.
    now rewrite <- Counter_histogram. }
  split; [exact H|]. split; [reflexivity|]. split; [|reflexivity].
  rewrite H. intros (ranked & Hr). discriminate Hr.
Qed.

End WordFrequency.

(** ** The embedding on small inputs *)

Module Examples.
Import Py Bs4 Parsers Calls.

Example strip_ex : strip "  a b  " = "a b".
Proof. reflexivity. Qed.

Example split_ex : split "  ab c   d " = ["ab"; "c"; "d"].
Proof. reflexivity. Qed.

Example sub_spaces_ex : Re.sub_spaces " a   b  " = " a b ".
Proof. reflexivity. Qed.

Example lower_ex : lower "The CAT." = "the cat.".
Proof. reflexivity. Qed.

Example delete_chars_ex : delete_chars punctuation "don't, stop!" = "dont stop".
Proof. reflexivity. Qed.

Example search_ex :
  Re.search content_class "Main-Content" = true /\
  Re.search content_class "sidebar" = false.
Proof. split; reflexivity. Qed.

Example isinstance_ex :
  isinstance HTTPError RequestException = true /\
  isinstance ModuleNotFoundError ImportError = true /\
  isinstance TypeError RequestException = false.
Proof. repeat split. Qed.

Definition article : BaseParser :=
  {| html := None; url := "";
     soup :=
       Some [Tag "html" []
               [Tag "head" []
                  [Tag "title" [] [Str NavigableString " News "];
                   Tag "meta" [("name", AttrStr "description");
                               ("content", AttrStr " daily news ")] []];
                Tag "body" []
                  [Tag "header" [] [Str NavigableString "Site"];
                   Tag "div" [("class", AttrList ["article-body"])]
                     [Tag "span" [("class", AttrList ["byline"])]
                        [Str NavigableString " Ann "];
                      Tag "a" [("href", AttrStr "/next")]
                        [Str NavigableString "next"];
                      Str Comment "hidden";
                      Str NavigableString " Body  text. "]]]] |}.

Example accessors_ex :
  fst (call_all [GetTitle; GetMetaDescription; GetMainContent;
                 GetAllLinks; GetImages; GetAuthor; GetPublishDate;
                 GetCleanText] article)
  = [Ret (VStr "News"); Ret (VStr "daily news");
     Ret (VStr "Ann next Body  text."); Ret (VList [VStr "/next"]);
     Ret (VList []); Ret (VStr "Ann"); Ret VNone;
     Ret (VStr "Ann next Body text.")].
Proof. reflexivity. Qed.

Example fourth_pattern_ex :
  find [Tag "body" [] []] (MatchAny ["a"; "span"; "div"; "p"])
       [("name", KwMatch (MatchRe (Re.compile ["author"] true)))]
  = Raise TypeError.
Proof. reflexivity. Qed.

Example most_common_ex :
  TextAnalysis.most_common 3
    (TextAnalysis.Counter ["b"; "a"; "b"; "c"; "a"; "d"; "c"; "c"])
  = [("c", 3); ("b", 2); ("a", 2)].
Proof. reflexivity. Qed.

Example fetch_url_ex :
  let (result, s) :=
    Utils.fetch_url Fetching.recovering "u" None 3 10 Utils.initial in
  result = Ret (VStr "<html></html>") /\
  Fetching.gets (Utils.trace s) = 3 /\
  Utils.sent s = 3.
Proof. vm_compute. repeat split. Qed.

(** With room for one nested call only, the second retry is a
    [RecursionError]. *)
Example fetch_url_stack_ex :
  fst (Utils.fetch_url Fetching.unreachable "u" None 3 1 Utils.initial)
  = Raise RecursionError.
Proof. vm_compute. reflexivity. Qed.

(** [0.1 + 0.2] is [0.30000000000000004]. *)
Example float_add_ex :
  (float_add (binary64 (1 # 10)) (binary64 (2 # 10))
   == 5404319552844596 # 18014398509481984)%Q /\
  ~ (float_add (binary64 (1 # 10)) (binary64 (2 # 10)) == binary64 (3 # 10))%Q.
Proof. vm_compute. split; [reflexivity|discriminate]. Qed.

(** The rational that a finite number of [SpecFloat], the specification
    of IEEE 754 arithmetic in the standard library, stands for. *)
Definition SF2Q (f : spec_float) : Q :=
  match f with
  | S754_finite s m e =>
      ((if s then -1 else 1) * inject_Z (Z.pos m) * pow2 e)%Q
  | _ => 0%Q
  end.

(** [binary64] against the binary64 operations of [SpecFloat] (53 bits,
    exponents below 1024), on the sums and products above and on those of
    the longest delay of [fetch_url]. *)
Example ieee_754_ex :
  let add := SFadd 53 1024 in
  let mul := SFmul 53 1024 in
  let half := S754_finite false 4503599627370496 (-53) in
  let r := S754_finite false 9007199254740991 (-53) in
  let three := S754_finite false 6755399441055744 (-51) in
  let tenth := S754_finite false 7205759403792794 (-56) in
  let fifth := S754_finite false 7205759403792794 (-55) in
  (SF2Q r == Fetching.largest_random)%Q /\
  (SF2Q tenth == binary64 (1 # 10))%Q /\
  (SF2Q fifth == binary64 (2 # 10))%Q /\
  (SF2Q (add tenth fifth)
   == float_add (binary64 (1 # 10)) (binary64 (2 # 10)))%Q /\
  (SF2Q (add half r) == float_add (1 # 2) Fetching.largest_random)%Q /\
  (SF2Q (mul three (add half r))
   == float_mul 3 (float_add (1 # 2) Fetching.largest_random))%Q /\
  (SF2Q (mul (mul three (add half r)) (S754_finite false 1 1))
   == float_mul (float_mul 3 (float_add (1 # 2) Fetching.largest_random)) 2)%Q.
Proof. vm_compute. repeat split. Qed.

Example average_ex :
  Main.average_sentence_length ["a b c"; "d"] = Ret (4 / 2)%Q.
Proof. reflexivity. Qed.

End Examples.

(* ===================================================================== *)
(** * Further properties of the parsers *)
(* ===================================================================== *)

Module TitleAndLinks.
Import Py Bs4 Parsers SearchFacts.

Definition is_title (e : element) : bool := is_named ["title"] e.

(** An anchor with an [href], an image with a [src]. *)
Definition is_link (e : element) : bool :=
  is_named ["a"] e && has_attr e "href".

Definition is_image (e : element) : bool :=
  is_named ["img"] e && has_attr e "src".

Fixpoint ends_nonspace (s : string) : bool :=
  match s with
  | EmptyString => true
  | String c EmptyString => negb (isspace c)
  | String _ s' => ends_nonspace s'
  end.

Lemma rstrip_ends s : ends_nonspace (rstrip s) = true.
Proof.
  induction s as [|c s IH]; [reflexivity|]. cbn [rstrip].
  destruct (rstrip s) as [|c2 r2] eqn:Hr.
  - destruct (isspace c) eqn:Hc; [reflexivity|]. cbn. now rewrite Hc.
  - exact IH.
Qed.

Lemma strip_ends s :
  CleanText.starts_nonspace (strip s) = true /\
  ends_nonspace (strip s) = true.
Proof.
  unfold strip. split; [|apply rstrip_ends].
  apply CleanText.rstrip_starts, CleanText.lstrip_starts.
Qed.

Lemma title_strainer l :
  strained {| st_name := Some (MatchStr "title"); st_attrs := [] |} l
  = filter is_title l.
Proof.
  apply filter_ext. intros [n a cs|c s]; [|reflexivity].
  unfold is_title. simpl. now rewrite andb_true_r, orb_false_r.
Qed.

Lemma matches_true v : matches v MatchTrue = match v with
                                             | Some _ => true
                                             | None => false
                                             end.
Proof.
  destruct v as [[s|l]|]; try reflexivity. simpl. apply orb_true_r.
Qed.

Lemma link_strainer l :
  strained {| st_name := Some (MatchStr "a");
              st_attrs := [("href", MatchTrue)] |} l
  = filter is_link l.
Proof.
  apply filter_ext. intros [n a cs|c s]; [|reflexivity].
  unfold is_link, has_attr. cbn [search_tag st_name st_attrs forallb].
  rewrite matches_true, andb_true_r. simpl. now rewrite orb_false_r.
Qed.

Lemma image_strainer l :
  strained {| st_name := Some (MatchStr "img");
              st_attrs := [("src", MatchTrue)] |} l
  = filter is_image l.
Proof.
  apply filter_ext. intros [n a cs|c s]; [|reflexivity].
  unfold is_image, has_attr. cbn [search_tag st_name st_attrs forallb].
  rewrite matches_true, andb_true_r. simpl. now rewrite orb_false_r.
Qed.

Lemma get_title_unfold self d :
  soup self = Some d ->
  fst (get_title self) =
  match hd_error (filter is_title (descendants d)) with
  | Some t => Ret (VStr (strip (text t)))
  | None => Ret VNone
  end.
Proof.
  intros H. unfold get_title. rewrite H.
  rewrite (find_bound d _ _
             {| st_name := Some (MatchStr "title"); st_attrs := [] |})
    by reflexivity.
  rewrite title_strainer. cbn [bind fst].
  now destruct (hd_error (filter is_title (descendants d))).
Qed.

(** X1. [get_title] never raises and leaves the parser as it was. It
    returns [None] exactly when there is no document or no [title] tag in
    it. Otherwise it returns the text of the first [title] tag in document
    order, stripped: a string without whitespace at either end. *)
Theorem get_title_first_stripped (self : BaseParser) :
  snd (get_title self) = self /\
  (fst (get_title self) = Ret VNone <->
   soup self = None \/
   exists d, soup self = Some d /\
             forall e, In e (descendants d) -> is_title e = false) /\
  (forall d t,
      soup self = Some d ->
      first_such is_title (descendants d) t ->
      fst (get_title self) = Ret (VStr (strip (text t))) /\
      CleanText.starts_nonspace (strip (text t)) = true /\
      ends_nonspace (strip (text t)) = true).
Proof.
  split; [|split].
  - unfold get_title. now destruct (soup self).
  - destruct (soup self) as [d|] eqn:Hd.
    + rewrite (get_title_unfold _ _ Hd). split.
      * intros H. right. exists d. split; [reflexivity|].
        apply hd_filter_none.
        now destruct (hd_error (filter is_title (descendants d))).
      * intros [H|(d' & [= <-] & H)]; [discriminate|].
        apply hd_filter_none in H. now rewrite H.
    + unfold get_title. rewrite Hd. simpl. split; auto.
  - intros d t Hd Ht. rewrite (get_title_unfold _ _ Hd).
    apply hd_filter_first in Ht. rewrite Ht.
    split; [reflexivity|apply strip_ends].
Qed.

Definition two_titles : BaseParser :=
  {| html := None; url := "";
     soup := Some [Tag "head" []
                     [Tag "title" [] [Str NavigableString " First  page "]];
                   Tag "svg" [] [Tag "title" [] [Str NavigableString "icon"]]]
  |}.

Lemma get_title_first_stripped_witness :
  fst (get_title two_titles) = Ret (VStr "First  page").
Proof.
  apply (proj2 (proj2 (get_title_first_stripped two_titles))
           [Tag "head" []
              [Tag "title" [] [Str NavigableString " First  page "]];
            Tag "svg" [] [Tag "title" [] [Str NavigableString "icon"]]]
           (Tag "title" [] [Str NavigableString " First  page "])).
  - reflexivity.
  - exists [Tag "head" []
              [Tag "title" [] [Str NavigableString " First  page "]]],
      [Str NavigableString " First  page "; Tag "svg" [] [Tag "title" [] [Str NavigableString "icon"]];
       Tag "title" [] [Str NavigableString "icon"];
       Str NavigableString "icon"].
    repeat split. intros e [<-|[]]. reflexivity.
Defined.

Lemma value_of_get_some e key :
  has_attr e key = true -> value_of_get (get e key) <> VNone.
Proof.
  unfold has_attr. destruct (get e key) as [[s|l]|]; try discriminate;
    intros _; discriminate.
Qed.

(** X2. With a document, [get_all_links] returns one entry for each [a]
    tag that has an [href], in document order, the entry being the value of
    the [href]; anchors without [href] are left out and no entry is [None].
    [get_images] does the same with the [src] of the [img] tags. Neither
    raises nor changes the parser. *)
Theorem links_and_images_in_order (self : BaseParser) d :
  soup self = Some d ->
  get_all_links self =
  (Ret (VList (map (fun a => value_of_get (get a "href"))
                   (filter is_link (descendants d)))), self) /\
  get_images self =
  (Ret (VList (map (fun i => value_of_get (get i "src"))
                   (filter is_image (descendants d)))), self) /\
  ~ In VNone (map (fun a => value_of_get (get a "href"))
                  (filter is_link (descendants d))) /\
  ~ In VNone (map (fun i => value_of_get (get i "src"))
                  (filter is_image (descendants d))).
Proof.
  intros Hd. split; [|split; [|split]].
  - unfold get_all_links. rewrite Hd.
    rewrite (find_all_bound d _ _
               {| st_name := Some (MatchStr "a");
                  st_attrs := [("href", MatchTrue)] |}) by reflexivity.
    now rewrite link_strainer.
  - unfold get_images. rewrite Hd.
    rewrite (find_all_bound d _ _
               {| st_name := Some (MatchStr "img");
                  st_attrs := [("src", MatchTrue)] |}) by reflexivity.
    now rewrite image_strainer.
  - rewrite in_map_iff. intros (a & Ha & Hin).
    apply filter_In in Hin. destruct Hin as [_ Hin].
    unfold is_link in Hin. apply andb_true_iff in Hin.
    now apply (value_of_get_some a "href").
  - rewrite in_map_iff. intros (a & Ha & Hin).
    apply filter_In in Hin. destruct Hin as [_ Hin].
    unfold is_image in Hin. apply andb_true_iff in Hin.
    now apply (value_of_get_some a "src").
Qed.

Definition gallery : BaseParser :=
  {| html := None; url := "";
     soup := Some [Tag "a" [("href", AttrStr "/one")] [];
                   Tag "a" [("name", AttrStr "top")] [];
                   Tag "p" []
                     [Tag "img" [("src", AttrStr "a.png")] [];
                      Tag "a" [("href", AttrStr "")] [];
                      Tag "img" [("alt", AttrStr "none")] []]] |}.

Lemma links_and_images_in_order_witness :
  get_all_links gallery = (Ret (VList [VStr "/one"; VStr ""]), gallery) /\
  get_images gallery = (Ret (VList [VStr "a.png"]), gallery).
Proof.
  destruct (links_and_images_in_order gallery _ eq_refl) as (H1 & H2 & _).
  split; [exact H1|exact H2].
Defined.

End TitleAndLinks.

Module AuthorDateOrder.
Import Py Bs4 Parsers SearchFacts.

Definition author_names : list string := ["a"; "span"; "div"; "p"].

(** The tags that the three first patterns of [get_author] find. *)
Definition by_class (e : element) : bool :=
  is_named author_names e
  && matches (get e "class") (MatchRe AuthorAndDate.author_class).

Definition by_rel (e : element) : bool :=
  is_named author_names e && matches (get e "rel") (MatchStr "author").

Definition by_itemprop (e : element) : bool :=
  is_named author_names e && matches (get e "itemprop") (MatchStr "author").

Definition none_of (p : element -> bool) (d : document) : Prop :=
  forall e, In e (descendants d) -> p e = false.

Lemma strainer_one_attr names attr m l :
  strained {| st_name := Some (MatchAny names); st_attrs := [(attr, m)] |} l
  = filter (fun e => is_named names e && matches (get e attr) m) l.
Proof.
  apply filter_ext. intros [n a cs|c s]; [|reflexivity].
  simpl. now rewrite andb_true_r.
Qed.

Lemma find_by_attr d names attr m kwargs :
  bind_args (MatchAny names) kwargs
  = Ret {| st_name := Some (MatchAny names); st_attrs := [(attr, m)] |} ->
  find d (MatchAny names) kwargs =
  Ret (hd_error
         (filter (fun e => is_named names e && matches (get e attr) m)
                 (descendants d))).
Proof.
  intros H. rewrite (find_bound _ _ _ _ H). now rewrite strainer_one_attr.
Qed.

(** [get_author] pattern by pattern. *)
Lemma get_author_cases self d :
  soup self = Some d ->
  fst (get_author self) =
  match hd_error (filter by_class (descendants d)) with
  | Some t => Ret (VStr (get_text "" true t))
  | None =>
      match hd_error (filter by_rel (descendants d)) with
      | Some t => Ret (VStr (get_text "" true t))
      | None =>
          match hd_error (filter by_itemprop (descendants d)) with
          | Some t => Ret (VStr (get_text "" true t))
          | None => Raise TypeError
          end
      end
  end.
Proof.
  intros Hd. rewrite (AuthorAndDate.get_author_unfold _ _ Hd). cbn [fst].
  unfold author_patterns, try_author_patterns.
  unfold by_class, by_rel, by_itemprop, author_names.
  rewrite (find_by_attr d _ "class" (MatchRe AuthorAndDate.author_class))
    by reflexivity.
  cbn [bind].
  destruct (hd_error (filter _ (descendants d))); [reflexivity|].
  rewrite (find_by_attr d _ "rel" (MatchStr "author")) by reflexivity.
  cbn [bind].
  destruct (hd_error (filter _ (descendants d))); [reflexivity|].
  rewrite (find_by_attr d _ "itemprop" (MatchStr "author")) by reflexivity.
  cbn [bind].
  destruct (hd_error (filter _ (descendants d))); [reflexivity|].
  now rewrite (find_unbound d _ _ TypeError) by reflexivity.
Qed.

(** X3. With a document, [get_author] tries the class, then [rel], then
    [itemprop], whatever the order of the tags in the document: it returns
    the stripped text of the first tag (an [a], [span], [div] or [p]) with
    a class matching [author|byline]; when there is none, of the first
    with [rel="author"]; when there is none either, of the first with
    [itemprop="author"]. It raises a [TypeError] exactly when none of the
    three finds a tag, and it never returns [None]. *)
Theorem get_author_by_priority (self : BaseParser) d :
  soup self = Some d ->
  (forall t, first_such by_class (descendants d) t ->
             fst (get_author self) = Ret (VStr (get_text "" true t))) /\
  (none_of by_class d ->
   forall t, first_such by_rel (descendants d) t ->
             fst (get_author self) = Ret (VStr (get_text "" true t))) /\
  (none_of by_class d -> none_of by_rel d ->
   forall t, first_such by_itemprop (descendants d) t ->
             fst (get_author self) = Ret (VStr (get_text "" true t))) /\
  (fst (get_author self) = Raise TypeError <->
   none_of by_class d /\ none_of by_rel d /\ none_of by_itemprop d) /\
  fst (get_author self) <> Ret VNone.
Proof.
  intros Hd. rewrite (get_author_cases _ _ Hd).
  split; [|split; [|split; [|split]]].
  - intros t Ht. apply hd_filter_first in Ht. now rewrite Ht.
  - intros H1 t Ht. apply hd_filter_none in H1.
    apply hd_filter_first in Ht. now rewrite H1, Ht.
  - intros H1 H2 t Ht. apply hd_filter_none in H1, H2.
    apply hd_filter_first in Ht. now rewrite H1, H2, Ht.
  - unfold none_of. rewrite <- !hd_filter_none.
    destruct (hd_error (filter by_class (descendants d)));
      [split; [discriminate|intros (H & _); discriminate]|].
    destruct (hd_error (filter by_rel (descendants d)));
      [split; [discriminate|intros (_ & H & _); discriminate]|].
    destruct (hd_error (filter by_itemprop (descendants d)));
      [split; [discriminate|intros (_ & _ & H); discriminate]|].
    split; auto.
  - destruct (hd_error (filter by_class (descendants d)));
      [discriminate|].
    destruct (hd_error (filter by_rel (descendants d)));
      [discriminate|].
    destruct (hd_error (filter by_itemprop (descendants d)));
      discriminate.
Qed.

(** A link to the author comes before the byline. *)
Definition signed : BaseParser :=
  {| html := None; url := "";
     soup := Some [Tag "a" [("rel", AttrList ["author"])]
                     [Str NavigableString "profile"];
                   Tag "p" [("class", AttrList ["post-Byline"])]
                     [Str NavigableString " By "; Str NavigableString "Ann "]]
  |}.

Lemma get_author_by_priority_witness :
  fst (get_author signed) = Ret (VStr "ByAnn").
Proof.
  destruct (get_author_by_priority signed _ eq_refl) as (H & _).
  apply (H (Tag "p" [("class", AttrList ["post-Byline"])]
              [Str NavigableString " By "; Str NavigableString "Ann "])).
  exists [Tag "a" [("rel", AttrList ["author"])]
            [Str NavigableString "profile"];
          Str NavigableString "profile"],
    [Str NavigableString " By "; Str NavigableString "Ann "].
  repeat split. intros e [<-|[<-|[]]]; reflexivity.
Defined.

(** The tags that the three steps of [get_publish_date] look for. *)
Definition is_dated_meta (e : element) : bool :=
  is_named ["meta"] e
  && matches (get e "property")
       (MatchAny ["article:published_time"; "og:published_time"]).

Definition is_time (e : element) : bool := is_named ["time"] e.

Definition by_date_class (e : element) : bool :=
  is_named ["span"; "div"; "p"] e
  && matches (get e "class")
       (MatchRe (Re.compile ["date"; "time"; "publish"] true)).

Lemma dated_meta_strainer l :
  strained {| st_name := Some (MatchStr "meta");
              st_attrs := [("property",
                            MatchAny ["article:published_time";
                                      "og:published_time"])] |} l
  = filter is_dated_meta l.
Proof.
  apply filter_ext. intros [n a cs|c s]; [|reflexivity].
  unfold is_dated_meta. cbn -[matches]. now rewrite andb_true_r, orb_false_r.
Qed.

Lemma time_strainer l :
  strained {| st_name := Some (MatchStr "time"); st_attrs := [] |} l
  = filter is_time l.
Proof.
  apply filter_ext. intros [n a cs|c s]; [|reflexivity].
  unfold is_time. simpl. now rewrite andb_true_r, orb_false_r.
Qed.

Lemma date_by_class_cases d :
  date_by_class d =
  match hd_error (filter by_date_class (descendants d)) with
  | Some t => Ret (VStr (get_text "" true t))
  | None => Ret VNone
  end.
Proof.
  unfold date_by_class, by_date_class.
  rewrite (find_by_attr d _ "class" (MatchRe date_class)) by reflexivity.
  cbn [bind]. unfold date_class.
  now destruct (hd_error (filter _ (descendants d))).
Qed.

Lemma get_publish_date_cases self d :
  soup self = Some d ->
  fst (get_publish_date self) =
  match hd_error (filter is_dated_meta (descendants d)) with
  | Some m => Ret (value_of_get (get m "content"))
  | None =>
      match hd_error (filter is_time (descendants d)) with
      | Some t =>
          if has_attr t "datetime"
          then Ret (value_of_get (get t "datetime"))
          else date_by_class d
      | None => date_by_class d
      end
  end.
Proof.
  intros Hd. unfold get_publish_date. rewrite Hd.
  rewrite (find_bound d _ _
             {| st_name := Some (MatchStr "meta");
                st_attrs := [("property",
                              MatchAny ["article:published_time";
                                        "og:published_time"])] |})
    by reflexivity.
  rewrite dated_meta_strainer. cbn [bind fst].
  destruct (hd_error (filter is_dated_meta (descendants d)));
    [reflexivity|].
  rewrite (find_bound d _ _
             {| st_name := Some (MatchStr "time"); st_attrs := [] |})
    by reflexivity.
  rewrite time_strainer. cbn [bind].
  now destruct (hd_error (filter is_time (descendants d))).
Qed.

(** X4. With a document, [get_publish_date] never raises, and:
    - when there is a [meta] tag whose property is
      [article:published_time] or [og:published_time], the result is the
      [content] of the first one, and [None] when it has no [content],
      whatever [time] tags and date classes the document has;
    - otherwise, when the first [time] tag has a [datetime], the result is
      this [datetime];
    - otherwise (no [time] tag, or the first one without [datetime]) the
      result is the stripped text of the first [span], [div] or [p] whose
      class matches [date|time|publish], and [None] when there is none. *)
Theorem get_publish_date_by_priority (self : BaseParser) d :
  soup self = Some d ->
  (forall m, first_such is_dated_meta (descendants d) m ->
             fst (get_publish_date self)
             = Ret (value_of_get (get m "content"))) /\
  (none_of is_dated_meta d ->
   forall t, first_such is_time (descendants d) t ->
             has_attr t "datetime" = true ->
             fst (get_publish_date self)
             = Ret (value_of_get (get t "datetime"))) /\
  (none_of is_dated_meta d ->
   (none_of is_time d \/
    exists t, first_such is_time (descendants d) t /\
              has_attr t "datetime" = false) ->
   (forall c, first_such by_date_class (descendants d) c ->
              fst (get_publish_date self)
              = Ret (VStr (get_text "" true c))) /\
   (none_of by_date_class d -> fst (get_publish_date self) = Ret VNone)) /\
  (exists v, fst (get_publish_date self) = Ret v).
Proof.
  intros Hd. rewrite (get_publish_date_cases _ _ Hd).
  rewrite date_by_class_cases.
  split; [|split; [|split]].
  - intros m Hm. apply hd_filter_first in Hm. now rewrite Hm.
  - intros H1 t Ht Ha. apply hd_filter_none in H1.
    apply hd_filter_first in Ht. now rewrite H1, Ht, Ha.
  - intros H1 H2. apply hd_filter_none in H1. rewrite H1.
    assert (Hrest :
      match hd_error (filter is_time (descendants d)) with
      | Some t =>
          if has_attr t "datetime"
          then Ret (value_of_get (get t "datetime"))
          else match hd_error (filter by_date_class (descendants d)) with
               | Some t0 => Ret (VStr (get_text "" true t0))
               | None => Ret VNone
               end
      | None => match hd_error (filter by_date_class (descendants d)) with
                | Some t0 => Ret (VStr (get_text "" true t0))
                | None => Ret VNone
                end
      end
      = match hd_error (filter by_date_class (descendants d)) with
        | Some t0 => Ret (VStr (get_text "" true t0))
        | None => Ret VNone
        end).
    { destruct H2 as [H2|(t & Ht & Ha)].
      - apply hd_filter_none in H2. now rewrite H2.
      - apply hd_filter_first in Ht. now rewrite Ht, Ha. }
    rewrite Hrest. split.
    + intros c Hc. apply hd_filter_first in Hc. now rewrite Hc.
    + intros H3. apply hd_filter_none in H3. now rewrite H3.
  - destruct (hd_error (filter is_dated_meta (descendants d)));
      [eexists; reflexivity|].
    destruct (hd_error (filter is_time (descendants d))) as [t|].
    + destruct (has_attr t "datetime"); [eexists; reflexivity|].
      destruct (hd_error (filter by_date_class (descendants d)));
        eexists; reflexivity.
    + destruct (hd_error (filter by_date_class (descendants d)));
        eexists; reflexivity.
Qed.

(** A [meta] tag without [content] hides the [time] tag. *)
Definition masked : BaseParser :=
  {| html := None; url := "";
     soup := Some [Tag "meta" [("property", AttrStr "og:published_time")] [];
                   Tag "time" [("datetime", AttrStr "2024-05-01")] []] |}.

(** A [time] tag without [datetime], then a class that only [publish]
    matches and, after it, one that [date] matches. *)
Definition stamped : BaseParser :=
  {| html := None; url := "";
     soup := Some [Tag "time" [] [];
                   Tag "div" [("class", AttrList ["Published"])]
                     [Str NavigableString " 1 May 2024 "];
                   Tag "span" [("class", AttrList ["date"])]
                     [Str NavigableString "later"]] |}.

Lemma get_publish_date_by_priority_witness :
  fst (get_publish_date masked) = Ret VNone /\
  fst (get_publish_date stamped) = Ret (VStr "1 May 2024").
Proof.
  split.
  - destruct (get_publish_date_by_priority masked _ eq_refl) as (H & _).
    apply (H (Tag "meta" [("property", AttrStr "og:published_time")] [])).
    exists [], [Tag "time" [("datetime", AttrStr "2024-05-01")] []].
    repeat split. intros e [].
  - destruct (get_publish_date_by_priority stamped _ eq_refl)
      as (_ & _ & H & _).
    destruct H as [H _].
    + intros e He. cbn in He.
      repeat (destruct He as [<-|He]; [reflexivity|]). contradiction.
    + right. exists (Tag "time" [] []). split; [|reflexivity].
      exists [], [Tag "div" [("class", AttrList ["Published"])]
                    [Str NavigableString " 1 May 2024 "];
                  Str NavigableString " 1 May 2024 ";
                  Tag "span" [("class", AttrList ["date"])]
                    [Str NavigableString "later"];
                  Str NavigableString "later"].
      repeat split. intros e [].
    + apply (H (Tag "div" [("class", AttrList ["Published"])]
                  [Str NavigableString " 1 May 2024 "])).
      exists [Tag "time" [] []],
        [Str NavigableString " 1 May 2024 ";
         Tag "span" [("class", AttrList ["date"])]
           [Str NavigableString "later"];
         Str NavigableString "later"].
      repeat split. intros e [<-|[]]. reflexivity.
Defined.

End AuthorDateOrder.

Module CallSequences.
Import Py Bs4 Parsers Calls SearchFacts.

Lemma call_all_app l1 l2 parser :
  call_all (l1 ++ l2) parser =
  (fst (call_all l1 parser)
     ++ fst (call_all l2 (snd (call_all l1 parser))),
   snd (call_all l2 (snd (call_all l1 parser)))).
Proof.
  revert parser. induction l1 as [|a l1 IH]; intros parser.
  - cbn. now destruct (call_all l2 parser).
  - cbn [app call_all]. destruct (call a parser) as [r p1].
    rewrite IH. destruct (call_all l1 p1) as [rs p2]. cbn.
    now destruct (call_all l2 p2).
Qed.

Lemma call_all_read_only l parser :
  ~ In GetCleanText l -> snd (call_all l parser) = parser.
Proof.
  revert parser. induction l as [|a l IH]; intros parser Hl; [reflexivity|].
  cbn [call_all].
  assert (Ha : a <> GetCleanText) by (intros ->; apply Hl; now left).
  pose proof (Purity.read_only a parser Ha) as Hr.
  destruct (call a parser) as [r p1]. cbn in Hr. subst p1.
  assert (Hl' : ~ In GetCleanText l) by (intros H; apply Hl; now right).
  specialize (IH parser Hl'). destruct (call_all l parser) as [rs p2].
  exact IH.
Qed.

(** No call changes a parser that [get_clean_text] has left. *)
Lemma call_all_settled l parser :
  snd (call_all l (snd (get_clean_text parser)))
  = snd (get_clean_text parser).
Proof.
  set (after := snd (get_clean_text parser)).
  induction l as [|a l IH]; [reflexivity|]. cbn [call_all].
  assert (Ha : snd (call a after) = after).
  { destruct a; try (apply Purity.read_only; discriminate).
    apply Purity.get_clean_text_settles. }
  destruct (call a after) as [r p1]. cbn in Ha. subst p1.
  destruct (call_all l after) as [rs p2]. exact IH.
Qed.

(** X5. In a sequence of accessor calls on one parser, nothing changes
    the parser before the first [get_clean_text]; the results before it are
    those of the parser as built, and all the results after it are those of
    the parser that this first [get_clean_text] leaves, which none of the
    later calls changes. *)
Theorem calls_before_and_after_get_clean_text l1 l2 (parser : BaseParser) :
  ~ In GetCleanText l1 ->
  snd (call_all l1 parser) = parser /\
  call_all (l1 ++ GetCleanText :: l2) parser =
  (fst (call_all l1 parser)
     ++ fst (get_clean_text parser)
     :: fst (call_all l2 (snd (get_clean_text parser))),
   snd (get_clean_text parser)).
Proof.
  intros Hl. split; [now apply call_all_read_only|].
  rewrite call_all_app, (call_all_read_only l1 parser Hl).
  cbn [call_all call].
  pose proof (call_all_settled l2 parser) as Hs.
  destruct (get_clean_text parser) as [r p1]. cbn [fst snd] in *.
  destruct (call_all l2 p1) as [rs p2]. cbn [fst snd] in *.
  now subst p2.
Qed.

Lemma calls_before_and_after_get_clean_text_witness :
  call_all ([GetTitle; GetPublishDate]
              ++ GetCleanText :: [GetTitle; GetCleanText; GetPublishDate])
           Purity.titled
  = ([Ret (VStr "T"); Ret VNone; Ret (VStr "x"); Ret VNone; Ret (VStr "x");
      Ret VNone],
     snd (get_clean_text Purity.titled)).
Proof.
  apply (proj2 (calls_before_and_after_get_clean_text
                  [GetTitle; GetPublishDate]
                  [GetTitle; GetCleanText; GetPublishDate] Purity.titled
                  ltac:(intros [H|[H|[]]]; discriminate))).
Defined.

(** X6. Whatever accessors were called before, and however often,
    [get_clean_text] returns the same string as on the parser as built. *)
Theorem get_clean_text_whenever l (parser : BaseParser) :
  fst (get_clean_text (snd (call_all l parser)))
  = fst (get_clean_text parser).
Proof.
  assert (H : snd (call_all l parser) = parser \/
              snd (call_all l parser) = snd (get_clean_text parser)).
  { revert parser. induction l as [|a l IH]; intros parser; [now left|].
    cbn [call_all]. destruct (call a parser) as [r p1] eqn:Hc.
    destruct a;
      try (assert (Hp : p1 = parser)
             by (change p1 with (snd (r, p1)); rewrite <- Hc;
                 apply Purity.read_only; discriminate);
           subst p1; specialize (IH parser);
           destruct (call_all l parser) as [rs p2]; exact IH).
    cbn [call] in Hc. right.
    pose proof (call_all_settled l parser) as Hs.
    rewrite Hc in Hs. cbn [snd] in Hs. rewrite Hc. cbn [snd].
    destruct (call_all l p1) as [rs p2]. exact Hs. }
  destruct H as [-> | ->]; [reflexivity|].
  apply Purity.get_clean_text_settles.
Qed.

(** X7. The parser that [get_clean_text] leaves holds a document without
    any [script], [style], [head], [header], [footer] or [nav] tag, whose
    strings are the strings of the original document that were outside
    these tags; the HTML text and the URL of the parser are as before. *)
Theorem get_clean_text_prunes (self : BaseParser) d :
  soup self = Some d ->
  exists d',
    snd (get_clean_text self)
    = {| html := html self; url := url self; soup := Some d' |} /\
    (forall e, In e (descendants d') ->
               is_named ["script"; "style"; "head"; "header"; "footer"; "nav"]
                        e = false) /\
    flat_map string_of (descendants d') = CleanText.kept_strings d.
Proof.
  intros Hd. rewrite (CleanText.get_clean_text_unfold _ _ Hd).
  exists (decompose_all CleanText.unwanted_strainer d).
  split; [reflexivity|]. split.
  - intros e He.
    pose proof (CleanText.no_unwanted_left d) as Hn.
    unfold strained in Hn.
    pose proof (proj1 (filter_nil_iff _ _) Hn e He) as Hne. clear Hn.
    rename Hne into Hn.
    destruct e as [n a cs|c s]; [|reflexivity].
    rewrite CleanText.search_unwanted in Hn. exact Hn.
  - apply CleanText.strings_of_decomposed.
Qed.

Lemma get_clean_text_prunes_witness :
  exists d',
    snd (get_clean_text (CleanText.framed "x"))
    = {| html := None; url := ""; soup := Some d' |} /\
    (forall e, In e (descendants d') ->
               is_named ["script"; "style"; "head"; "header"; "footer"; "nav"]
                        e = false) /\
    flat_map string_of (descendants d') = ["  Hello,   "; "big  world. "].
Proof.
  apply (get_clean_text_prunes (CleanText.framed "x") _ eq_refl).
Defined.

(** What each accessor returns when there is no document. *)
Definition empty_result (a : accessor) : outcome value :=
  match a with
  | GetAllLinks | GetImages => Ret (VList [])
  | GetCleanText => Ret (VStr "")
  | _ => Ret VNone
  end.

(** X8. A parser built from no HTML ([None]) or from the empty string has
    no document, and on it every sequence of accessor calls returns the
    empty results, [None], [[]] or [""], without raising and without
    changing the parser; [BeautifulSoup] is never called. *)
Theorem accessors_without_html html_parser html_content url0 l :
  html_content = None \/ html_content = Some "" ->
  call_all l (init html_parser html_content url0)
  = (map empty_result l, init html_parser html_content url0) /\
  soup (init html_parser html_content url0) = None.
Proof.
  intros H.
  assert (Hs : soup (init html_parser html_content url0) = None)
    by (destruct H as [-> | ->]; reflexivity).
  split; [|assumption].
  set (p := init html_parser html_content url0) in *.
  induction l as [|a l IH]; [reflexivity|]. cbn [call_all map].
  assert (Ha : call a p = (empty_result a, p)).
  { destruct a; cbn [call empty_result];
      match goal with
      | |- ?f p = _ => unfold f; now rewrite Hs
      end. }
  rewrite Ha, IH. reflexivity.
Qed.

Lemma accessors_without_html_witness :
  call_all [GetTitle; GetAllLinks; GetCleanText; GetAuthor]
           (init (fun _ => [Tag "never" [] []]) (Some "") "http://a/")
  = ([Ret VNone; Ret (VList []); Ret (VStr ""); Ret VNone],
     init (fun _ => [Tag "never" [] []]) (Some "") "http://a/").
Proof.
  apply (proj1 (accessors_without_html (fun _ => [Tag "never" [] []])
                  (Some "") "http://a/"
                  [GetTitle; GetAllLinks; GetCleanText; GetAuthor]
                  (or_intror eq_refl))).
Defined.

End CallSequences.

Module CleanWords.
Import Py Bs4 Parsers.
Import CleanText.

Lemma append_empty_r (s : string) : (s ++ "")%string = s.
Proof. induction s as [|c s IH]; simpl; [reflexivity|now rewrite IH]. Qed.

Lemma append_char (w : string) c (t : string) :
  ((w ++ String c "") ++ t)%string = (w ++ String c t)%string.
Proof. induction w as [|d w IH]; simpl; [reflexivity|now rewrite IH]. Qed.

Lemma join_cons sep x rest :
  rest <> [] -> join sep (x :: rest) = (x ++ sep ++ join sep rest)%string.
Proof. destruct rest; [congruence|reflexivity]. Qed.

Lemma split_from_some w s : split_from (Some w) s <> [].
Proof.
  revert w. induction s as [|c s IH]; intros w; cbn [split_from];
    [discriminate|].
  destruct (isspace c); [discriminate|apply IH].
Qed.

(** A single-spaced string is its own words joined by spaces. *)
Lemma join_split_from t :
  forall w, single_spaced t = true ->
            join " " (split_from (Some w) t) = (w ++ t)%string.
Proof.
  induction t as [|c t IH]; intros w Ht.
  - cbn. now rewrite append_empty_r.
  - cbn [single_spaced] in Ht. apply andb_true_iff in Ht.
    destruct Ht as [Hc Ht]. cbn [split_from].
    destruct (isspace c) eqn:Hs.
    + apply andb_true_iff in Hc. destruct Hc as [Hc Hnext].
      apply Ascii.eqb_eq in Hc. subst c.
      destruct t as [|c' t']; [discriminate|].
      apply negb_true_iff in Hnext.
      assert (Heq : split_from None (String c' t')
                    = split_from (Some EmptyString) (String c' t')).
      { cbn [split_from]. now rewrite Hnext. }
      rewrite Heq, join_cons by apply split_from_some.
      now rewrite (IH EmptyString Ht).
    + rewrite (IH _ Ht). apply append_char.
Qed.

Lemma join_split_tidy t : tidy t = true -> join " " (split t) = t.
Proof.
  unfold tidy, split. intros H. apply andb_true_iff in H.
  destruct H as [Hs Ht]. destruct t as [|c t]; [reflexivity|].
  cbn [starts_nonspace] in Hs. apply negb_true_iff in Hs.
  cbn [single_spaced] in Ht. rewrite Hs in Ht. cbn [andb] in Ht.
  cbn [split_from]. rewrite Hs. now rewrite (join_split_from t _ Ht).
Qed.

Lemma split_sub_spaces s :
  forall cur in_run,
    cur = None \/ in_run = false ->
    split_from cur (Re.sub_spaces_from in_run s) = split_from cur s.
Proof.
  induction s as [|c s IH]; intros cur in_run H; [reflexivity|].
  cbn [Re.sub_spaces_from]. destruct (isspace c) eqn:Hc.
  - destruct in_run.
    + destruct H as [-> |H]; [|discriminate].
      cbn [split_from]. rewrite Hc. apply IH. now left.
    + cbn [split_from]. change (isspace " ") with true. cbv iota.
      rewrite Hc. destruct cur; now rewrite (IH None true) by now left.
  - cbn [split_from]. rewrite Hc. apply IH. now right.
Qed.

Lemma split_lstrip s : split (lstrip s) = split s.
Proof.
  unfold split. induction s as [|c s IH]; [reflexivity|].
  cbn [lstrip split_from]. destruct (isspace c) eqn:Hc; [exact IH|].
  cbn [split_from]. now rewrite Hc.
Qed.

Lemma split_rstrip s : forall cur, split_from cur (rstrip s) = split_from cur s.
Proof.
  induction s as [|c s IH]; intros cur; [reflexivity|].
  cbn [rstrip]. destruct (rstrip s) as [|c2 r2] eqn:Hr.
  - destruct (isspace c) eqn:Hc.
    + cbn [split_from]. rewrite Hc.
      destruct cur; now rewrite <- IH.
    + cbn [split_from]. rewrite Hc. now rewrite <- IH.
  - cbn [split_from]. destruct (isspace c);
      [destruct cur|]; now rewrite <- IH.
Qed.

Lemma split_strip s : split (strip s) = split s.
Proof.
  unfold strip, split. rewrite split_rstrip. apply split_lstrip.
Qed.

Lemma split_app_space x c y :
  isspace c = true ->
  forall cur,
    split_from cur (x ++ String c y)%string
    = split_from cur x ++ split_from None y.
Proof.
  intros Hc. induction x as [|d x IH]; intros cur.
  - cbn [String.append split_from]. rewrite Hc. now destruct cur.
  - cbn [String.append split_from]. destruct (isspace d).
    + destruct cur; cbn [app]; now rewrite IH.
    + apply IH.
Qed.

Lemma split_join l : split (join " " l) = flat_map split l.
Proof.
  induction l as [|x rest IH]; [reflexivity|].
  destruct rest as [|y rest].
  - cbn. now rewrite app_nil_r.
  - rewrite join_cons by discriminate.
    change (flat_map split (x :: y :: rest))
      with (split x ++ flat_map split (y :: rest)).
    rewrite <- IH. unfold split.
    change (" " ++ join " " (y :: rest))%string
      with (String " " (join " " (y :: rest))).
    now apply split_app_space.
Qed.

Lemma split_stripped l :
  flat_map split (filter (fun s => negb (String.eqb s "")) (map strip l))
  = flat_map split l.
Proof.
  induction l as [|x l IH]; [reflexivity|]. cbn [map filter flat_map].
  destruct (String.eqb (strip x) "") eqn:He; cbn [negb].
  - apply String.eqb_eq in He. rewrite IH, <- (split_strip x), He.
    reflexivity.
  - cbn [flat_map]. now rewrite IH, split_strip.
Qed.

Lemma split_text_of l : split (text_of l) = flat_map split l.
Proof.
  unfold text_of. rewrite split_strip. unfold Re.sub_spaces, split.
  rewrite split_sub_spaces by now left.
  fold (split (join " " (filter (fun s => negb (String.eqb s ""))
                                (map strip l)))).
  now rewrite split_join, split_stripped.
Qed.

(** X9. With a document, the clean text is made of the words (the maximal
    runs of characters other than whitespace) of the strings outside the
    unwanted subtrees, in document order, with one space between two
    words; splitting the clean text at the whitespace gives these words
    back. *)
Theorem get_clean_text_words (self : BaseParser) d :
  soup self = Some d ->
  fst (get_clean_text self)
  = Ret (VStr (join " " (flat_map split (kept_strings d)))) /\
  split (join " " (flat_map split (kept_strings d)))
  = flat_map split (kept_strings d).
Proof.
  intros Hd. rewrite (get_clean_text_unfold _ _ Hd). cbn [fst].
  assert (H : text_of (kept_strings d)
              = join " " (flat_map split (kept_strings d))).
  { rewrite <- (split_text_of (kept_strings d)). symmetry.
    apply join_split_tidy, strip_sub_spaces_tidy. }
  split; [now rewrite H|].
  rewrite <- H. apply split_text_of.
Qed.

Lemma get_clean_text_words_witness :
  fst (get_clean_text (page "x = 1"))
  = Ret (VStr (join " " ["Hello,"; "big"; "world."])).
Proof.
  apply (proj1 (get_clean_text_words (page "x = 1") _ eq_refl)).
Defined.

End CleanWords.

(* ===================================================================== *)
(** * Further properties of [fetch_url] *)
(* ===================================================================== *)

Module FetchFacts.
Import Py Config Utils Fetching.

(** X10. When the [m] first requests of a call fail, the next one does not,
    and the retries and the stack allow it ([m <= retry], [m <= frames]),
    [fetch_url] makes exactly [m + 1] GET requests and ends on this
    request: it returns the text of its response, or lets through the
    exception it raised, which is no [RequestException]. *)
Theorem fetch_url_first_success (w : world) (url : string)
        (session : option Session) (retry : Z) (frames : nat) (s : state)
        (m : nat) :
  (Z.of_nat m <= retry)%Z ->
  m <= frames ->
  (forall j, j < m ->
     request_fails
       (request w url (session_in_use w session s) (sent s + j)) = true) ->
  request_fails
    (request w url (session_in_use w session s) (sent s + m)) = false ->
  sent (snd (fetch_url w url session retry frames s)) = sent s + S m /\
  (exists emitted,
      trace (snd (fetch_url w url session retry frames s))
      = trace s ++ emitted /\
      gets emitted = S m) /\
  (forall r,
      request w url (session_in_use w session s) (sent s + m) = Ret r ->
      fst (fetch_url w url session retry frames s) = Ret (VStr (text r))) /\
  (forall e,
      request w url (session_in_use w session s) (sent s + m) = Raise e ->
      fst (fetch_url w url session retry frames s) = Raise e).
Proof.
  intros Hm Hfr Hfail Hok.
  destruct (fetch_url_run w url frames retry session s)
    as (n & emitted & Hn & Hnf & Htr & Hsent & Hall & Hstop & Hres).
  assert (Hnm : n = S m).
  { destruct (Nat.lt_trichotomy (n - 1) m) as [Hlt|[Heq|Hgt]].
    - rewrite (Hfail _ Hlt) in Hstop.
      assert (H : true = false) by (apply Hstop; lia). discriminate H.
    - lia.
    - specialize (Hall m Hgt). rewrite Hok in Hall. discriminate. }
  subst n. replace (S m - 1) with m in Hres by lia.
  destruct Hres as [Hobs Hfst]; [right; right; exact Hok|].
  split; [assumption|]. split.
  - exists emitted. split; [assumption|].
    now rewrite <- gets_observable, Hobs, gets_schedule.
  - unfold final in Hfst. rewrite Hok in Hfst.
    split; intros x Hx; rewrite Hx in Hfst; exact Hfst.
Qed.

Lemma fetch_url_first_success_witness :
  fst (fetch_url recovering "http://example.org/" None 3 2 initial)
  = Ret (VStr "<html></html>") /\
  sent (snd (fetch_url recovering "http://example.org/" None 3 2 initial))
  = 3.
Proof.
  destruct (fetch_url_first_success recovering "http://example.org/" None 3
              2 initial 2) as (H1 & _ & H2 & _).
  - lia.
  - lia.
  - intros j Hj. destruct j as [|[|j]]; [reflexivity|reflexivity|lia].
  - reflexivity.
  - split; [|exact H1].
    apply (H2 {| status_code := 200; text := "<html></html>" |}).
    reflexivity.
Defined.

(** X11. With no retry left ([retry <= 0], negative values included)
    [fetch_url] makes one GET request and no more: a failed request gives
    [None] at once. *)
Theorem fetch_url_without_retry (w : world) (url : string)
        (session : option Session) (retry : Z) (frames : nat) (s : state) :
  (retry <= 0)%Z ->
  sent (snd (fetch_url w url session retry frames s)) = sent s + 1 /\
  (exists emitted,
      trace (snd (fetch_url w url session retry frames s))
      = trace s ++ emitted /\
      observable emitted
      = [Sleep (jittered w (drawn s)); Get url REQUEST_TIMEOUT]) /\
  (request_fails (request w url (session_in_use w session s) (sent s))
   = true ->
   fst (fetch_url w url session retry frames s) = Ret VNone).
Proof.
  intros Hr.
  destruct (fetch_url_run_within w url frames retry session s ltac:(lia))
    as (n & emitted & Hn & Htr & Hobs & Hsent & _ & _ & Hres).
  assert (n = 1) by lia. subst n. cbn [Nat.sub] in Hres.
  rewrite Nat.add_0_r in Hres.
  split; [assumption|]. split; [now exists emitted|].
  intros Hf. rewrite Hres. unfold final. now rewrite Hf.
Qed.

Lemma fetch_url_without_retry_witness :
  fst (fetch_url unreachable "http://example.org/" None (-2) 0 initial)
  = Ret VNone /\
  sent (snd (fetch_url unreachable "http://example.org/" None (-2) 0
               initial))
  = 1.
Proof.
  destruct (fetch_url_without_retry unreachable "http://example.org/" None
              (-2) 0 initial ltac:(lia)) as (H1 & _ & H2).
  split; [apply H2; reflexivity|exact H1].
Defined.

(** The time slept, in seconds. *)
Fixpoint slept (t : list event) : Q :=
  match t with
  | [] => 0
  | Sleep d :: rest => d + slept rest
  | _ :: rest => slept rest
  end.

Lemma slept_observable t : slept (observable t) = slept t.
Proof.
  unfold observable. induction t as [|[d|u t0|l] t IH]; cbn [filter slept];
    congruence.
Qed.

(** The number of jittered delays slept by [n] attempts: one before each,
    two more before each retry. *)
Definition delays (n : nat) : Q := inject_Z (3 * Z.of_nat n - 2).

Lemma delays_step n : (delays (S (S n)) == delays (S n) + 3)%Q.
Proof.
  unfold delays.
  replace (3 * Z.of_nat (S (S n)) - 2)%Z
    with ((3 * Z.of_nat (S n) - 2) + 3)%Z by lia.
  now rewrite inject_Z_plus.
Qed.

Lemma slept_schedule w url n :
  (forall i, 0 <= random_random w i /\ random_random w i < 1)%Q ->
  forall first,
    (delays (S n) * (DELAY_BETWEEN_REQUESTS * (1 # 2))
     <= slept (schedule w url first (S n)))%Q /\
    (slept (schedule w url first (S n))
     <= delays (S n) * (DELAY_BETWEEN_REQUESTS * (3 # 2)))%Q.
Proof.
  intros Hr. induction n as [|n IH]; intros first;
    destruct (jittered_bounds w first (proj1 (Hr first)) (proj2 (Hr first)))
      as (Hlo & Hhi & Htwice).
  - cbn [schedule slept]. change (delays 1) with 1%Q. lra.
  - rewrite schedule_step. cbn [slept].
    destruct (IH (S first)) as [IHlo IHhi].
    rewrite delays_step. lra.
Qed.

(** X12. With random numbers in [0, 1), a call of [fetch_url] that stays
    within the stack and makes [n] GET requests sleeps [3n - 2] jittered
    delays in all (one before each request, two more after each failed
    one): at least [(3n - 2) * 0.5 * DELAY_BETWEEN_REQUESTS] and at most
    [(3n - 2) * 1.5 * DELAY_BETWEEN_REQUESTS] seconds. With the default 3
    retries and 3 seconds of delay this is at most 45 seconds. *)
Theorem fetch_url_time_slept (w : world) (url : string)
        (session : option Session) (retry : Z) (frames : nat) (s : state) :
  (forall i, 0 <= random_random w i /\ random_random w i < 1)%Q ->
  Z.to_nat retry <= frames ->
  exists emitted,
    trace (snd (fetch_url w url session retry frames s))
    = trace s ++ emitted /\
    (delays (gets emitted) * (DELAY_BETWEEN_REQUESTS * (1 # 2))
     <= slept emitted)%Q /\
    (slept emitted
     <= delays (gets emitted) * (DELAY_BETWEEN_REQUESTS * (3 # 2)))%Q /\
    (retry = RETRY_COUNT -> (slept emitted <= 45)%Q).
Proof.
  intros Hr Hfr.
  destruct (fetch_url_run_within w url frames retry session s Hfr)
    as (n & emitted & Hn & Htr & Hobs & _).
  exists emitted. split; [assumption|].
  assert (Hg : gets emitted = n)
    by now rewrite <- gets_observable, Hobs, gets_schedule.
  rewrite Hg, <- slept_observable, Hobs.
  destruct n as [|n]; [lia|].
  destruct (slept_schedule w url n Hr (drawn s)) as [Hlo Hhi].
  split; [assumption|]. split; [assumption|].
  intros ->. change (Z.to_nat RETRY_COUNT) with 3 in Hn.
  assert (Hd : (delays (S n) <= 10)%Q).
  { unfold delays. rewrite <- (Zle_Qle _ 10). lia. }
  pose proof delay_is_three as HD.
  apply (Qle_trans _ _ _ Hhi).
  setoid_replace (45 : Q) with (10 * (9 # 2))%Q by reflexivity.
  setoid_replace (DELAY_BETWEEN_REQUESTS * (3 # 2))%Q with (9 # 2)%Q
    by (rewrite HD; reflexivity).
  apply Qmult_le_compat_r; [assumption|]. discriminate.
Qed.

(** The longest wait: every request fails and every random number is the
    largest. The 45 seconds are reached. *)
Lemma fetch_url_time_slept_witness :
  exists emitted,
    trace (snd (fetch_url unlucky "http://example.org/" None 3 3 initial))
    = emitted /\
    (slept emitted <= 45)%Q /\
    (slept emitted == 45)%Q.
Proof.
  destruct (fetch_url_time_slept unlucky "http://example.org/" None 3 3
              initial) as (emitted & Htr & _ & _ & H).
  - intros i. split; vm_compute; [discriminate|reflexivity].
  - simpl. lia.
  - exists emitted. split; [exact Htr|]. split; [now apply H|].
    cbn [trace initial app] in Htr. rewrite <- Htr.
    vm_compute. reflexivity.
Defined.

End FetchFacts.

Module FetchDependence.
Import Py Config Utils Fetching.

(** Two worlds with the same random numbers and proxy settings, in which
    the requests for [url] made with [session] and the configured timeout
    are answered alike; the answers to any other request may differ. *)
Definition alike (w1 w2 : world) (url : string) (session : Session) : Prop :=
  (forall i, random_random w1 i = random_random w2 i) /\
  (forall i, random_choice w1 i = random_choice w2 i) /\
  USE_PROXY w1 = USE_PROXY w2 /\
  PROXY_URL w1 = PROXY_URL w2 /\
  (forall i, session_get w1 i url session REQUEST_TIMEOUT
             = session_get w2 i url session REQUEST_TIMEOUT).

Lemma get_session_alike w1 w2 url session s :
  alike w1 w2 url session -> get_session w1 s = get_session w2 s.
Proof.
  intros (_ & Hc & Hu & Hp & _).
  unfold get_session, get_random_user_agent, choice.
  now rewrite Hc, Hu, Hp.
Qed.

Lemma attempt_alike w1 w2 url session s :
  alike w1 w2 url (session_in_use w1 session s) ->
  attempt w1 url session s = attempt w2 url session s.
Proof.
  intros H. pose proof H as (Hr & _ & _ & _ & Hg).
  unfold attempt, session_in_use in *.
  destruct session as [x|].
  - unfold random, get. cbn. now rewrite Hr, Hg.
  - rewrite <- (get_session_alike w1 w2 url _ s H).
    destruct (get_session w1 s) as [x s0]. cbn [fst] in *.
    unfold random, get. cbn. now rewrite Hr, Hg.
Qed.

Lemma fetch_url_alike w1 w2 url frames :
  forall retry session s,
    alike w1 w2 url (session_in_use w1 session s) ->
    fetch_url w1 url session retry frames s
    = fetch_url w2 url session retry frames s.
Proof.
  induction frames as [|f IH]; intros retry session s H;
    rewrite !fetch_url_step, <- (attempt_alike w1 w2 url session s H);
    destruct (attempt_spec w1 url session s) as (s1 & -> & _);
    destruct (bind _ _) as [body|e]; try reflexivity;
    destruct (isinstance e RequestException); try reflexivity;
    destruct (0 <? retry)%Z; try reflexivity.
  apply IH. exact H.
Qed.

(** X13. A call of [fetch_url] reads the network only through GET requests
    for its own URL, made with the one session it uses (the session given,
    or the one it creates at its start) and with [REQUEST_TIMEOUT]:
    whatever the network would answer to any other request, the result,
    the events and the state left are the same. *)
Theorem fetch_url_requests_only (w1 w2 : world) (url : string)
        (session : option Session) (retry : Z) (frames : nat) (s : state) :
  alike w1 w2 url (session_in_use w1 session s) ->
  fetch_url w1 url session retry frames s
  = fetch_url w2 url session retry frames s.
Proof. intros H. now apply fetch_url_alike. Qed.

(** The network of [recovering], except that every other URL and every
    request with another timeout is refused. *)
Definition recovering_here : world :=
  {| random_random := random_random recovering;
     random_choice := random_choice recovering;
     session_get := fun i u x t =>
       if String.eqb u "http://example.org/" && (t =? REQUEST_TIMEOUT)%Z
       then session_get recovering i u x t
       else Raise ConnectionError;
     USE_PROXY := false;
     PROXY_URL := "" |}.

Lemma fetch_url_requests_only_witness :
  fetch_url recovering "http://example.org/" None 3 3 initial
  = fetch_url recovering_here "http://example.org/" None 3 3 initial.
Proof.
  apply (fetch_url_requests_only recovering recovering_here).
  repeat split.
Defined.

End FetchDependence.

(* ===================================================================== *)
(** * Further properties of the analyzer *)
(* ===================================================================== *)

Module FrequencyFacts.
Import Py TextAnalysis WordFrequency.

Lemma str_in_distinct t tokens : str_in t (distinct tokens) = str_in t tokens.
Proof.
  destruct (str_in t tokens) eqn:H.
  - apply str_in_In, In_distinct, str_in_In, H.
  - apply str_in_not_In. rewrite In_distinct. now apply str_in_not_In.
Qed.

Lemma In_histogram w n tokens :
  In (w, n) (histogram tokens) <-> In w tokens /\ n = occurrences w tokens.
Proof.
  unfold histogram. rewrite in_map_iff. split.
  - intros (x & [= <- <-] & Hx).
    apply (proj1 (In_distinct _ _)) in Hx. auto.
  - intros (Hw & ->). exists w. split; [reflexivity|].
    now apply (proj2 (In_distinct _ _)).
Qed.

Lemma keys_histogram tokens : map fst (histogram tokens) = distinct tokens.
Proof.
  unfold histogram. rewrite map_map. cbn. apply map_id.
Qed.

Lemma occurrences_cons_other w t rest :
  w <> t -> occurrences w (t :: rest) = occurrences w rest.
Proof.
  intros H. unfold occurrences. cbn.
  destruct (string_dec t w); [congruence|reflexivity].
Qed.

Lemma list_sum_cons x l : list_sum (x :: l) = x + list_sum l.
Proof. reflexivity. Qed.

(** Taking one key apart in a sum over distinct keys. *)
Lemma sum_without (f : string -> nat) t ks :
  NoDup ks ->
  list_sum (map f ks)
  = (if str_in t ks then f t else 0)
    + list_sum (map f (filter (fun w => negb (String.eqb w t)) ks)).
Proof.
  induction 1 as [|k ks Hk Hnd IH]; [reflexivity|].
  cbn [map filter]. rewrite list_sum_cons, IH.
  unfold str_in. cbn [existsb]. fold (str_in t ks).
  destruct (String.eqb k t) eqn:Hkt.
  - apply String.eqb_eq in Hkt. subst k.
    rewrite String.eqb_refl. cbn [negb orb].
    apply str_in_not_In in Hk. rewrite Hk. lia.
  - rewrite String.eqb_sym, Hkt. cbn [negb orb map].
    rewrite list_sum_cons. lia.
Qed.

Lemma histogram_sum tokens :
  list_sum (map snd (histogram tokens)) = length tokens.
Proof.
  unfold histogram. rewrite map_map. cbn [snd].
  induction tokens as [|t rest IH]; [reflexivity|].
  cbn [distinct map length]. rewrite list_sum_cons.
  rewrite (sum_without (fun w => occurrences w rest) t (distinct rest)
             (NoDup_distinct rest)) in IH.
  assert (Hsame :
    map (fun w => occurrences w (t :: rest))
        (filter (fun w => negb (String.eqb w t)) (distinct rest))
    = map (fun w => occurrences w rest)
          (filter (fun w => negb (String.eqb w t)) (distinct rest))).
  { apply map_ext_in. intros w Hw. apply filter_In in Hw.
    destruct Hw as [_ Hw]. apply negb_true_iff, String.eqb_neq in Hw.
    now apply occurrences_cons_other. }
  rewrite Hsame.
  assert (Ht : occurrences t (t :: rest) = S (occurrences t rest)).
  { unfold occurrences. cbn. now destruct (string_dec t t). }
  rewrite Ht, str_in_distinct in *.
  destruct (str_in t rest) eqn:Hin; [lia|].
  apply str_in_not_In in Hin. unfold occurrences in *.
  rewrite (proj1 (count_occ_not_In string_dec rest t) Hin). lia.
Qed.

(** X14. Without [top_n] (or with [top_n = 0]) [get_word_frequency]
    returns a [Counter] whose keys are distinct and are exactly the counted
    tokens, each with its number of occurrences, which is at least 1; the
    counts add up to the number of counted tokens. *)
Theorem word_counts_add_up (lib : libraries) (self : TextAnalyzer)
        (top_n : option Z) (min_word_length : Z) :
  top_n = None \/ top_n = Some 0%Z ->
  exists c,
    get_word_frequency lib self top_n min_word_length = FreqCounter c /\
    NoDup (map fst c) /\
    (forall w n,
        In (w, n) c <->
        In w (counted lib self min_word_length) /\
        n = occurrences w (counted lib self min_word_length)) /\
    (forall w n, In (w, n) c -> 1 <= n) /\
    list_sum (map snd c) = length (counted lib self min_word_length).
Proof.
  intros H. exists (histogram (counted lib self min_word_length)).
  split.
  - unfold get_word_frequency.
    replace (truthy top_n) with false by (destruct H as [-> | ->]; reflexivity).
    f_equal. apply Counter_histogram.
  - split; [rewrite keys_histogram; apply NoDup_distinct|].
    split; [intros w n; apply In_histogram|].
    split; [|apply histogram_sum].
    intros w n Hin. apply In_histogram in Hin. destruct Hin as [Hw ->].
    unfold occurrences.
    apply (proj1 (count_occ_In string_dec _ w)) in Hw. lia.
Qed.

Lemma word_counts_add_up_witness :
  exists c,
    get_word_frequency english (init english the_cat "english") None 3%Z
    = FreqCounter c /\
    list_sum (map snd c) = 5.
Proof.
  destruct (word_counts_add_up english (init english the_cat "english")
              None 3%Z (or_introl eq_refl)) as (c & H1 & _ & _ & _ & H2).
  exists c. split; [exact H1|exact H2].
Defined.

Lemma sorted_app_dominates {A} (R : A -> A -> Prop) l1 l2 :
  StronglySorted R (l1 ++ l2) ->
  forall x y, In x l1 -> In y l2 -> R x y.
Proof.
  induction l1 as [|a l1 IH]; intros Hs x y Hx Hy; [destruct Hx|].
  cbn in Hs. inversion Hs as [|? ? Hs' Hall]; subst.
  destruct Hx as [<-|Hx].
  - rewrite Forall_forall in Hall. apply Hall, in_or_app. now right.
  - now apply IH.
Qed.

Lemma get_word_frequency_list lib self n min_word_length :
  n <> 0%Z ->
  get_word_frequency lib self (Some n) min_word_length
  = FreqList (firstn (Z.to_nat n)
                (sorted_by_count
                   (histogram (counted lib self min_word_length)))).
Proof.
  intros Hn. unfold get_word_frequency, truthy, most_common.
  apply Z.eqb_neq in Hn. rewrite Hn. cbn [negb].
  f_equal. f_equal. f_equal. apply Counter_histogram.
Qed.

(** X15. With a [top_n] other than zero, [get_word_frequency] returns a
    list of [min(top_n, number of distinct counted words)] pairs (none for
    a negative [top_n]) with distinct words; every word that is counted
    but not listed occurs at most as often as each listed word; and the
    list for a smaller [top_n] is the beginning of the list for a larger
    one. *)
Theorem top_n_is_the_top (lib : libraries) (self : TextAnalyzer)
        (n : Z) (min_word_length : Z) :
  n <> 0%Z ->
  exists l,
    get_word_frequency lib self (Some n) min_word_length = FreqList l /\
    length l
    = Nat.min (Z.to_nat n)
              (length (distinct (counted lib self min_word_length))) /\
    NoDup (map fst l) /\
    (forall w c w',
        In (w, c) l ->
        In w' (counted lib self min_word_length) ->
        ~ In w' (map fst l) ->
        occurrences w' (counted lib self min_word_length) <= c) /\
    (forall m, (n <= m)%Z -> m <> 0%Z ->
       exists l',
         get_word_frequency lib self (Some m) min_word_length
         = FreqList l' /\
         l = firstn (Z.to_nat n) l').
Proof.
  intros Hn. set (tokens := counted lib self min_word_length).
  set (ranked := sorted_by_count (histogram tokens)).
  destruct (sorted_by_count_ranking (histogram tokens))
    as (Hperm & Hsorted & _). fold ranked in Hperm, Hsorted.
  exists (firstn (Z.to_nat n) ranked).
  split; [now apply get_word_frequency_list|].
  split.
  { rewrite length_firstn. f_equal.
    rewrite (Permutation_length Hperm). unfold histogram.
    now rewrite length_map. }
  assert (Hnd : NoDup (map fst ranked)).
  { apply (Permutation_NoDup (l := map fst (histogram tokens))).
    - apply Permutation_map. now symmetry.
    - rewrite keys_histogram. apply NoDup_distinct. }
  split.
  { rewrite <- (firstn_skipn (Z.to_nat n) ranked), map_app in Hnd.
    now apply NoDup_app_remove_r in Hnd. }
  split.
  { intros w c w' Hin Hw' Hout.
    assert (Hr : In (w', occurrences w' tokens) ranked).
    { apply (Permutation_in _ (Permutation_sym Hperm)).
      now apply In_histogram. }
    rewrite <- (firstn_skipn (Z.to_nat n) ranked) in Hr, Hsorted.
    apply in_app_or in Hr. destruct Hr as [Hr|Hr].
    - exfalso. apply Hout. apply in_map_iff.
      now exists (w', occurrences w' tokens).
    - apply (sorted_app_dominates _ _ _ Hsorted (w, c) _ Hin Hr). }
  intros m Hm Hm0. exists (firstn (Z.to_nat m) ranked).
  split; [now apply get_word_frequency_list|].
  rewrite firstn_firstn. f_equal. lia.
Qed.

Lemma top_n_is_the_top_witness :
  exists l,
    get_word_frequency english (init english the_cat "english")
      (Some 2%Z) 3%Z = FreqList l /\
    length l = 2.
Proof.
  destruct (top_n_is_the_top english (init english the_cat "english")
              2%Z 3%Z ltac:(discriminate)) as (l & H1 & H2 & _).
  exists l. split; [exact H1|]. rewrite H2. reflexivity.
Defined.

End FrequencyFacts.

Module EntityFacts.
Import Py TextAnalysis.
Import WordFrequency.

(** The dictionary built by the loop of [extract_entities] from the
    entities found, pairs of a label and a text. *)
Definition grouped (ents : list (string * string))
  : list (string * list string) :=
  fold_left (fun entities ent => append_entity (fst ent) (snd ent) entities)
            ents [].

(** The texts of the entities labelled [label], in the order found. *)
Definition texts_of (label : string) (ents : list (string * string))
  : list string :=
  map snd (filter (fun ent => String.eqb (fst ent) label) ents).

Lemma lookup_append_entity label k v d :
  Bs4.lookup label (append_entity k v d) =
  if String.eqb k label
  then Some (match Bs4.lookup label d with
             | Some l => l
             | None => []
             end ++ [v])
  else Bs4.lookup label d.
Proof.
  induction d as [|[k' l] d IH]; cbn [append_entity Bs4.lookup].
  - destruct (String.eqb k label); reflexivity.
  - destruct (String.eqb k' k) eqn:Hk; cbn [Bs4.lookup].
    + apply String.eqb_eq in Hk. subst k'.
      destruct (String.eqb k label); reflexivity.
    + destruct (String.eqb k' label) eqn:Hl; [|exact IH].
      apply String.eqb_eq in Hl. subst k'. now rewrite String.eqb_sym, Hk.
Qed.

Lemma keys_append_entity k v d :
  map fst (append_entity k v d) =
  if str_in k (map fst d) then map fst d else map fst d ++ [k].
Proof.
  induction d as [|[k' l] d IH]; [reflexivity|].
  cbn [append_entity map fst]. unfold str_in. cbn [existsb].
  fold (str_in k (map fst d)).
  destruct (String.eqb k' k) eqn:Hk.
  - rewrite String.eqb_sym, Hk. reflexivity.
  - rewrite String.eqb_sym, Hk. cbn [map fst orb]. rewrite IH.
    now destruct (str_in k (map fst d)).
Qed.

Lemma grouped_snoc ents e :
  grouped (ents ++ [e]) = append_entity (fst e) (snd e) (grouped ents).
Proof. unfold grouped. now rewrite fold_left_app. Qed.

Lemma texts_of_snoc label ents e :
  texts_of label (ents ++ [e]) =
  texts_of label ents ++ (if String.eqb (fst e) label then [snd e] else []).
Proof.
  unfold texts_of. rewrite filter_app, map_app. cbn [filter].
  now destruct (String.eqb (fst e) label).
Qed.

Lemma lookup_grouped label ents :
  Bs4.lookup label (grouped ents) =
  match texts_of label ents with
  | [] => None
  | l => Some l
  end.
Proof.
  induction ents as [|e ents IH] using rev_ind; [reflexivity|].
  rewrite grouped_snoc, lookup_append_entity, texts_of_snoc, IH.
  destruct (String.eqb (fst e) label).
  - destruct (texts_of label ents); reflexivity.
  - now rewrite app_nil_r.
Qed.

Lemma keys_grouped ents : map fst (grouped ents) = distinct (map fst ents).
Proof.
  induction ents as [|e ents IH] using rev_ind; [reflexivity|].
  rewrite grouped_snoc, keys_append_entity, map_app, IH. cbn [map].
  rewrite distinct_snoc.
  now rewrite FrequencyFacts.str_in_distinct.
Qed.

Lemma extract_entities_loaded lib self spacy nlp ents :
  import_spacy lib = Ret spacy ->
  spacy_load spacy false "en_core_web_sm" = Ret nlp ->
  nlp (text self) = Ret ents ->
  extract_entities lib self = Ret (grouped ents).
Proof.
  intros H1 H2 H3. unfold extract_entities. rewrite H1. cbn [bind].
  rewrite H2. cbn [try_except bind]. rewrite H3. reflexivity.
Qed.

(** X16. When spaCy and its model load and the model finds the entities
    [ents] in the text, [extract_entities] returns a dictionary whose keys
    are the labels found, each once, in the order of their first
    occurrence, and that maps each label to the texts of all the entities
    of this label, in the order found, repetitions included. *)
Theorem extract_entities_groups (lib : libraries) (self : TextAnalyzer)
        spacy nlp ents :
  import_spacy lib = Ret spacy ->
  spacy_load spacy false "en_core_web_sm" = Ret nlp ->
  nlp (text self) = Ret ents ->
  exists entities,
    extract_entities lib self = Ret entities /\
    map fst entities = distinct (map fst ents) /\
    (forall label,
        Bs4.lookup label entities =
        match texts_of label ents with
        | [] => None
        | l => Some l
        end) /\
    (forall label l, In (label, l) entities -> l = texts_of label ents).
Proof.
  intros H1 H2 H3. exists (grouped ents).
  split; [now apply (extract_entities_loaded lib self spacy nlp)|].
  split; [apply keys_grouped|].
  split; [intros label; apply lookup_grouped|].
  intros label l Hin.
  assert (Hnd : NoDup (map fst (grouped ents)))
    by (rewrite keys_grouped; apply NoDup_distinct).
  assert (Hl : Bs4.lookup label (grouped ents) = Some l).
  { revert Hnd Hin. generalize (grouped ents) as d.
    induction d as [|[k l'] d IH]; intros Hnd Hin; [destruct Hin|].
    cbn [Bs4.lookup]. inversion Hnd as [|? ? Hk Hnd']; subst.
    destruct Hin as [[= -> ->]|Hin].
    - now rewrite String.eqb_refl.
    - destruct (String.eqb k label) eqn:Hkl; [|now apply IH].
      apply String.eqb_eq in Hkl. subst k. exfalso. apply Hk.
      apply in_map_iff. now exists (label, l). }
  rewrite lookup_grouped in Hl.
  destruct (texts_of label ents); [discriminate|]. now injection Hl.
Qed.

(** A model that finds three entities, two of them persons. *)
Definition with_spacy : libraries :=
  {| word_tokenize := split;
     sent_tokenize := fun s => [s];
     stopwords_fileids := ["english"];
     stopwords_words := fun _ => ["the"; "on"];
     import_textblob := Raise ModuleNotFoundError;
     import_spacy :=
       Ret {| spacy_load := fun _ _ =>
                Ret (fun _ => Ret [("PERSON", "Ann"); ("ORG", "ACME");
                                   ("PERSON", "Ann")]);
              import_download := Raise ModuleNotFoundError |};
     import_textstat := Raise ModuleNotFoundError |}.

Lemma extract_entities_groups_witness :
  exists entities,
    extract_entities with_spacy
      (init with_spacy "Ann of ACME. Ann." "english") = Ret entities /\
    map fst entities = ["PERSON"; "ORG"] /\
    Bs4.lookup "PERSON" entities = Some ["Ann"; "Ann"].
Proof.
  destruct (extract_entities_groups with_spacy
              (init with_spacy "Ann of ACME. Ann." "english")
              _ _ _ eq_refl eq_refl eq_refl) as (entities & H & Hk & Hl & _).
  exists entities. split; [exact H|]. split; [exact Hk|].
  exact (Hl "PERSON").
Defined.

(** X17. None of the three optional analyses ever raises an
    [ImportError]: an exception that reaches the caller of
    [get_sentiment], [extract_entities] or [get_readability_scores] is of
    another class. In [extract_entities], when spaCy is imported but
    loading the model raises an [OSError], the model is downloaded and
    loaded again; an exception of this second load that is no
    [ImportError] (a second [OSError], say) reaches the caller, and when
    [spacy.cli] cannot be imported the result is the empty dictionary. *)
Theorem optional_analyses_errors (lib : libraries) (self : TextAnalyzer) :
  (forall e, get_sentiment lib self = Raise e ->
             isinstance e ImportError = false) /\
  (forall e, extract_entities lib self = Raise e ->
             isinstance e ImportError = false) /\
  (forall e, get_readability_scores lib self = Raise e ->
             isinstance e ImportError = false) /\
  (forall spacy e1,
      import_spacy lib = Ret spacy ->
      spacy_load spacy false "en_core_web_sm" = Raise e1 ->
      isinstance e1 OSError = true ->
      (forall download e2,
          import_download spacy = Ret download ->
          download "en_core_web_sm" = Ret tt ->
          spacy_load spacy true "en_core_web_sm" = Raise e2 ->
          isinstance e2 ImportError = false ->
          extract_entities lib self = Raise e2) /\
      (forall e3,
          import_download spacy = Raise e3 ->
          isinstance e3 ImportError = true ->
          extract_entities lib self = Ret [])).
Proof.
  assert (Hte : forall A (m : outcome A) h e,
             (forall x, exists a, h x = Ret a) ->
             try_except m ImportError h = Raise e ->
             isinstance e ImportError = false).
  { intros A m h e Hh. unfold try_except. destruct m as [a|e0];
      [discriminate|].
    destruct (isinstance e0 ImportError) eqn:Hi.
    - destruct (Hh e0) as (a & ->). discriminate.
    - now intros [= <-]. }
  split; [|split; [|split]].
  - intros e. apply Hte. intros x. eexists. reflexivity.
  - intros e. apply Hte. intros x. eexists. reflexivity.
  - intros e. apply Hte. intros x. eexists. reflexivity.
  - intros spacy e1 H1 H2 H3. split.
    + intros download e2 H4 H5 H6 H7. unfold extract_entities.
      rewrite H1. cbn [bind]. rewrite H2. cbn [try_except].
      rewrite H3, H4. cbn [bind]. rewrite H5. cbn [bind]. rewrite H6.
      cbn [bind try_except]. now rewrite H7.
    + intros e3 H4 H5. unfold extract_entities.
      rewrite H1. cbn [bind]. rewrite H2. cbn [try_except].
      rewrite H3, H4. cbn [bind try_except]. now rewrite H5.
Qed.

(** spaCy without its model, which a download does not bring. *)
Definition without_model : libraries :=
  {| word_tokenize := split;
     sent_tokenize := fun s => [s];
     stopwords_fileids := ["english"];
     stopwords_words := fun _ => ["the"; "on"];
     import_textblob := Raise ModuleNotFoundError;
     import_spacy :=
       Ret {| spacy_load := fun _ _ => Raise OSError;
              import_download := Ret (fun _ => Ret tt) |};
     import_textstat := Raise ModuleNotFoundError |}.

Lemma optional_analyses_errors_witness :
  extract_entities without_model (init without_model "Ann." "english")
  = Raise OSError.
Proof.
  destruct (optional_analyses_errors without_model
              (init without_model "Ann." "english")) as (_ & _ & _ & H).
  destruct (H _ OSError eq_refl eq_refl eq_refl) as (H1 & _).
  apply (H1 (fun _ => Ret tt)); reflexivity.
Defined.

End EntityFacts.

(* ===================================================================== *)
(** * Further properties of [main.py] and of the visualizer *)
(* ===================================================================== *)

Module Totals.
Import Py Main.
Import TextAnalysis WordFrequency.

(** The loop [for word, count in items: d[word] = d.get(word, 0) + count]
    from the dictionary [d]. *)
Definition merged (items : list (string * nat)) (d : list (string * nat))
  : list (string * nat) :=
  fold_left (fun d item => add_count (fst item) (snd item) d) items d.

(** The sum of the counts that [items] gives for [word]. *)
Definition total_of (word : string) (items : list (string * nat)) : nat :=
  list_sum (map snd (filter (fun item => String.eqb (fst item) word) items)).

Lemma lookup_add_count w k c d :
  Bs4.lookup w (add_count k c d) =
  if String.eqb k w
  then Some (match Bs4.lookup w d with Some n => n | None => 0 end + c)
  else Bs4.lookup w d.
Proof.
  induction d as [|[k' n] d IH]; cbn [add_count Bs4.lookup].
  - destruct (String.eqb k w); reflexivity.
  - destruct (String.eqb k' k) eqn:Hk; cbn [Bs4.lookup].
    + apply String.eqb_eq in Hk. subst k'.
      destruct (String.eqb k w); reflexivity.
    + destruct (String.eqb k' w) eqn:Hw; [|exact IH].
      apply String.eqb_eq in Hw. subst k'. now rewrite String.eqb_sym, Hk.
Qed.

Lemma keys_add_count k c d :
  map fst (add_count k c d) =
  if str_in k (map fst d) then map fst d else map fst d ++ [k].
Proof.
  induction d as [|[k' n] d IH]; [reflexivity|].
  cbn [add_count map fst]. unfold str_in. cbn [existsb].
  fold (str_in k (map fst d)).
  destruct (String.eqb k' k) eqn:Hk.
  - rewrite String.eqb_sym, Hk. reflexivity.
  - rewrite String.eqb_sym, Hk. cbn [map fst orb]. rewrite IH.
    now destruct (str_in k (map fst d)).
Qed.

Lemma merged_snoc items item :
  merged (items ++ [item]) [] =
  add_count (fst item) (snd item) (merged items []).
Proof. unfold merged. now rewrite fold_left_app. Qed.

Lemma total_of_snoc w items item :
  total_of w (items ++ [item]) =
  total_of w items + (if String.eqb (fst item) w then snd item else 0).
Proof.
  unfold total_of. rewrite filter_app, map_app, list_sum_app. cbn [filter].
  destruct (String.eqb (fst item) w); cbn; lia.
Qed.

Lemma total_of_absent w items :
  str_in w (map fst items) = false -> total_of w items = 0.
Proof.
  unfold total_of. induction items as [|[k n] items IH]; [reflexivity|].
  unfold str_in. cbn [map fst existsb filter]. fold (str_in w (map fst items)).
  intros H. apply orb_false_elim in H. destruct H as [Hk H].
  rewrite String.eqb_sym, Hk. now apply IH.
Qed.

Lemma str_in_snoc w l k : str_in w (l ++ [k]) = str_in w l || String.eqb w k.
Proof.
  unfold str_in. rewrite existsb_app. cbn. now rewrite orb_false_r.
Qed.

Lemma lookup_merged w items :
  Bs4.lookup w (merged items []) =
  if str_in w (map fst items) then Some (total_of w items) else None.
Proof.
  induction items as [|[k c] items IH] using rev_ind; [reflexivity|].
  rewrite merged_snoc, lookup_add_count, total_of_snoc, map_app.
  cbn [fst snd map]. rewrite str_in_snoc, IH, (String.eqb_sym w k).
  destruct (String.eqb k w).
  - rewrite orb_true_r.
    destruct (str_in w (map fst items)) eqn:Hin; [reflexivity|].
    now rewrite (total_of_absent _ _ Hin).
  - rewrite orb_false_r, Nat.add_0_r. reflexivity.
Qed.

Lemma keys_merged items :
  map fst (merged items []) = distinct (map fst items).
Proof.
  induction items as [|[k c] items IH] using rev_ind; [reflexivity|].
  rewrite merged_snoc, keys_add_count, map_app, IH. cbn [map fst].
  rewrite distinct_snoc. now rewrite FrequencyFacts.str_in_distinct.
Qed.

Lemma combine_from all_analyses c0 :
  fold_left combine_one all_analyses c0 =
  {| combined_word_frequency :=
       merged (flat_map Main.word_frequency all_analyses)
              (combined_word_frequency c0);
     combined_sentiment :=
       combined_sentiment c0 ++ map Main.sentiment all_analyses;
     combined_entities :=
       combined_entities c0 ++ map Main.entities all_analyses |}.
Proof.
  revert c0. induction all_analyses as [|a rest IH]; intros c0.
  - cbn. rewrite !app_nil_r. now destruct c0.
  - cbn [fold_left]. rewrite IH. unfold combine_one, merged.
    cbn [combined_word_frequency combined_sentiment combined_entities
         flat_map map].
    now rewrite fold_left_app, <- !app_assoc.
Qed.

(** X18. The loop of [main] that combines the analyses gives a dictionary
    with one key for each word of the word frequencies of the pages, in the
    order of their first occurrence, whose count is the sum of the counts
    of this word over all the pages; the sentiments and the entities of the
    pages are collected in the order of the pages. *)
Theorem combine_adds_counts (all_analyses : list analysis_results) :
  let items := flat_map Main.word_frequency all_analyses in
  map fst (combined_word_frequency (combine all_analyses))
  = distinct (map fst items) /\
  (forall w,
      Bs4.lookup w (combined_word_frequency (combine all_analyses)) =
      if str_in w (map fst items) then Some (total_of w items) else None) /\
  combined_sentiment (combine all_analyses) = map Main.sentiment all_analyses /\
  combined_entities (combine all_analyses) = map Main.entities all_analyses.
Proof.
  unfold combine. rewrite combine_from.
  cbn [combined_word_frequency combined_sentiment combined_entities app].
  split; [apply keys_merged|]. split; [|split; reflexivity].
  intros w. apply lookup_merged.
Qed.

(** X19. The totals that [plot_entity_counts] plots: for each entity type
    of the documents, once, in the order of first occurrence, the number
    of entities of this type in all the documents together. *)
Theorem entity_totals (entities_list : list (list (string * list string))) :
  let items :=
    map (fun item => (fst item, length (snd item)))
        (concat entities_list) in
  map fst (Visualizations.all_entities entities_list)
  = distinct (map fst items) /\
  forall ent_type,
    Bs4.lookup ent_type (Visualizations.all_entities entities_list) =
    if str_in ent_type (map fst items)
    then Some (total_of ent_type items) else None.
Proof.
  assert (H : Visualizations.all_entities entities_list
              = merged (map (fun item => (fst item, length (snd item)))
                            (concat entities_list)) []).
  { unfold Visualizations.all_entities, merged.
    generalize (@nil (string * nat)) as acc.
    induction entities_list as [|e rest IH]; intros acc; [reflexivity|].
    cbn [fold_left concat]. rewrite IH, map_app, fold_left_app. f_equal.
    clear IH. revert acc. induction e as [|item e IHe]; intros acc;
      [reflexivity|]. cbn [fold_left map fst snd]. apply IHe. }
  cbv zeta. rewrite H. split; [apply keys_merged|].
  intros ent_type. apply lookup_merged.
Qed.

End Totals.

Module Pipeline.
Import Py Bs4 Parsers SearchFacts.

Lemma top_list_short lib self n min_word_length l :
  n <> 0%Z ->
  TextAnalysis.get_word_frequency lib self (Some n) min_word_length
  = TextAnalysis.FreqList l ->
  length l <= Z.to_nat n /\ NoDup (map fst l).
Proof.
  intros Hn H.
  rewrite (FrequencyFacts.get_word_frequency_list _ _ _ _ Hn) in H.
  injection H as <-. split; [apply firstn_le_length|].
  set (ranked := TextAnalysis.sorted_by_count _).
  assert (Hnd : NoDup (map fst ranked)).
  { apply (Permutation_NoDup
             (l := map fst (WordFrequency.histogram
                              (WordFrequency.counted lib self
                                                     min_word_length)))).
    - apply Permutation_map. symmetry.
      apply WordFrequency.sorted_by_count_perm.
    - rewrite FrequencyFacts.keys_histogram.
      apply WordFrequency.NoDup_distinct. }
  rewrite <- (firstn_skipn (Z.to_nat n) ranked), map_app in Hnd.
  now apply NoDup_app_remove_r in Hnd.
Qed.

Lemma average_returns sentences :
  exists q, Main.average_sentence_length sentences = Ret q.
Proof.
  destruct sentences as [|s rest]; [now exists 0%Q|].
  unfold Main.average_sentence_length, Main.truediv.
  destruct (Z.of_nat (length (s :: rest)) =? 0)%Z eqn:Hz.
  - apply Z.eqb_eq in Hz. cbn [length] in Hz. lia.
  - eexists. reflexivity.
Qed.

(** X20. [analyze_content] returns [None] for the empty text. For any
    other text it never returns [None]: when the three optional analyses
    return, it returns results that hold what they returned, the number of
    sentences of the sentence tokenizer, the average sentence length of
    these sentences, and at most 50 word frequencies, with distinct words;
    and it raises exactly what the first of sentiment, entities and
    readability to raise raises. *)
Theorem analyze_content_results (lib : TextAnalysis.libraries)
        (content_text : string) :
  Main.analyze_content lib "" = Ret None /\
  (content_text <> "" ->
   let analyzer := TextAnalysis.init lib content_text "english" in
   Main.analyze_content lib content_text <> Ret None /\
   (forall s e r,
       TextAnalysis.get_sentiment lib analyzer = Ret s ->
       TextAnalysis.extract_entities lib analyzer = Ret e ->
       TextAnalysis.get_readability_scores lib analyzer = Ret r ->
       exists res,
         Main.analyze_content lib content_text = Ret (Some res) /\
         Main.sentiment res = s /\
         Main.entities res = e /\
         Main.readability res = r /\
         Main.sentence_count res
         = length (TextAnalysis.sent_tokenize lib content_text) /\
         Main.average_sentence_length
           (TextAnalysis.sent_tokenize lib content_text)
         = Ret (Main.average_length res) /\
         length (Main.word_frequency res) <= 50 /\
         NoDup (map fst (Main.word_frequency res))) /\
   (forall x,
       Main.analyze_content lib content_text = Raise x <->
       TextAnalysis.get_sentiment lib analyzer = Raise x \/
       (exists s, TextAnalysis.get_sentiment lib analyzer = Ret s /\
                  TextAnalysis.extract_entities lib analyzer = Raise x) \/
       (exists s e,
           TextAnalysis.get_sentiment lib analyzer = Ret s /\
           TextAnalysis.extract_entities lib analyzer = Ret e /\
           TextAnalysis.get_readability_scores lib analyzer = Raise x))).
Proof.
  split; [reflexivity|]. intros Hne analyzer.
  unfold Main.analyze_content. apply String.eqb_neq in Hne. rewrite Hne.
  fold analyzer.
  destruct (average_returns (TextAnalysis.get_sentences lib analyzer))
    as (q & Hq).
  rewrite Hq.
  destruct (TextAnalysis.get_sentiment lib analyzer) as [s0|x0];
    cbn [bind].
  2:{ split; [discriminate|]. split; [discriminate|].
      intros x. split.
      - intros [= ->]. now left.
      - intros [H|[(s & H & _)|(s & e & H & _)]]; congruence. }
  destruct (TextAnalysis.extract_entities lib analyzer) as [e0|x0];
    cbn [bind].
  2:{ split; [discriminate|]. split; [discriminate|].
      intros x. split.
      - intros [= ->]. right. left. now exists s0.
      - intros [H|[(s & _ & H)|(s & e & _ & H & _)]]; congruence. }
  destruct (TextAnalysis.get_readability_scores lib analyzer) as [r0|x0];
    cbn [bind].
  2:{ split; [discriminate|]. split; [discriminate|].
      intros x. split.
      - intros [= ->]. right. right. now exists s0, e0.
      - intros [H|[(s & _ & H)|(s & e & _ & _ & H)]]; congruence. }
  split; [discriminate|]. split.
  - intros s e r [= <-] [= <-] [= <-]. eexists. split; [reflexivity|].
    cbn [Main.sentiment Main.entities Main.readability Main.sentence_count
         Main.average_length Main.word_frequency].
    repeat (split; [reflexivity|]).
    split; [exact Hq|].
    destruct (TextAnalysis.get_word_frequency lib analyzer (Some 50%Z) 3%Z)
      as [c|l] eqn:Hf.
    + rewrite (FrequencyFacts.get_word_frequency_list lib analyzer 50 3)
        in Hf by discriminate. discriminate.
    + cbn [Main.dict].
      apply (top_list_short lib analyzer 50%Z 3%Z l); [discriminate|exact Hf].
  - intros x. split; [discriminate|].
    intros [H|[(s & _ & H)|(s & e & _ & _ & H)]]; discriminate.
Qed.

Lemma analyze_content_results_witness :
  exists res,
    Main.analyze_content OptionalBackends.nltk_only "a fine day"
    = Ret (Some res) /\
    Main.sentence_count res = 1 /\
    length (Main.word_frequency res) <= 50.
Proof.
  destruct (analyze_content_results OptionalBackends.nltk_only "a fine day")
    as (_ & H).
  destruct (H ltac:(discriminate)) as (_ & H1 & _).
  destruct (H1 _ _ _ eq_refl eq_refl eq_refl)
    as (res & Hr & _ & _ & _ & Hc & _ & Hl & _).
  exists res. split; [exact Hr|]. split; [exact Hc|exact Hl].
Defined.

(** The author markers of [get_author]. *)
Definition author_tag (e : element) : bool :=
  AuthorDateOrder.by_class e || AuthorDateOrder.by_rel e
  || AuthorDateOrder.by_itemprop e.

Lemma get_author_needs_tag self d :
  soup self = Some d ->
  (exists v, fst (get_author self) = Ret v) <->
  (exists t, In t (descendants d) /\ author_tag t = true).
Proof.
  intros Hd. rewrite (AuthorDateOrder.get_author_cases _ _ Hd).
  unfold author_tag. split.
  - intros (v & H).
    destruct (hd_error (filter AuthorDateOrder.by_class (descendants d)))
      as [t|] eqn:H1.
    { apply hd_filter_first in H1.
      destruct H1 as (b & a & Heq & _ & Ht). exists t. rewrite Heq, Ht.
      split; [apply in_elt|reflexivity]. }
    destruct (hd_error (filter AuthorDateOrder.by_rel (descendants d)))
      as [t|] eqn:H2.
    { apply hd_filter_first in H2.
      destruct H2 as (b & a & Heq & _ & Ht). exists t. rewrite Heq, Ht.
      split; [apply in_elt|now rewrite orb_true_r]. }
    destruct (hd_error (filter AuthorDateOrder.by_itemprop (descendants d)))
      as [t|] eqn:H3; [|discriminate].
    apply hd_filter_first in H3.
    destruct H3 as (b & a & Heq & _ & Ht). exists t. rewrite Heq, Ht.
    split; [apply in_elt|now rewrite orb_true_r].
  - intros (t & Hin & Ht).
    destruct (hd_error (filter AuthorDateOrder.by_class (descendants d)))
      eqn:H1; [eexists; reflexivity|].
    destruct (hd_error (filter AuthorDateOrder.by_rel (descendants d)))
      eqn:H2; [eexists; reflexivity|].
    destruct (hd_error (filter AuthorDateOrder.by_itemprop (descendants d)))
      eqn:H3; [eexists; reflexivity|].
    exfalso.
    rewrite (proj1 (hd_filter_none _ _) H1 t Hin) in Ht.
    rewrite (proj1 (hd_filter_none _ _) H2 t Hin) in Ht.
    rewrite (proj1 (hd_filter_none _ _) H3 t Hin) in Ht.
    discriminate.
Qed.

(** X21. The fields that [scrape_url] reads from a page: the title and the
    description are those of the page as parsed, but the author and the
    date are read after [get_clean_text], from the pruned document. So the
    fields are returned only when a tag with an author marker is left
    outside the [script], [style], [head], [header], [footer] and [nav]
    subtrees; for any other page with a document, an exception is raised
    and no field is returned. *)
Theorem scrape_fields_after_pruning (parser : BaseParser) d :
  soup parser = Some d ->
  let pruned := snd (get_clean_text parser) in
  (forall title meta content author date,
      Main.scrape_fields parser = Ret (title, meta, content, author, date) ->
      fst (get_title parser) = Ret title /\
      fst (get_meta_description parser) = Ret meta /\
      fst (get_clean_text parser) = Ret content /\
      fst (get_author pruned) = Ret author /\
      fst (get_publish_date pruned) = Ret date) /\
  ((exists x, Main.scrape_fields parser = Ret x) ->
   exists t,
     In t (descendants (decompose_all CleanText.unwanted_strainer d)) /\
     author_tag t = true).
Proof.
  intros Hd pruned.
  assert (Hp : soup pruned
               = Some (decompose_all CleanText.unwanted_strainer d)).
  { unfold pruned. now rewrite (CleanText.get_clean_text_unfold _ _ Hd). }
  assert (Hshape :
    Main.scrape_fields parser =
    bind (fst (get_title parser)) (fun title =>
    bind (fst (get_meta_description parser)) (fun meta =>
    bind (fst (get_clean_text parser)) (fun content =>
    bind (fst (get_author pruned)) (fun author =>
    bind (fst (get_publish_date pruned)) (fun date =>
      Ret (title, meta, content, author, date))))))).
  { unfold Main.scrape_fields, pruned.
    pose proof (Purity.read_only Calls.GetTitle parser ltac:(discriminate))
      as H1. cbn [Calls.call] in H1.
    destruct (get_title parser) as [r1 p1]. cbn [fst snd] in *. subst p1.
    destruct r1 as [title|]; [|reflexivity]. cbn [bind].
    pose proof (Purity.read_only Calls.GetMetaDescription parser
                  ltac:(discriminate)) as H2. cbn [Calls.call] in H2.
    destruct (get_meta_description parser) as [r2 p2].
    cbn [fst snd] in *. subst p2.
    destruct r2 as [meta|]; [|reflexivity]. cbn [bind].
    destruct (get_clean_text parser) as [r3 p3]. cbn [fst snd].
    destruct r3 as [content|]; [|reflexivity]. cbn [bind].
    pose proof (Purity.read_only Calls.GetAuthor p3 ltac:(discriminate))
      as H4. cbn [Calls.call] in H4.
    destruct (get_author p3) as [r4 p4]. cbn [fst snd] in *. subst p4.
    destruct r4 as [author|]; [|reflexivity]. cbn [bind].
    now destruct (get_publish_date p3) as [r5 p5]. }
  rewrite Hshape. clear Hshape.
  assert (Hall : forall title meta content author date,
    bind (fst (get_title parser)) (fun title =>
    bind (fst (get_meta_description parser)) (fun meta =>
    bind (fst (get_clean_text parser)) (fun content =>
    bind (fst (get_author pruned)) (fun author =>
    bind (fst (get_publish_date pruned)) (fun date =>
      Ret (title, meta, content, author, date))))))
    = Ret (title, meta, content, author, date) ->
    fst (get_title parser) = Ret title /\
    fst (get_meta_description parser) = Ret meta /\
    fst (get_clean_text parser) = Ret content /\
    fst (get_author pruned) = Ret author /\
    fst (get_publish_date pruned) = Ret date).
  { intros title meta content author date.
    destruct (fst (get_title parser)); [|discriminate].
    destruct (fst (get_meta_description parser)); [|discriminate].
    destruct (fst (get_clean_text parser)); [|discriminate].
    destruct (fst (get_author pruned)); [|discriminate].
    destruct (fst (get_publish_date pruned)); [|discriminate].
    cbn [bind]. intros [= -> -> -> -> ->]. repeat split. }
  split; [exact Hall|].
  intros ([[[[title meta] content] author] date] & Hx).
  destruct (Hall _ _ _ _ _ Hx) as (_ & _ & _ & Ha & _).
  apply (get_author_needs_tag pruned _ Hp). now exists author.
Qed.

Lemma scrape_fields_after_pruning_witness :
  exists t,
    In t (descendants
            (decompose_all CleanText.unwanted_strainer
               [Tag "html" []
                  [Tag "head" []
                     [Tag "meta" [("property",
                                   AttrStr "article:published_time");
                                  ("content", AttrStr "2024-01-01")] []];
                   Tag "body" []
                     [Tag "span" [("class", AttrList ["byline"])]
                        [Str NavigableString "Ann"]]]])) /\
    author_tag t = true.
Proof.
  apply (proj2 (scrape_fields_after_pruning Purity.dated _ eq_refl)).
  eexists. reflexivity.
Defined.

End Pipeline.
